(** * FLAC to MKV converter: the conversion pipeline of
    [flac_to_mkv_converter.py], embedded and checked against its
    specification.

    The embedding follows class [FlacToMkvConverter]: the metadata reader
    ([get_track_metadata]), the frame composer ([create_video_frame],
    [wrap_text]), the chapter file writer ([create_chapter_file]) and the
    orchestration ([convert_to_mkv]).  The external collaborators (mutagen,
    Pillow, the transcoder binary, the scratch directory) are the fields of a
    record of oracles, [world]; a [host] adds the failures of
    [tempfile.mkdtemp] and of the decoding of the transcoder's error output.
    The window ([ConverterGUI]) and the start-up ([check_dependencies],
    [main]) follow. *)

From Stdlib Require Import List String Ascii ZArith Lia Bool Arith.
From Stdlib Require Import DecimalString.
From Stdlib Require Import Sorted Permutation.
From Stdlib Require Import DecimalPos DecimalZ.
Import ListNotations.

Local Open Scope string_scope.
Local Open Scope Z_scope.

(* ================================================================= *)
(** ** Python primitives used by the source *)

Module Py.

(** Characters stand for the code points 0..255.  [str.split()] with no
    argument splits on the code points for which [str.isspace] holds. *)
Definition isspace (c : ascii) : bool :=
  let n := nat_of_ascii c in
  ((9 <=? n) && (n <=? 13) || (28 <=? n) && (n <=? 32)
   || (n =? 133) || (n =? 160))%nat.

Definition snoc (s : string) (c : ascii) : string := s ++ String c "".

(** [split_from cur s]: the words of [s], where [cur] is the word being
    read (runs of whitespace separate words, no empty word is produced). *)
Fixpoint split_from (cur s : string) : list string :=
  match s with
  | EmptyString => if (String.length cur =? 0)%nat then [] else [cur]
  | String c s' =>
      if isspace c
      then if (String.length cur =? 0)%nat
           then split_from "" s'
           else cur :: split_from "" s'
      else split_from (snoc cur c) s'
  end.

(** [text.split()] *)
Definition split (text : string) : list string := split_from "" text.

(** [sep.join(parts)] *)
Definition join (sep : string) (parts : list string) : string :=
  String.concat sep parts.

(** [str(n)] of an [int]. *)
Definition str_of_int (z : Z) : string :=
  NilZero.string_of_int (Z.to_int z).

Fixpoint zeros (n : nat) : string :=
  match n with O => "" | S k => String "0" (zeros k) end.

(** [format(z, "0<width>d")]: sign first, then zeros up to the width. *)
Definition format_0d (width : nat) (z : Z) : string :=
  if z <? 0
  then let d := str_of_int (- z) in
       "-" ++ zeros (width - 1 - String.length d) ++ d
  else let d := str_of_int z in
       zeros (width - String.length d) ++ d.

(** The values a metadata field can hold. *)
Inductive value : Type :=
| Str (s : string)
| Int (z : Z).

(** The exceptions that the source raises or catches by name, and those
    that pass through its handlers; each carries its text, [str(e)].
    [OSError] stands for the instances of [OSError] that are not
    [FileNotFoundError] ([PermissionError] among them), [ImportError] for
    its subclasses too, [OtherError] for an exception of any other class
    derived from [Exception]. *)
Inductive exn : Type :=
| ValueError (msg : string)
| CalledProcessError (msg : string)
| RuntimeError (msg : string)
| FileNotFoundError (msg : string)
| OSError (msg : string)
| ImportError (msg : string)
| UnicodeDecodeError (msg : string)
| OtherError (kind msg : string).

(** [str(e)] *)
Definition exn_str (e : exn) : string :=
  match e with
  | ValueError m | CalledProcessError m | RuntimeError m
  | FileNotFoundError m | OSError m | ImportError m
  | UnicodeDecodeError m | OtherError _ m => m
  end.

(** [c.lower()] on the code points 0..255: the capital letters of ASCII
    and of Latin-1 (192..222 but the multiplication sign 215) have their
    small letter 32 code points further. *)
Definition lower_char (c : ascii) : ascii :=
  let n := nat_of_ascii c in
  if ((65 <=? n) && (n <=? 90)
      || (192 <=? n) && (n <=? 222) && negb (n =? 215))%nat
  then ascii_of_nat (n + 32)
  else c.

(** [s.lower()] *)
Fixpoint lower (s : string) : string :=
  match s with
  | EmptyString => EmptyString
  | String c s' => String (lower_char c) (lower s')
  end.

Inductive result (A : Type) : Type :=
| Ok (a : A)
| Raise (e : exn).
Arguments Ok {A} a.
Arguments Raise {A} e.

(** [format(v, "02d")], the replacement field [{v:02d}] of an f-string:
    the presentation type [d] is defined for integers only. *)
Definition format_02d (v : value) : result string :=
  match v with
  | Int z => Ok (format_0d 2 z)
  | Str _ =>
      Raise (ValueError "Unknown format code 'd' for object of type 'str'")
  end.

(** [s.rfind(c)]: the index of the last occurrence. *)
Fixpoint rfind (c : ascii) (s : string) : option nat :=
  match s with
  | EmptyString => None
  | String a s' =>
      match rfind c s' with
      | Some i => Some (S i)
      | None => if Ascii.eqb a c then Some O else None
      end
  end.

(** [os.path.basename(p)] (POSIX): what follows the last slash. *)
Definition basename (p : string) : string :=
  match rfind "/" p with
  | Some i => String.substring (S i) (String.length p - S i) p
  | None => p
  end.

Fixpoint all_dots (s : string) : bool :=
  match s with
  | EmptyString => true
  | String a s' => Ascii.eqb a "." && all_dots s'
  end.

(** [os.path.splitext(b)[0]] for a name [b] without slash: the last dot
    starts the extension unless only dots precede it. *)
Definition splitext_root (b : string) : string :=
  match rfind "." b with
  | Some i =>
      if all_dots (String.substring 0 i b) then b
      else String.substring 0 i b
  | None => b
  end.

(** [os.path.join(a, b)] (POSIX). *)
Definition path_join (a b : string) : string :=
  match b with
  | String "/" _ => b
  | _ =>
      match a with
      | EmptyString => b
      | _ =>
          match String.get (String.length a - 1) a with
          | Some "/"%char => a ++ b
          | _ => a ++ "/" ++ b
          end
      end
  end.

End Py.

Import Py.

(* ================================================================= *)
(** ** Data model *)

(** Durations are Python numbers (the [float] of [audio.info.length], the
    [int] [0] of the fallback).  The pipeline adds them, converts them to
    whole milliseconds and prints them; these operations are the interface
    below, so that nothing proved here depends on floating point rounding. *)
Class Seconds (T : Type) : Type := {
  sec_zero : T;              (* the literal [0] *)
  sec_add : T -> T -> T;     (* [a + b] *)
  sec_millis : T -> Z;       (* [int(a * 1000)] *)
  sec_str : T -> string      (* [str(a)] *)
}.

(** Durations in whole seconds. *)
#[export] Instance Seconds_Z : Seconds Z := {|
  sec_zero := 0;
  sec_add := Z.add;
  sec_millis := fun a => a * 1000;
  sec_str := str_of_int
|}.

(** Python numbers of integral value: the [int] [z] and the [float]
    [z.0].  The operations below are those of Python while the values stay
    under 10^15 in magnitude, where the sums of floats are exact and [str]
    prints every digit. *)
Inductive number : Type :=
| IntNum (z : Z)
| FloatNum (z : Z).

Definition number_value (a : number) : Z :=
  match a with IntNum z | FloatNum z => z end.

#[export] Instance Seconds_number : Seconds number := {|
  sec_zero := IntNum 0;
  sec_add := fun a b =>
    match a, b with
    | IntNum x, IntNum y => IntNum (x + y)
    | _, _ => FloatNum (number_value a + number_value b)
    end;
  sec_millis := fun a => number_value a * 1000;
  sec_str := fun a =>
    match a with
    | IntNum z => str_of_int z
    | FloatNum z => str_of_int z ++ ".0"
    end
|}.

Inductive font : Type :=
| TrueType (path : string) (size : Z)
| DefaultFont.

Record image : Type := {
  image_name : string;       (* where the pixels come from *)
  image_width : Z;
  image_height : Z
}.

(** [img.resize((w, h), LANCZOS)] *)
Definition resize (img : image) (w h : Z) : image :=
  {| image_name := image_name img; image_width := w; image_height := h |}.

(** What has been drawn on a frame, oldest first. *)
Inductive draw_op : Type :=
| Paste (img : image) (x y : Z)
| Rectangle (x0 y0 x1 y1 : Z) (outline : string) (width : Z)
| Text (x y : Z) (text fill : string) (fnt : option font)
       (anchor : option string).

Record frame : Type := {
  frame_width : Z;
  frame_height : Z;
  frame_color : string;
  frame_ops : list draw_op
}.

(** [Image.new('RGB', (w, h), color=c)] *)
Definition Image_new (w h : Z) (c : string) : frame :=
  {| frame_width := w; frame_height := h; frame_color := c;
     frame_ops := [] |}.

Definition draw (f : frame) (op : draw_op) : frame :=
  {| frame_width := frame_width f; frame_height := frame_height f;
     frame_color := frame_color f; frame_ops := frame_ops f ++ [op] |}.

Section Model.

Context {T : Type} {num : Seconds T}.

Record stream_info : Type := {
  info_sample_rate : Z;
  info_bits_per_sample : Z;
  info_channels : Z;
  info_length : T
}.

(** An opened FLAC file: its Vorbis comments, one pair (key, value) per
    comment in the order of the file, and its stream properties.  A file
    without comment block has no pair. *)
Record flac : Type := {
  flac_tags : list (string * string);
  flac_info : stream_info
}.

(** The dictionary returned by [get_track_metadata]. *)
Record metadata : Type := {
  title : string;
  artist : string;
  album : string;
  track_number : value;
  duration : T;
  sample_rate : Z;
  bits_per_sample : Z;
  channels : Z
}.

(** An element of [chapter_data]. *)
Record chapter : Type := {
  chapter_start : T;
  chapter_end : T;
  chapter_title : string
}.

(** The collaborators of one run.  A world describes the runs in which
    [tempfile.mkdtemp] returns and the error output of a command that
    fails can be decoded; a [host], further down, says what happens
    otherwise. *)
Record world : Type := {
  (* [FLAC(path)]; [None] when it raises *)
  FLAC : string -> option flac;
  (* [Image.open(path)], which reads the header of the file; [None] when
     it raises *)
  Image_open : string -> option image;
  (* whether [img.resize(size, LANCZOS)] returns: the pixels are decoded by
     this call, which raises on a truncated or damaged file *)
  resize_returns : image -> bool;
  (* whether [frame.paste(img, box)] returns *)
  paste_returns : image -> bool;
  (* whether [ImageFont.truetype(path, size)] returns *)
  ImageFont_truetype : string -> Z -> bool;
  (* [draw.textbbox((0, 0), text, font=font)] *)
  textbbox : font -> string -> Z * Z * Z * Z;
  (* [subprocess.run(cmd, check=True, capture_output=True)]: [None] on
     exit status 0; otherwise it raises [CalledProcessError], and the text
     is what the handler makes of it, [e.stderr.decode() if e.stderr else
     str(e)] *)
  subprocess_run : list string -> option string;
  (* the directory returned by [tempfile.mkdtemp] *)
  mkdtemp : string
}.

(** The attributes of a [FlacToMkvConverter]. *)
Record converter : Type := {
  flac_files : list string;
  cover_art_path : string;
  output_path : string;
  temp_dir : option string
}.

(* =============================================================== *)
(** ** Metadata Reader *)

(** [audio[key]]: the values of the comments whose key is [key], letter
    case apart, in the order of the file; [None] stands for the [KeyError]
    raised when there is none. *)
Definition tag_values (audio : flac) (key : string)
  : option (list string) :=
  let key := lower key in
  let values :=
    map snd
      (filter (fun kv => String.eqb (lower (fst kv)) key)
         (flac_tags audio)) in
  match values with
  | [] => None
  | _ :: _ => Some values
  end.

(** [audio.get(key, default)] *)
Definition tag_get (audio : flac) (key : string) (default : list string)
  : list string :=
  match tag_values audio key with
  | Some v => v
  | None => default
  end.

(** [l[0]]; [None] stands for the [IndexError]. *)
Definition item0 (l : list string) : option string :=
  match l with
  | [] => None
  | x :: _ => Some x
  end.

Definition stem (flac_path : string) : string :=
  splitext_root (basename flac_path).

(** The body of the [try] of [get_track_metadata]; [None] when any
    statement of it raises. *)
Definition read_metadata (w : world) (flac_path : string)
  : option metadata :=
  match FLAC w flac_path with
  | None => None
  | Some audio =>
      match item0 (tag_get audio "TITLE" [stem flac_path]),
            item0 (tag_get audio "ARTIST" ["Unknown Artist"]),
            item0 (tag_get audio "ALBUM" ["Unknown Album"]),
            item0 (tag_get audio "TRACKNUMBER" ["1"]) with
      | Some t, Some ar, Some al, Some tn =>
          Some {| title := t; artist := ar; album := al;
                  track_number := Str tn;
                  duration := info_length (flac_info audio);
                  sample_rate := info_sample_rate (flac_info audio);
                  bits_per_sample :=
                    info_bits_per_sample (flac_info audio);
                  channels := info_channels (flac_info audio) |}
      | _, _, _, _ => None
      end
  end.

(** The dictionary of the [except] branch. *)
Definition default_metadata (flac_path : string) : metadata :=
  {| title := stem flac_path;
     artist := "Unknown Artist";
     album := "Unknown Album";
     track_number := Str "1";
     duration := sec_zero;
     sample_rate := 44100;
     bits_per_sample := 16;
     channels := 2 |}.

Definition get_track_metadata (w : world) (flac_path : string)
  : metadata :=
  match read_metadata w flac_path with
  | Some md => md
  | None => default_metadata flac_path
  end.

(* =============================================================== *)
(** ** Frame Composer *)

(** [bbox[2]] of [draw.textbbox((0, 0), text, font=font)] *)
Definition bbox_right (w : world) (fnt : font) (text : string) : Z :=
  match textbbox w fnt text with
  | (_, _, x1, _) => x1
  end.

(** The [for word in words] loop of [wrap_text], on the pair
    [(lines, current_line)]. *)
Fixpoint wrap_loop (w : world) (fnt : font) (max_width : Z)
    (words : list string) (lines current_line : list string)
  : list string * list string :=
  match words with
  | [] => (lines, current_line)
  | word :: rest =>
      let test_line := join " " (current_line ++ [word]) in
      if bbox_right w fnt test_line <=? max_width
      then wrap_loop w fnt max_width rest lines (current_line ++ [word])
      else
        match current_line with
        | _ :: _ =>
            wrap_loop w fnt max_width rest
              (lines ++ [join " " current_line]) [word]
        | [] =>
            wrap_loop w fnt max_width rest (lines ++ [word]) current_line
        end
  end.

Definition wrap_text (w : world) (text : string) (fnt : font)
    (max_width : Z) : list string :=
  let words := split text in
  let '(lines, current_line) := wrap_loop w fnt max_width words [] [] in
  match current_line with
  | _ :: _ => lines ++ [join " " current_line]
  | [] => lines
  end.

Definition helvetica : string := "/System/Library/Fonts/Helvetica.ttc".

(** The inner [try] of the text block: the three sizes of Helvetica, or
    the built-in font for all three. *)
Definition load_fonts (w : world) : font * font * font :=
  if ImageFont_truetype w helvetica 72
     && ImageFont_truetype w helvetica 48
     && ImageFont_truetype w helvetica 36
  then (TrueType helvetica 72, TrueType helvetica 48,
        TrueType helvetica 36)
  else (DefaultFont, DefaultFont, DefaultFont).

(** The [for line in lines] loop: draws the lines 80 pixels apart and
    returns the frame with the next [y_pos]. *)
Fixpoint draw_lines (f : frame) (x y_pos : Z) (fnt : font)
    (lines : list string) : frame * Z :=
  match lines with
  | [] => (f, y_pos)
  | line :: rest =>
      draw_lines (draw f (Text x y_pos line "white" (Some fnt) None))
        x (y_pos + 80) fnt rest
  end.

(** The outer [try] of the text block. *)
Definition draw_track_text (w : world) (f : frame) (width height : Z)
    (track_title : string) (track_number : value) (artist album : string)
  : result frame :=
  let '(title_font, info_font, small_font) := load_fonts w in
  let text_start_x := width / 2 + 50 in
  let text_width := width / 2 - 100 in
  match format_02d track_number with
  | Raise e => Raise e
  | Ok nn =>
      let track_text := nn ++ ". " ++ track_title in
      let y_pos := height / 2 - 100 in
      let lines := wrap_text w track_text title_font text_width in
      let '(f1, y_pos1) :=
        draw_lines f text_start_x y_pos title_font lines in
      let y_pos2 := y_pos1 + 40 in
      let f2 :=
        draw f1 (Text text_start_x y_pos2 artist "lightgray"
                   (Some info_font) None) in
      let y_pos3 := y_pos2 + 60 in
      Ok (draw f2 (Text text_start_x y_pos3 album "lightgray"
                     (Some small_font) None))
  end.

(** The body of the first [try] of [create_video_frame]: the artwork is
    opened, resized and pasted on [frame0]; [None] when one of the three
    calls raises, and then nothing has been drawn. *)
Definition paste_cover (w : world) (frame0 : frame) (width height : Z)
    (cover_art_path : string) : option frame :=
  match Image_open w cover_art_path with
  | None => None
  | Some cover =>
      let cover_size := Z.min (height - 100) (width / 2 - 100) in
      if resize_returns w cover
      then
        let cover' := resize cover cover_size cover_size in
        let cover_x := (width / 2 - cover_size) / 2 in
        let cover_y := (height - cover_size) / 2 in
        if paste_returns w cover'
        then Some (draw frame0 (Paste cover' cover_x cover_y))
        else None
      else None
  end.

Definition create_video_frame (w : world) (cover_art_path : string)
    (track_title : string) (track_number : value) (artist album : string)
  : frame :=
  let width := 1920 in
  let height := 1080 in
  let frame0 := Image_new width height "black" in
  let frame1 :=
    match paste_cover w frame0 width height cover_art_path with
    | Some f => f
    | None =>
        let placeholder_size :=
          Z.min (height - 100) (width / 2 - 100) in
        let placeholder_x := (width / 2 - placeholder_size) / 2 in
        let placeholder_y := (height - placeholder_size) / 2 in
        let f :=
          draw frame0
            (Rectangle placeholder_x placeholder_y
               (placeholder_x + placeholder_size)
               (placeholder_y + placeholder_size) "white" 2) in
        draw f
          (Text (placeholder_x + placeholder_size / 2)
             (placeholder_y + placeholder_size / 2)
             "No Cover Art" "white" None (Some "mm"))
    end in
  match draw_track_text w frame1 width height track_title track_number
          artist album with
  | Ok f => f
  | Raise _ => frame1      (* the error is printed *)
  end.

End Model.

Arguments stream_info : clear implicits.
Arguments flac : clear implicits.
Arguments metadata : clear implicits.
Arguments chapter : clear implicits.
Arguments world : clear implicits.

(* ================================================================= *)
(** ** Orchestration *)

Definition nl : string := String "010" "".

Inductive artifact : Type :=
| TextFile (content : string)
| PngFile (f : frame).

Section Pipeline.

Context {T : Type} {num : Seconds T}.

(** What a run has done so far: the calls received by the progress sink, the
    command lines handed to [subprocess.run], the files of the scratch
    directory, and the locals of [convert_to_mkv]. *)
Record state : Type := {
  progress : list (string * Z);
  commands : list (list string);
  scratch : list (string * artifact);
  total_duration : T;
  chapter_data : list (chapter T);
  video_segments : list string
}.

Definition initial_state : state :=
  {| progress := []; commands := []; scratch := [];
     total_duration := sec_zero; chapter_data := []; video_segments := [] |}.

(** [progress_callback(text, percent)] *)
Definition add_progress (call : string * Z) (s : state) : state :=
  {| progress := progress s ++ [call];
     commands := commands s; scratch := scratch s;
     total_duration := total_duration s; chapter_data := chapter_data s;
     video_segments := video_segments s |}.

(** Writing a file of the scratch directory replaces what the path held. *)
Definition put_file (path : string) (a : artifact) (s : state) : state :=
  {| progress := progress s; commands := commands s;
     scratch :=
       filter (fun e => negb (String.eqb (fst e) path)) (scratch s)
       ++ [(path, a)];
     total_duration := total_duration s; chapter_data := chapter_data s;
     video_segments := video_segments s |}.

Definition add_command (cmd : list string) (s : state) : state :=
  {| progress := progress s; commands := commands s ++ [cmd];
     scratch := scratch s; total_duration := total_duration s;
     chapter_data := chapter_data s;
     video_segments := video_segments s |}.

(** [video_segments.append(video_path)] *)
Definition add_segment (video_path : string) (s : state) : state :=
  {| progress := progress s; commands := commands s;
     scratch := scratch s; total_duration := total_duration s;
     chapter_data := chapter_data s;
     video_segments := video_segments s ++ [video_path] |}.

(** [chapter_data.append({'start': total_duration,
    'end': total_duration + duration, 'title': ttl})] *)
Definition add_chapter (dur : T) (ttl : string) (s : state) : state :=
  {| progress := progress s; commands := commands s;
     scratch := scratch s; total_duration := total_duration s;
     chapter_data :=
       chapter_data s
       ++ [ {| chapter_start := total_duration s;
               chapter_end := sec_add (total_duration s) dur;
               chapter_title := ttl |} ];
     video_segments := video_segments s |}.

(** [total_duration += duration] *)
Definition advance (dur : T) (s : state) : state :=
  {| progress := progress s; commands := commands s;
     scratch := scratch s;
     total_duration := sec_add (total_duration s) dur;
     chapter_data := chapter_data s;
     video_segments := video_segments s |}.

(** [shutil.rmtree(self.temp_dir)] *)
Definition remove_scratch (s : state) : state :=
  {| progress := progress s; commands := commands s;
     scratch := [];
     total_duration := total_duration s; chapter_data := chapter_data s;
     video_segments := video_segments s |}.

(** Statements: they change the state and return or raise. *)
Definition M (A : Type) : Type := state -> state * result A.

Definition ret {A : Type} (a : A) : M A := fun s => (s, Ok a).

Definition raise {A : Type} (e : exn) : M A := fun s => (s, Raise e).

Definition bind {A B : Type} (m : M A) (k : A -> M B) : M B :=
  fun s =>
    match m s with
    | (s', Ok a) => k a s'
    | (s', Raise e) => (s', Raise e)
    end.

Notation "x <- m ;; k" := (bind m (fun x => k))
  (at level 61, m at next level, right associativity).
Notation "m ;; k" := (bind m (fun _ => k))
  (at level 61, right associativity).

Definition get : M state := fun s => (s, Ok s).

Definition modify (f : state -> state) : M unit := fun s => (f s, Ok tt).

Definition lift {A : Type} (r : result A) : M A := fun s => (s, r).

(** [if progress_callback: progress_callback(text, percent)] *)
Definition report (progress_callback : bool) (text : string) (percent : Z)
  : M unit :=
  if progress_callback then modify (add_progress (text, percent))
  else ret tt.

Definition write_file (path : string) (a : artifact) : M unit :=
  modify (put_file path a).

(** [subprocess.run(cmd, check=True, capture_output=True)] *)
Definition run (w : world T) (cmd : list string) : M unit :=
  fun s =>
    match subprocess_run w cmd with
    | None => (add_command cmd s, Ok tt)
    | Some msg => (add_command cmd s, Raise (CalledProcessError msg))
    end.

(** The strings written for one chapter. *)
Definition chapter_writes (c : chapter T) : list string :=
  let start_time := sec_millis (chapter_start c) in
  let end_time := sec_millis (chapter_end c) in
  [ "[CHAPTER]" ++ nl;
    "TIMEBASE=1/1000" ++ nl;
    "START=" ++ str_of_int start_time ++ nl;
    "END=" ++ str_of_int end_time ++ nl;
    "title=" ++ chapter_title c ++ nl ].

(** All that [create_chapter_file] writes, in order. *)
Definition chapter_file_writes (chapters : list (chapter T)) : list string :=
  (";FFMETADATA1" ++ nl) :: flat_map chapter_writes chapters.

Definition chapter_file_content (chapters : list (chapter T)) : string :=
  String.concat "" (chapter_file_writes chapters).

Definition create_chapter_file (chapter_file : string)
    (chapters : list (chapter T)) : M unit :=
  write_file chapter_file (TextFile (chapter_file_content chapters)).

(** The title of a chapter entry: [f"{track_number:02d}. {title}"]. *)
Definition chapter_title_of (md : metadata T) : result string :=
  match format_02d (track_number md) with
  | Ok nn => Ok (nn ++ ". " ++ title md)
  | Raise e => Raise e
  end.

(** The command line of the encode request of one track. *)
Definition encode_cmd (frame_path flac_file : string) (dur : T)
    (video_path : string) : list string :=
  [ "ffmpeg"; "-y";
    "-loop"; "1"; "-i"; frame_path;
    "-i"; flac_file;
    "-c:v"; "libx264"; "-preset"; "medium"; "-crf"; "18";
    "-c:a"; "copy";
    "-t"; sec_str dur;
    "-pix_fmt"; "yuv420p";
    "-r"; "1";
    video_path ].

Definition frame_path_of (temp_dir : string) (i : nat) : string :=
  path_join temp_dir ("frame_" ++ format_0d 3 (Z.of_nat i) ++ ".png").

Definition video_path_of (temp_dir : string) (i : nat) : string :=
  path_join temp_dir ("video_" ++ format_0d 3 (Z.of_nat i) ++ ".mkv").

(** The status text of track [i] of [n]. *)
Definition track_status (n i : nat) : string :=
  "Processing track " ++ str_of_int (Z.of_nat i + 1) ++ "/"
  ++ str_of_int (Z.of_nat n).

(** One iteration of [for i, flac_file in enumerate(self.flac_files)], where
    [reader] is the bound method [self.get_track_metadata] and [n] is
    [len(self.flac_files)]. *)
Definition process_track (reader : string -> metadata T) (w : world T)
    (self : converter) (progress_callback : bool) (n i : nat)
    (flac_file : string) : M unit :=
  report progress_callback (track_status n i)
    (Z.of_nat i * 50 / Z.of_nat n) ;;
  let md := reader flac_file in
  let frame :=
    create_video_frame w (cover_art_path self) (title md)
      (track_number md) (artist md) (album md) in
  let frame_path := frame_path_of (mkdtemp w) i in
  write_file frame_path (PngFile frame) ;;
  let video_path := video_path_of (mkdtemp w) i in
  let dur := duration md in
  run w (encode_cmd frame_path flac_file dur video_path) ;;
  modify (add_segment video_path) ;;
  ttl <- lift (chapter_title_of md) ;;
  modify (add_chapter dur ttl) ;;
  modify (advance dur).

Fixpoint tracks_loop (reader : string -> metadata T) (w : world T)
    (self : converter) (progress_callback : bool) (n i : nat)
    (files : list string) : M unit :=
  match files with
  | [] => ret tt
  | flac_file :: rest =>
      process_track reader w self progress_callback n i flac_file ;;
      tracks_loop reader w self progress_callback n (S i) rest
  end.

(** The manifest of the segments, one line per segment. *)
Definition concat_manifest (segments : list string) : string :=
  String.concat "" (map (fun p => "file '" ++ p ++ "'" ++ nl) segments).

(** The command line of the final combine. *)
Definition combine_cmd (concat_file chapter_file out : string)
  : list string :=
  [ "ffmpeg"; "-y";
    "-f"; "concat"; "-safe"; "0"; "-i"; concat_file;
    "-i"; chapter_file;
    "-c"; "copy";
    "-map_metadata"; "1";
    out ].

(** What follows the loop in the [try] of [convert_to_mkv]. *)
Definition combine_segments (w : world T) (self : converter)
    (progress_callback : bool) : M bool :=
  report progress_callback "Combining segments..." 50 ;;
  let chapter_file := path_join (mkdtemp w) "chapters.txt" in
  s <- get ;;
  create_chapter_file chapter_file (chapter_data s) ;;
  let concat_file := path_join (mkdtemp w) "concat.txt" in
  write_file concat_file (TextFile (concat_manifest (video_segments s))) ;;
  report progress_callback "Creating final MKV..." 75 ;;
  run w (combine_cmd concat_file chapter_file (output_path self)) ;;
  report progress_callback "Complete!" 100 ;;
  ret true.

(** The body of the [try] of [convert_to_mkv]. *)
Definition convert_body (reader : string -> metadata T) (w : world T)
    (self : converter) (progress_callback : bool) : M bool :=
  tracks_loop reader w self progress_callback
    (List.length (flac_files self)) 0 (flac_files self) ;;
  combine_segments w self progress_callback.

(** What the two [except] clauses raise for an exception of the body. *)
Definition as_runtime_error (e : exn) : exn :=
  match e with
  | CalledProcessError msg => RuntimeError ("FFmpeg error: " ++ msg)
  | _ => RuntimeError ("Conversion error: " ++ exn_str e)
  end.

(** The two [except] clauses: every exception of the body leaves as a
    [RuntimeError]. *)
Definition except_clauses {A : Type} (m : M A) : M A :=
  fun s =>
    match m s with
    | (s', Ok a) => (s', Ok a)
    | (s', Raise e) => (s', Raise (as_runtime_error e))
    end.

(** The [finally] clause: the scratch directory is removed (a failure of
    the removal is ignored). *)
Definition finally_cleanup {A : Type} (m : M A) : M A :=
  fun s =>
    match m s with
    | (s', r) => (remove_scratch s', r)
    end.

(** The guard at the head of [convert_to_mkv]. *)
Definition ready (self : converter) : bool :=
  negb (Nat.eqb (List.length (flac_files self)) 0)
  && negb (Nat.eqb (String.length (cover_art_path self)) 0)
  && negb (Nat.eqb (String.length (output_path self)) 0).

(** [convert_to_mkv] for any metadata reader. *)
Definition convert_with (reader : string -> metadata T) (w : world T)
    (self : converter) (progress_callback : bool) : M bool :=
  if ready self
  then finally_cleanup
         (except_clauses (convert_body reader w self progress_callback))
  else raise (ValueError "Missing required files or output path").

Definition convert_to_mkv (w : world T) (self : converter)
    (progress_callback : bool) : M bool :=
  convert_with (get_track_metadata w) w self progress_callback.

(** A run from the start: the final state and the outcome. *)
Definition run_convert (w : world T) (self : converter)
    (progress_callback : bool) : state * result bool :=
  convert_to_mkv w self progress_callback initial_state.

(** The converter after a call of [convert_to_mkv]: past the guard, the
    path of the scratch directory has been stored in [self.temp_dir], where
    it stays when the directory is removed. *)
Definition converter_after (w : world T) (self : converter) : converter :=
  if ready self
  then {| flac_files := flac_files self;
          cover_art_path := cover_art_path self;
          output_path := output_path self;
          temp_dir := Some (mkdtemp w) |}
  else self.

Definition percents (s : state) : list Z := map snd (progress s).

End Pipeline.

Arguments state : clear implicits.
Arguments M : clear implicits.

(* ================================================================= *)
(** ** The conversion on a host *)

Section Host.

Context {T : Type} {num : Seconds T}.

(** Two calls of [convert_to_mkv] are outside what its handlers guard:
    [tempfile.mkdtemp], called before the [try], and [e.stderr.decode()],
    called inside the handler of [CalledProcessError].  A [world] describes
    the runs in which both return; a [host] says when they raise. *)
Record host : Type := {
  host_world : world T;
  (* the exception that [tempfile.mkdtemp] raises, when it raises;
     otherwise it returns [mkdtemp host_world] *)
  mkdtemp_raises : option exn;
  (* for a command that fails with an error output that is not empty and
     is not valid UTF-8: the text of the [UnicodeDecodeError] that
     [e.stderr.decode()] raises *)
  stderr_undecodable : list string -> option string
}.

(** [e.cmd] of the [CalledProcessError] that left the body of the [try]:
    the command handed last to [subprocess.run]. *)
Definition failed_command (s : state T) : list string :=
  last (commands s) [].

(** The two [except] clauses with the decoding of the error output.  An
    exception raised inside the first clause is not handled by the second
    one: it leaves [convert_to_mkv] after the [finally] clause. *)
Definition except_clauses_on (h : host) {A : Type} (m : M T A) : M T A :=
  fun s =>
    match m s with
    | (s', Ok a) => (s', Ok a)
    | (s', Raise (CalledProcessError msg)) =>
        match stderr_undecodable h (failed_command s') with
        | Some reason => (s', Raise (UnicodeDecodeError reason))
        | None => (s', Raise (RuntimeError ("FFmpeg error: " ++ msg)))
        end
    | (s', Raise e) =>
        (s', Raise (RuntimeError ("Conversion error: " ++ exn_str e)))
    end.

(** [convert_to_mkv] on a host, for any metadata reader. *)
Definition convert_on (reader : string -> metadata T) (h : host)
    (self : converter) (progress_callback : bool) : M T bool :=
  if ready self
  then
    match mkdtemp_raises h with
    | Some e => raise e
    | None =>
        finally_cleanup
          (except_clauses_on h
             (convert_body reader (host_world h) self progress_callback))
    end
  else raise (ValueError "Missing required files or output path").

End Host.

Arguments host : clear implicits.

(* ================================================================= *)
(** ** Predicates of the specification *)

(** No character of [s] is whitespace. *)
Fixpoint no_space (s : string) : bool :=
  match s with
  | EmptyString => true
  | String c s' => negb (isspace c) && no_space s'
  end.

(** A word: not empty, no whitespace. *)
Definition is_word (s : string) : bool :=
  negb (String.length s =? 0)%nat && no_space s.

(** The words of a list of lines, in order. *)
Definition words_of (lines : list string) : list string :=
  flat_map split lines.

(** A line of [wrap_text] is acceptable when its rendered width is within the
    column, or when it is one word that alone is wider than the column. *)
Definition line_ok {T : Type} (w : world T) (fnt : font) (max_width : Z)
    (line : string) : Prop :=
  bbox_right w fnt line <= max_width
  \/ (split line = [line] /\ max_width < bbox_right w fnt line).

(** The pending line of the wrap loop is empty, fits, or is a single
    word. *)
Definition pending_ok {T : Type} (w : world T) (fnt : font) (max_width : Z)
    (current_line : list string) : Prop :=
  current_line = []
  \/ bbox_right w fnt (join " " current_line) <= max_width
  \/ exists word, current_line = [word].

(** The number of lines that [wrap_text] returns from a state of the
    loop. *)
Definition line_count (r : list string * list string) : nat :=
  match snd r with
  | [] => List.length (fst r)
  | _ :: _ => S (List.length (fst r))
  end.

(** The artwork as it is pasted: the picture at [cover_art_path] resized
    to 860 by 860, when [Image.open], [resize] and [paste] all return;
    [None] when one of them raises. *)
Definition loaded_cover {T : Type} (w : world T) (cover_art_path : string)
  : option image :=
  match Image_open w cover_art_path with
  | Some cover =>
      if resize_returns w cover && paste_returns w (resize cover 860 860)
      then Some (resize cover 860 860)
      else None
  | None => None
  end.

(** The frame before the text block, with the constants evaluated. *)
Definition artwork_frame {T : Type} (w : world T) (cover_art_path : string)
  : frame :=
  match loaded_cover w cover_art_path with
  | Some cover =>
      draw (Image_new 1920 1080 "black") (Paste cover 50 110)
  | None =>
      draw
        (draw (Image_new 1920 1080 "black")
           (Rectangle 50 110 910 970 "white" 2))
        (Text 480 540 "No Cover Art" "white" None (Some "mm"))
  end.

(** The effect of one iteration of the track loop, written out. *)
Definition track_outcome {T : Type} {num : Seconds T}
    (reader : string -> metadata T) (w : world T) (self : converter)
    (progress_callback : bool) (n i : nat) (flac_file : string)
    (s : state T) : state T * result unit :=
  let md := reader flac_file in
  let frame_path := frame_path_of (mkdtemp w) i in
  let video_path := video_path_of (mkdtemp w) i in
  let cmd := encode_cmd frame_path flac_file (duration md) video_path in
  let frame :=
    create_video_frame w (cover_art_path self) (title md)
      (track_number md) (artist md) (album md) in
  let s1 :=
    if progress_callback
    then add_progress (track_status n i, Z.of_nat i * 50 / Z.of_nat n) s
    else s in
  let s2 := add_command cmd (put_file frame_path (PngFile frame) s1) in
  match subprocess_run w cmd with
  | Some msg => (s2, Raise (CalledProcessError msg))
  | None =>
      match chapter_title_of md with
      | Raise e => (add_segment video_path s2, Raise e)
      | Ok ttl =>
          (advance (duration md)
             (add_chapter (duration md) ttl (add_segment video_path s2)),
           Ok tt)
      end
  end.

(** The effect of the part of [convert_to_mkv] that follows the loop,
    written out. *)
Definition combine_outcome {T : Type} {num : Seconds T} (w : world T)
    (self : converter) (progress_callback : bool) (s : state T)
  : state T * result bool :=
  let chapter_file := path_join (mkdtemp w) "chapters.txt" in
  let concat_file := path_join (mkdtemp w) "concat.txt" in
  let cmd := combine_cmd concat_file chapter_file (output_path self) in
  let s1 :=
    if progress_callback
    then add_progress ("Combining segments...", 50) s else s in
  let s2 :=
    put_file concat_file (TextFile (concat_manifest (video_segments s1)))
      (put_file chapter_file
         (TextFile (chapter_file_content (chapter_data s1))) s1) in
  let s3 :=
    if progress_callback
    then add_progress ("Creating final MKV...", 75) s2 else s2 in
  match subprocess_run w cmd with
  | Some msg => (add_command cmd s3, Raise (CalledProcessError msg))
  | None =>
      (if progress_callback
       then add_progress ("Complete!", 100) (add_command cmd s3)
       else add_command cmd s3, Ok true)
  end.

(** Two states that differ at most in the files of the scratch
    directory. *)
Definition same_but_scratch {T : Type} (s s' : state T) : Prop :=
  progress s = progress s' /\ commands s = commands s'
  /\ total_duration s = total_duration s'
  /\ chapter_data s = chapter_data s'
  /\ video_segments s = video_segments s'.

(** No character of [s] is a line feed. *)
Fixpoint no_newline (s : string) : bool :=
  match s with
  | EmptyString => true
  | String c s' => negb (Ascii.eqb c "010") && no_newline s'
  end.

(** The lines of a text: each line feed ends a line; what follows the last
    line feed is a line when it is not empty. *)
Fixpoint lines_from (cur s : string) : list string :=
  match s with
  | EmptyString => if (String.length cur =? 0)%nat then [] else [cur]
  | String c s' =>
      if Ascii.eqb c "010" then cur :: lines_from "" s'
      else lines_from (snoc cur c) s'
  end.

Definition lines_of (s : string) : list string := lines_from "" s.

(** The five lines of the block of one chapter. *)
Definition chapter_lines {T : Type} {num : Seconds T} (c : chapter T)
  : list string :=
  [ "[CHAPTER]";
    "TIMEBASE=1/1000";
    "START=" ++ str_of_int (sec_millis (chapter_start c));
    "END=" ++ str_of_int (sec_millis (chapter_end c));
    "title=" ++ chapter_title c ].

(** The title of the chapter of a track, when it can be formatted. *)
Definition title_or_empty {T : Type} {num : Seconds T} (md : metadata T)
  : string :=
  match chapter_title_of md with
  | Ok ttl => ttl
  | Raise _ => ""
  end.

(** The chapters of a list of tracks laid end to end from the time [t]. *)
Fixpoint chapters_from {T : Type} {num : Seconds T} (t : T)
    (mds : list (metadata T)) : list (chapter T) :=
  match mds with
  | [] => []
  | md :: rest =>
      {| chapter_start := t;
         chapter_end := sec_add t (duration md);
         chapter_title := title_or_empty md |}
      :: chapters_from (sec_add t (duration md)) rest
  end.

(** The cumulative duration of the first [k] tracks. *)
Definition cumulative {T : Type} {num : Seconds T}
    (mds : list (metadata T)) (k : nat) : T :=
  fold_left sec_add (map duration (firstn k mds)) sec_zero.

(** The percentage reported for track [i] of [n]. *)
Definition track_percent (n i : nat) : Z := Z.of_nat i * 50 / Z.of_nat n.

(** The calls that the progress sink receives for the tracks [i], ...,
    [i + k - 1] of [n]. *)
Definition track_reports (n i k : nat) : list (string * Z) :=
  map (fun j => (track_status n j, track_percent n j)) (seq i k).

(** The images pasted on a frame, with their positions. *)
Fixpoint pastes_of (ops : list draw_op) : list (image * Z * Z) :=
  match ops with
  | [] => []
  | Paste img x y :: rest => (img, x, y) :: pastes_of rest
  | _ :: rest => pastes_of rest
  end.

Definition pastes (f : frame) : list (image * Z * Z) :=
  pastes_of (frame_ops f).

(** The file that the scratch directory holds at [path]. *)
Fixpoint file_at (path : string) (files : list (string * artifact))
  : option artifact :=
  match files with
  | [] => None
  | (p, a) :: rest =>
      if String.eqb p path then Some a else file_at path rest
  end.

(** The same world with other outcomes of the three calls that load the
    artwork. *)
Definition with_artwork {T : Type} (w : world T)
    (opener : string -> option image) (resizes pastes_ok : image -> bool)
  : world T :=
  {| FLAC := FLAC w;
     Image_open := opener;
     resize_returns := resizes;
     paste_returns := pastes_ok;
     ImageFont_truetype := ImageFont_truetype w;
     textbbox := textbbox w;
     subprocess_run := subprocess_run w;
     mkdtemp := mkdtemp w |}.

(** The number that a string of digits denotes, leading zeros included. *)
Definition digits_value (s : string) : option Z :=
  option_map Z.of_uint (NilEmpty.uint_of_string s).

(* ================================================================= *)
(** ** A concrete world, for examples *)

Module Demo.

(** Three tagged tracks of 180, 200 and 150 seconds; any other path is
    unreadable. *)
Definition track (t tn : string) (len : Z) : flac Z :=
  {| flac_tags := [("TITLE", t); ("ARTIST", "Pink Floyd");
                   ("ALBUM", "Meddle"); ("TRACKNUMBER", tn)];
     flac_info := {| info_sample_rate := 96000; info_bits_per_sample := 24;
                     info_channels := 2; info_length := len |} |}.

Definition library (path : string) : option (flac Z) :=
  if String.eqb path "/music/01.flac" then Some (track "One of These Days" "1" 180)
  else if String.eqb path "/music/02.flac" then Some (track "A Pillow of Winds" "2" 200)
  else if String.eqb path "/music/03.flac" then Some (track "Fearless" "3" 150)
  else None.

(** Two pictures can be opened; the second one is cut short, so that its
    pixels cannot be decoded. *)
Definition pictures (path : string) : option image :=
  if String.eqb path "/music/cover.jpg"
  then Some {| image_name := path; image_width := 200; image_height := 100 |}
  else if String.eqb path "/music/truncated.jpg"
  then Some {| image_name := path; image_width := 500; image_height := 500 |}
  else None.

Definition decodes (img : image) : bool :=
  negb (String.eqb (image_name img) "/music/truncated.jpg").

(** Every glyph is ten pixels wide; the transcoder always exits with 0. *)
Definition world0 : world Z :=
  {| FLAC := library;
     Image_open := pictures;
     resize_returns := decodes;
     paste_returns := fun _ => true;
     ImageFont_truetype := fun _ _ => true;
     textbbox := fun _ s => (0, 0, 10 * Z.of_nat (String.length s), 10);
     subprocess_run := fun _ => None;
     mkdtemp := "/tmp/flac_to_mkv_x" |}.

Definition job (files : list string) : converter :=
  {| flac_files := files; cover_art_path := "/music/cover.jpg";
     output_path := "/out/album.mkv"; temp_dir := None |}.

(** A reader that returns the track number as an integer. *)
Definition int_reader (path : string) : metadata Z :=
  {| title := stem path; artist := "a"; album := "b";
     track_number := Int (Z.of_nat (String.length path));
     duration := 10 * Z.of_nat (String.length path);
     sample_rate := 44100; bits_per_sample := 16; channels := 2 |}.

(** A file that carries an ARTIST tag only, with two values. *)
Definition artist_only : flac Z :=
  {| flac_tags := [("artist", "Can"); ("Artist", "Others")];
     flac_info := {| info_sample_rate := 48000; info_bits_per_sample := 24;
                     info_channels := 2; info_length := 200 |} |}.

(** The world in which every path is such a file. *)
Definition world_artist_only : world Z :=
  {| FLAC := fun _ => Some artist_only;
     Image_open := pictures;
     resize_returns := decodes;
     paste_returns := fun _ => true;
     ImageFont_truetype := fun _ _ => false;
     textbbox := fun _ s => (0, 0, 10 * Z.of_nat (String.length s), 10);
     subprocess_run := fun _ => None;
     mkdtemp := "/tmp/flac_to_mkv_x" |}.

(** The three tracks with durations that are floats, as mutagen gives
    them. *)
Definition track_f (t tn : string) (len : Z) : flac number :=
  {| flac_tags := [("TITLE", t); ("ARTIST", "Pink Floyd");
                   ("ALBUM", "Meddle"); ("TRACKNUMBER", tn)];
     flac_info := {| info_sample_rate := 96000; info_bits_per_sample := 24;
                     info_channels := 2; info_length := FloatNum len |} |}.

Definition library_f (path : string) : option (flac number) :=
  if String.eqb path "/music/01.flac"
  then Some (track_f "One of These Days" "1" 180)
  else if String.eqb path "/music/02.flac"
  then Some (track_f "A Pillow of Winds" "2" 200)
  else if String.eqb path "/music/03.flac"
  then Some (track_f "Fearless" "3" 150)
  else None.

Definition world_f : world number :=
  {| FLAC := library_f;
     Image_open := pictures;
     resize_returns := decodes;
     paste_returns := fun _ => true;
     ImageFont_truetype := fun _ _ => true;
     textbbox := fun _ s => (0, 0, 10 * Z.of_nat (String.length s), 10);
     subprocess_run := fun _ => None;
     mkdtemp := "/tmp/flac_to_mkv_x" |}.

(** The reader of the source, with a track number made of digits
    converted to the integer that it denotes. *)
Definition int_reader_f (path : string) : metadata number :=
  let md := get_track_metadata world_f path in
  {| title := title md; artist := artist md; album := album md;
     track_number :=
       match track_number md with
       | Str s =>
           match digits_value s with
           | Some z => Int z
           | None => Str s
           end
       | v => v
       end;
     duration := duration md;
     sample_rate := sample_rate md;
     bits_per_sample := bits_per_sample md; channels := channels md |}.

(** The same world with a transcoder that always fails. *)
Definition world_failing : world Z :=
  {| FLAC := library;
     Image_open := pictures;
     resize_returns := decodes;
     paste_returns := fun _ => true;
     ImageFont_truetype := fun _ _ => true;
     textbbox := fun _ s => (0, 0, 10 * Z.of_nat (String.length s), 10);
     subprocess_run := fun _ => Some "No such filter";
     mkdtemp := "/tmp/flac_to_mkv_x" |}.

(** A host on which the transcoder always fails, with an error output
    that is not valid UTF-8. *)
Definition host_failing : host number :=
  {| host_world :=
       {| FLAC := library_f;
          Image_open := pictures;
          resize_returns := decodes;
          paste_returns := fun _ => true;
          ImageFont_truetype := fun _ _ => true;
          textbbox :=
            fun _ s => (0, 0, 10 * Z.of_nat (String.length s), 10);
          subprocess_run := fun _ => Some "No such filter";
          mkdtemp := "/tmp/flac_to_mkv_x" |};
     mkdtemp_raises := None;
     stderr_undecodable :=
       fun _ =>
         Some "'utf-8' codec can't decode byte 0xff in position 0: invalid start byte" |}.

End Demo.

(* ================================================================= *)
(** ** Selecting the inputs *)

(** [sorted(files)] on strings: Python orders strings by code points, as
    [String.leb] does.  The order is total and antisymmetric, so the sorted
    list is unique and an insertion sort computes it. *)
Fixpoint insert_sorted (x : string) (l : list string) : list string :=
  match l with
  | [] => [x]
  | y :: rest =>
      if String.leb x y then x :: l else y :: insert_sorted x rest
  end.

Fixpoint sorted (l : list string) : list string :=
  match l with
  | [] => []
  | x :: rest => insert_sorted x (sorted rest)
  end.

(** [FlacToMkvConverter.__init__] *)
Definition new_converter : converter :=
  {| flac_files := []; cover_art_path := ""; output_path := "";
     temp_dir := None |}.

(** [FlacToMkvConverter.select_flac_files], where [files] is what
    [filedialog.askopenfilenames] returned (empty when the dialog is
    cancelled). *)
Definition select_flac_files (self : converter) (files : list string)
  : converter * bool :=
  match files with
  | [] => (self, false)
  | _ :: _ =>
      ({| flac_files := sorted files;
          cover_art_path := cover_art_path self;
          output_path := output_path self;
          temp_dir := temp_dir self |}, true)
  end.

(** [FlacToMkvConverter.select_cover_art], where [file] is what
    [filedialog.askopenfilename] returned. *)
Definition select_cover_art (self : converter) (file : string)
  : converter * bool :=
  match file with
  | EmptyString => (self, false)
  | String _ _ =>
      ({| flac_files := flac_files self;
          cover_art_path := file;
          output_path := output_path self;
          temp_dir := temp_dir self |}, true)
  end.

(** [FlacToMkvConverter.select_output_path], where [file] is what
    [filedialog.asksaveasfilename] returned. *)
Definition select_output_path (self : converter) (file : string)
  : converter * bool :=
  match file with
  | EmptyString => (self, false)
  | String _ _ =>
      ({| flac_files := flac_files self;
          cover_art_path := cover_art_path self;
          output_path := file;
          temp_dir := temp_dir self |}, true)
  end.

(* ================================================================= *)
(** ** The window *)

Record label : Type := {
  label_text : string;
  label_foreground : string
}.

Inductive message_box : Type :=
| ShowInfo (title message : string)
| ShowError (title message : string).

(** The state of a [ConverterGUI]: its converter, the widgets that the
    handlers configure, and the message boxes shown so far. *)
Record window : Type := {
  gui_converter : converter;
  flac_label : label;
  cover_label : label;
  output_label : label;
  convert_btn : string;          (* the state option of the button *)
  progress_value : Z;            (* [self.progress['value']] *)
  status_label : string;
  message_boxes : list message_box
}.

Module ConverterGUI.

(** [__init__] and [setup_gui] *)
Definition setup_gui : window :=
  {| gui_converter := new_converter;
     flac_label :=
       {| label_text := "No files selected"; label_foreground := "gray" |};
     cover_label :=
       {| label_text := "No cover art selected";
          label_foreground := "gray" |};
     output_label :=
       {| label_text := "No output path selected";
          label_foreground := "gray" |};
     convert_btn := "disabled";
     progress_value := 0;
     status_label := "Ready";
     message_boxes := [] |}.

Definition check_ready (g : window) : window :=
  if ready (gui_converter g)
  then {| gui_converter := gui_converter g;
          flac_label := flac_label g; cover_label := cover_label g;
          output_label := output_label g;
          convert_btn := "normal";
          progress_value := progress_value g;
          status_label := status_label g;
          message_boxes := message_boxes g |}
  else g.

Definition select_flac_files (g : window) (files : list string) : window :=
  match select_flac_files (gui_converter g) files with
  | (c, true) =>
      let count := List.length (flac_files c) in
      check_ready
        {| gui_converter := c;
           flac_label :=
             {| label_text :=
                  str_of_int (Z.of_nat count) ++ " files selected";
                label_foreground := "black" |};
           cover_label := cover_label g;
           output_label := output_label g;
           convert_btn := convert_btn g;
           progress_value := progress_value g;
           status_label := status_label g;
           message_boxes := message_boxes g |}
  | (_, false) => g
  end.

Definition select_cover_art (g : window) (file : string) : window :=
  match select_cover_art (gui_converter g) file with
  | (c, true) =>
      let filename := basename (cover_art_path c) in
      check_ready
        {| gui_converter := c;
           flac_label := flac_label g;
           cover_label :=
             {| label_text := filename; label_foreground := "black" |};
           output_label := output_label g;
           convert_btn := convert_btn g;
           progress_value := progress_value g;
           status_label := status_label g;
           message_boxes := message_boxes g |}
  | (_, false) => g
  end.

Definition select_output_path (g : window) (file : string) : window :=
  match select_output_path (gui_converter g) file with
  | (c, true) =>
      let filename := basename (output_path c) in
      check_ready
        {| gui_converter := c;
           flac_label := flac_label g;
           cover_label := cover_label g;
           output_label :=
             {| label_text := filename; label_foreground := "black" |};
           convert_btn := convert_btn g;
           progress_value := progress_value g;
           status_label := status_label g;
           message_boxes := message_boxes g |}
  | (_, false) => g
  end.

Definition update_progress (status : string) (percent : Z) (g : window)
  : window :=
  {| gui_converter := gui_converter g;
     flac_label := flac_label g; cover_label := cover_label g;
     output_label := output_label g;
     convert_btn := convert_btn g;
     progress_value := percent;
     status_label := status;
     message_boxes := message_boxes g |}.

Definition messagebox (m : message_box) (g : window) : window :=
  {| gui_converter := gui_converter g;
     flac_label := flac_label g; cover_label := cover_label g;
     output_label := output_label g;
     convert_btn := convert_btn g;
     progress_value := progress_value g;
     status_label := status_label g;
     message_boxes := message_boxes g ++ [m] |}.

(** [start_conversion]: the converter runs with [self.update_progress] as
    its progress sink. *)
Definition start_conversion {T : Type} {num : Seconds T} (w : world T)
    (g : window) : window :=
  let g1 :=
    {| gui_converter := gui_converter g;
       flac_label := flac_label g; cover_label := cover_label g;
       output_label := output_label g;
       convert_btn := "disabled";
       progress_value := 0;
       status_label := status_label g;
       message_boxes := message_boxes g |} in
  let '(s, r) := run_convert w (gui_converter g1) true in
  let g2 :=
    fold_left (fun h call => update_progress (fst call) (snd call) h)
      (progress s)
      {| gui_converter := converter_after w (gui_converter g1);
         flac_label := flac_label g1; cover_label := cover_label g1;
         output_label := output_label g1;
         convert_btn := convert_btn g1;
         progress_value := progress_value g1;
         status_label := status_label g1;
         message_boxes := message_boxes g1 |} in
  let g3 :=
    match r with
    | Ok _ =>
        messagebox (ShowInfo "Success" "MKV file created successfully!") g2
    | Raise e =>
        messagebox (ShowError "Error" ("Conversion failed: " ++ exn_str e))
          g2
    end in
  {| gui_converter := gui_converter g3;
     flac_label := flac_label g3; cover_label := cover_label g3;
     output_label := output_label g3;
     convert_btn := "normal";
     progress_value := 0;
     status_label := "Ready";
     message_boxes := message_boxes g3 |}.

(** What the user can do with the window; a button that is disabled does
    not call its command. *)
Inductive event : Type :=
| PressSelectFlacFiles (answer : list string)
| PressSelectCoverArt (answer : string)
| PressSelectOutputPath (answer : string)
| PressConvert.

Definition handle {T : Type} {num : Seconds T} (w : world T) (g : window)
    (e : event) : window :=
  match e with
  | PressSelectFlacFiles answer => select_flac_files g answer
  | PressSelectCoverArt answer => select_cover_art g answer
  | PressSelectOutputPath answer => select_output_path g answer
  | PressConvert =>
      if String.eqb (convert_btn g) "normal" then start_conversion w g
      else g
  end.

(** The window after a sequence of events, from its creation. *)
Definition session {T : Type} {num : Seconds T} (w : world T)
    (events : list event) : window :=
  fold_left (handle w) events setup_gui.

End ConverterGUI.

(* ================================================================= *)
(** ** Start-up *)

(** What the three checks of [check_dependencies] meet: the outcome of
    [subprocess.run(['ffmpeg', '-version'], capture_output=True,
    check=True)], of [import PIL] and of [import mutagen]. *)
Record installation : Type := {
  ffmpeg_version : result unit;
  import_PIL : result unit;
  import_mutagen : result unit
}.

(** [except (subprocess.CalledProcessError, FileNotFoundError)] *)
Definition process_failure (e : exn) : bool :=
  match e with
  | CalledProcessError _ | FileNotFoundError _ => true
  | _ => false
  end.

(** [except ImportError] *)
Definition import_failure (e : exn) : bool :=
  match e with
  | ImportError _ => true
  | _ => false
  end.

(** [try: body except caught: missing.append(name)]: an exception that the
    clause does not catch leaves the function. *)
Definition check (body : result unit) (caught : exn -> bool)
    (name : string) (missing : list string) : result (list string) :=
  match body with
  | Ok _ => Ok missing
  | Raise e => if caught e then Ok (missing ++ [name])%list else Raise e
  end.

Definition check_dependencies (sys : installation) : result (list string) :=
  let missing : list string := [] in
  match check (ffmpeg_version sys) process_failure "FFmpeg" missing with
  | Raise e => Raise e
  | Ok missing =>
      match check (import_PIL sys) import_failure
              "Pillow (pip install Pillow)" missing with
      | Raise e => Raise e
      | Ok missing =>
          check (import_mutagen sys) import_failure
            "mutagen (pip install mutagen)" missing
      end
  end.

(** [s * n] *)
Fixpoint str_repeat (s : string) (n : nat) : string :=
  match n with
  | O => ""
  | S k => s ++ str_repeat s k
  end.

(** What a call of [main] did: the arguments of its [print] calls, whether
    it created the window, and the value it returned or the exception that
    left it. *)
Record main_outcome : Type := {
  printed : list string;
  gui_started : bool;
  returned : result Z
}.

(** [main], where [argv] is [sys.argv] and [gui_error] is the text of the
    exception, if any, that [ConverterGUI()] or [app.run()] raises. *)
Definition main (sys : installation) (argv : list string)
    (gui_error : option string) : main_outcome :=
  let out := ["FLAC to MKV Converter"; str_repeat "=" 30] in
  match check_dependencies sys with
  | Raise e =>
      {| printed := out; gui_started := false; returned := Raise e |}
  | Ok (_ :: _ as missing) =>
      {| printed :=
           (out ++ ["Missing dependencies:"]
            ++ map (fun dep => "  - " ++ dep)%string missing
            ++ [(nl ++ "Please install missing dependencies and try again.")
                  %string])%list;
         gui_started := false;
         returned := Ok 1 |}
  | Ok [] =>
      if (List.length argv =? 1)%nat
      then
        match gui_error with
        | Some e =>
            {| printed :=
                 (out ++ [("GUI Error: " ++ e)%string;
                          "Try running in command line mode with arguments."])
                   %list;
               gui_started := true;
               returned := Ok 1 |}
        | None =>
            {| printed := out; gui_started := true; returned := Ok 0 |}
        end
      else
        {| printed :=
             (out ++ ["Command line mode not yet implemented. Please run without arguments for GUI."])
               %list;
           gui_started := false;
           returned := Ok 1 |}
  end.

(* ================================================================= *)
(** ** Predicates of the further properties *)

(** The invariant of the window: an enabled button comes with a converter
    that passes the guard, and every message box shown is the error box of a
    conversion whose text is not that of the guard. *)
Definition window_ok (g : window) : Prop :=
  (convert_btn g = "normal" -> ready (gui_converter g) = true)
  /\ forall m,
       In m (message_boxes g) ->
       exists text,
         m = ShowError "Error" ("Conversion failed: " ++ text)
         /\ text <> "Missing required files or output path".

(** The encode requests of the tracks [files], numbered from [i], in the
    order of the tracks. *)
Fixpoint encode_requests {T : Type} {num : Seconds T}
    (reader : string -> metadata T) (w : world T) (i : nat)
    (files : list string) : list (list string) :=
  match files with
  | [] => []
  | f :: rest =>
      encode_cmd (frame_path_of (mkdtemp w) i) f (duration (reader f))
        (video_path_of (mkdtemp w) i)
      :: encode_requests reader w (S i) rest
  end.

(** All the commands of a run that reaches its end: one encode request per
    track, then the combine. *)
Definition all_commands {T : Type} {num : Seconds T}
    (reader : string -> metadata T) (w : world T) (self : converter)
  : list (list string) :=
  (encode_requests reader w 0 (flac_files self)
   ++ [combine_cmd (path_join (mkdtemp w) "concat.txt")
         (path_join (mkdtemp w) "chapters.txt") (output_path self)])%list.

(** All the percentages of a run of [n] tracks that reaches its end. *)
Definition all_percents (n : nat) : list Z :=
  (map (track_percent n) (seq 0 n) ++ [50; 75; 100])%list.

(** Two lines that follow each other: the first is wider than the column
    by itself, or it would be with the first word of the second. *)
Definition break_needed {T : Type} (w : world T) (fnt : font)
    (max_width : Z) (a b : string) : Prop :=
  max_width < bbox_right w fnt a
  \/ max_width < bbox_right w fnt (a ++ " " ++ hd "" (split b)).

Fixpoint breaks_needed {T : Type} (w : world T) (fnt : font)
    (max_width : Z) (lines : list string) : Prop :=
  match lines with
  | a :: (b :: _) as rest =>
      break_needed w fnt max_width a b
      /\ breaks_needed w fnt max_width rest
  | _ => True
  end.

(** What the wrap loop keeps: the breaks made so far were needed, and the
    last line flushed is wider than the column or would be with the first
    word of the pending line. *)
Definition greedy_state {T : Type} (w : world T) (fnt : font)
    (max_width : Z) (lines current_line : list string) : Prop :=
  breaks_needed w fnt max_width lines
  /\ forall pre a,
       lines = (pre ++ [a])%list ->
       match current_line with
       | [] => max_width < bbox_right w fnt a
       | word :: _ =>
           max_width < bbox_right w fnt a
           \/ max_width < bbox_right w fnt (a ++ " " ++ word)
       end.

(** The title lines as [draw_lines] draws them: at [x], 80 pixels apart from
    [y] down. *)
Fixpoint line_ops (x y : Z) (fnt : font) (lines : list string)
  : list draw_op :=
  match lines with
  | [] => []
  | line :: rest =>
      Text x y line "white" (Some fnt) None :: line_ops x (y + 80) fnt rest
  end.

(** What [audio.get(key, [default])[0]] is: the value of the first comment
    of the file whose key is [key], letter case apart, or [default] when no
    comment has this key. *)
Definition first_comment (tags : list (string * string))
    (key default v : string) : Prop :=
  ((forall k x, In (k, x) tags -> lower k <> lower key) /\ v = default)
  \/ exists pre k post,
       tags = (pre ++ (k, v) :: post)%list
       /\ lower k = lower key
       /\ forall k' x, In (k', x) pre -> lower k' <> lower key.

(** Whether the character [c] occurs in [s]. *)
Fixpoint occurs (c : ascii) (s : string) : bool :=
  match s with
  | EmptyString => false
  | String a s' => Ascii.eqb a c || occurs c s'
  end.

(** What identifies a chapter in the chapter file. *)
Definition chapter_key {T : Type} {num : Seconds T} (c : chapter T)
  : Z * Z * string :=
  (sec_millis (chapter_start c), sec_millis (chapter_end c),
   chapter_title c).

(* ================================================================= *)
(** * Properties *)

(** ** Splitting and joining *)

Lemma append_nil_r (s : string) : s ++ "" = s.
Proof. induction s; simpl; congruence. Qed.

Lemma append_assoc (a b c : string) : (a ++ b) ++ c = a ++ b ++ c.
Proof. induction a; simpl; congruence. Qed.

Lemma length_append (a b : string) :
  String.length (a ++ b) = (String.length a + String.length b)%nat.
Proof. induction a; simpl; congruence. Qed.

Lemma length_0_empty (s : string) :
  (String.length s =? 0)%nat = true -> s = "".
Proof. destruct s; simpl; [reflexivity | discriminate]. Qed.

Lemma no_space_append (a b : string) :
  no_space (a ++ b) = no_space a && no_space b.
Proof.
  induction a as [|c a IH]; simpl; [reflexivity|].
  rewrite IH. now rewrite andb_assoc.
Qed.

Lemma is_word_nonempty (s : string) : is_word s = true -> s <> "".
Proof. destruct s; [discriminate | discriminate]. Qed.

Lemma is_word_no_space (s : string) : is_word s = true -> no_space s = true.
Proof. unfold is_word. intros H. apply andb_prop in H. tauto. Qed.

Lemma is_word_length (s : string) :
  is_word s = true -> (String.length s =? 0)%nat = false.
Proof.
  unfold is_word. intros H. apply andb_prop in H.
  destruct H as [H _]. now apply negb_true_iff in H.
Qed.

(** Reading a stretch without whitespace only extends the current word. *)
Lemma split_from_no_space (u cur rest : string) :
  no_space u = true ->
  split_from cur (u ++ rest) = split_from (cur ++ u) rest.
Proof.
  revert cur. induction u as [|c u IH]; intros cur Hu; simpl.
  - now rewrite append_nil_r.
  - simpl in Hu. apply andb_prop in Hu. destruct Hu as [Hc Hu].
    apply negb_true_iff in Hc. rewrite Hc.
    rewrite (IH _ Hu). unfold snoc. now rewrite append_assoc.
Qed.

Lemma split_from_words (s cur : string) :
  no_space cur = true -> Forall (fun x => is_word x = true) (split_from cur s).
Proof.
  revert cur. induction s as [|c s IH]; intros cur Hcur; simpl.
  - destruct (String.length cur =? 0)%nat eqn:E; constructor; [|constructor].
    unfold is_word. now rewrite E, Hcur.
  - destruct (isspace c) eqn:Ec.
    + destruct (String.length cur =? 0)%nat eqn:E.
      * now apply IH.
      * constructor; [|now apply IH].
        unfold is_word. now rewrite E, Hcur.
    + apply IH. unfold snoc. rewrite no_space_append, Hcur. simpl.
      now rewrite Ec.
Qed.

Lemma split_words (text : string) :
  Forall (fun x => is_word x = true) (split text).
Proof. now apply split_from_words. Qed.

Lemma split_word (x : string) : is_word x = true -> split x = [x].
Proof.
  intros H. unfold split.
  rewrite <- (append_nil_r x) at 1.
  rewrite split_from_no_space by now apply is_word_no_space.
  simpl. now rewrite (is_word_length _ H).
Qed.

Lemma join_cons (x y : string) (l : list string) :
  join " " (x :: y :: l) = x ++ " " ++ join " " (y :: l).
Proof. reflexivity. Qed.

(** [" ".join(ws).split() == ws] for a list of words. *)
Lemma split_join (ws : list string) :
  Forall (fun x => is_word x = true) ws -> split (join " " ws) = ws.
Proof.
  induction ws as [|x ws IH]; intros H; [reflexivity|].
  inversion H as [|? ? Hx Hws]; subst.
  destruct ws as [|y ws].
  - now apply split_word.
  - rewrite join_cons. unfold split.
    rewrite split_from_no_space by now apply is_word_no_space.
    simpl. rewrite (is_word_length _ Hx).
    f_equal. now apply IH.
Qed.

Lemma join_nonempty (x : string) (l : list string) :
  is_word x = true -> join " " (x :: l) <> "".
Proof.
  intros H. destruct l as [|y l].
  - now apply is_word_nonempty.
  - rewrite join_cons. destruct x; [discriminate | discriminate].
Qed.

(** ** Word wrap *)

Section WrapText.

Context {T : Type} (w : world T) (fnt : font) (max_width : Z).

Local Open Scope list_scope.

Abbreviation loop := (wrap_loop w fnt max_width).
Abbreviation word_list := (Forall (fun x : string => is_word x = true)).

Lemma words_of_app (a b : list string) :
  words_of (a ++ b) = (words_of a ++ words_of b)%list.
Proof. unfold words_of. now rewrite flat_map_app. Qed.

Lemma words_of_join (ws : list string) :
  word_list ws -> words_of [join " " ws] = ws.
Proof.
  intros H. unfold words_of. simpl. rewrite app_nil_r. now apply split_join.
Qed.

(** The loop neither drops nor reorders words: the words of the lines
    followed by the pending line are the words seen so far. *)
Lemma wrap_loop_words (words : list string) :
  forall lines current_line,
    word_list words -> word_list current_line ->
    (words_of (fst (loop words lines current_line))
       ++ snd (loop words lines current_line))%list
    = (words_of lines ++ current_line ++ words)%list
    /\ word_list (snd (loop words lines current_line)).
Proof.
  induction words as [|word rest IH]; intros lines cur Hw Hc; simpl.
  - now rewrite app_nil_r.
  - inversion Hw as [|? ? Hword Hrest]; subst.
    destruct (bbox_right w fnt (join " " (cur ++ [word])) <=? max_width).
    + destruct (IH lines (cur ++ [word]) Hrest) as [E F].
      { apply Forall_app. split; [assumption | now constructor]. }
      split; [|assumption]. rewrite E. now rewrite <- app_assoc.
    + destruct cur as [|c cur].
      * destruct (IH (lines ++ [word]) [] Hrest Hc) as [E F].
        split; [|assumption]. rewrite E, words_of_app.
        unfold words_of at 2. simpl.
        rewrite (split_word _ Hword). simpl. now rewrite <- app_assoc.
      * destruct (IH (lines ++ [join " " (c :: cur)]) [word] Hrest) as [E F].
        { now constructor. }
        split; [|assumption]. rewrite E, words_of_app.
        rewrite (words_of_join _ Hc). now rewrite <- !app_assoc.
Qed.

Lemma wrap_loop_nonempty (words : list string) :
  forall lines current_line,
    word_list words -> word_list current_line ->
    Forall (fun l => l <> "") lines ->
    Forall (fun l => l <> "") (fst (loop words lines current_line)).
Proof.
  induction words as [|word rest IH]; intros lines cur Hw Hc Hl; simpl.
  - assumption.
  - inversion Hw as [|? ? Hword Hrest]; subst.
    destruct (bbox_right w fnt (join " " (cur ++ [word])) <=? max_width).
    + apply IH; try assumption.
      apply Forall_app. split; [assumption | now constructor].
    + destruct cur as [|c cur].
      * apply IH; try assumption.
        apply Forall_app. split; [assumption|].
        constructor; [now apply is_word_nonempty | constructor].
      * apply IH; try assumption; [now constructor|].
        apply Forall_app. split; [assumption|].
        constructor; [|constructor].
        inversion Hc; subst. now apply join_nonempty.
Qed.

Lemma line_ok_pending (current_line : list string) :
  word_list current_line -> pending_ok w fnt max_width current_line ->
  current_line <> [] ->
  line_ok w fnt max_width (join " " current_line).
Proof.
  intros Hc [E | [F | [word E]]] Hne.
  - contradiction.
  - now left.
  - subst. simpl.
    destruct (Z_le_gt_dec (bbox_right w fnt word) max_width) as [L | G].
    + now left.
    + right. inversion Hc; subst.
      split; [now apply split_word | lia].
Qed.

Lemma wrap_loop_fits (words : list string) :
  forall lines current_line,
    word_list words -> word_list current_line ->
    Forall (line_ok w fnt max_width) lines -> pending_ok w fnt max_width current_line ->
    Forall (line_ok w fnt max_width) (fst (loop words lines current_line))
    /\ pending_ok w fnt max_width (snd (loop words lines current_line)).
Proof.
  induction words as [|word rest IH]; intros lines cur Hw Hc Hl Hp; simpl.
  - now split.
  - inversion Hw as [|? ? Hword Hrest]; subst.
    destruct (bbox_right w fnt (join " " (cur ++ [word])) <=? max_width)
      eqn:E.
    + apply IH; try assumption.
      * apply Forall_app. split; [assumption | now constructor].
      * right. left. now apply Z.leb_le.
    + apply Z.leb_gt in E. destruct cur as [|c cur].
      * apply IH; try assumption.
        apply Forall_app. split; [assumption|].
        constructor; [|constructor].
        right. simpl in E. split; [now apply split_word | assumption].
      * apply IH; try assumption.
        -- now constructor.
        -- apply Forall_app. split; [assumption|].
           constructor; [|constructor].
           now apply line_ok_pending.
        -- right. right. now exists word.
Qed.

Lemma wrap_loop_count_mono (words : list string) :
  forall lines current_line,
    (line_count (lines, current_line)
     <= line_count (loop words lines current_line))%nat.
Proof.
  induction words as [|word rest IH]; intros lines cur; simpl.
  - lia.
  - destruct (bbox_right w fnt (join " " (cur ++ [word])) <=? max_width).
    + etransitivity; [|apply IH].
      unfold line_count. simpl.
      destruct cur; simpl; lia.
    + destruct cur as [|c cur].
      * etransitivity; [|apply IH].
        unfold line_count. simpl. rewrite length_app. simpl. lia.
      * etransitivity; [|apply IH].
        unfold line_count. simpl. rewrite length_app. simpl. lia.
Qed.

(** From a pending line that is not empty, either every remaining word is
    appended to it, and then the whole fits, or a line is flushed. *)
Lemma wrap_loop_pending (words : list string) :
  forall lines current_line,
    current_line <> [] -> words <> [] ->
    bbox_right w fnt (join " " (current_line ++ words)) <= max_width
    \/ (List.length lines + 2
        <= line_count (loop words lines current_line))%nat.
Proof.
  induction words as [|word rest IH]; intros lines cur Hc Hw;
    [contradiction|]. simpl.
  destruct (bbox_right w fnt (join " " (cur ++ [word])) <=? max_width)
    eqn:E.
  - destruct rest as [|word' rest'].
    + left. now apply Z.leb_le.
    + destruct (IH lines (cur ++ [word])) as [F | G].
      * destruct cur; discriminate.
      * discriminate.
      * left. now rewrite <- app_assoc in F.
      * now right.
  - right. destruct cur as [|c cur]; [contradiction|].
    etransitivity; [|apply wrap_loop_count_mono].
    unfold line_count. simpl. rewrite length_app. simpl. lia.
Qed.

Lemma wrap_text_count (text : string) :
  List.length (wrap_text w text fnt max_width)
  = line_count (loop (split text) [] []).
Proof.
  unfold wrap_text, line_count.
  destruct (loop (split text) [] []) as [lines cur]. simpl.
  destruct cur; [reflexivity|].
  rewrite length_app. simpl. lia.
Qed.

End WrapText.

(** C10. For every text, font, width and drawing context, the words of the
    lines returned by [wrap_text], read in order, are exactly the words of
    [text.split()]: none is dropped, duplicated or moved; and no returned
    line is empty. *)
Theorem wrap_text_preserves_words {T : Type} (w : world T) (text : string)
    (fnt : font) (max_width : Z) :
  words_of (wrap_text w text fnt max_width) = split text
  /\ Forall (fun line => line <> "") (wrap_text w text fnt max_width).
Proof.
  pose proof (split_words text) as Hw.
  destruct (wrap_loop_words w fnt max_width (split text) [] [] Hw)
    as [E F]; [constructor|].
  pose proof (wrap_loop_nonempty w fnt max_width (split text) [] [] Hw)
    as N.
  unfold wrap_text.
  destruct (wrap_loop w fnt max_width (split text) [] []) as [lines cur].
  simpl in E, F, N.
  assert (Hl : Forall (fun l : string => l <> "") lines).
  { apply N; constructor. }
  destruct cur as [|c cur].
  - rewrite app_nil_r in E. now split.
  - split.
    + rewrite words_of_app, (words_of_join _ F). exact E.
    + apply Forall_app. split; [assumption|].
      constructor; [|constructor].
      inversion F; subst. now apply join_nonempty.
Qed.

(** ** Frame composition *)

Section FrameComposer.

Context {T : Type} (w : world T).

Local Open Scope list_scope.

Lemma pastes_of_app (a b : list draw_op) :
  pastes_of (a ++ b) = pastes_of a ++ pastes_of b.
Proof.
  induction a as [|op a IH]; [reflexivity|].
  destruct op; simpl; now rewrite IH.
Qed.

(** Drawing the wrapped title adds text only. *)
Lemma draw_lines_frame (lines : list string) :
  forall f x y fnt,
    frame_width (fst (draw_lines f x y fnt lines)) = frame_width f
    /\ frame_height (fst (draw_lines f x y fnt lines)) = frame_height f
    /\ exists extra,
         frame_ops (fst (draw_lines f x y fnt lines)) = frame_ops f ++ extra
         /\ pastes_of extra = [].
Proof.
  induction lines as [|line rest IH]; intros f x y fnt; simpl.
  - repeat split. exists []. now rewrite app_nil_r.
  - destruct (IH (draw f (Text x y line "white" (Some fnt) None))
                x (y + 80) fnt) as (W & H & extra & E & P).
    repeat split; [exact W | exact H |].
    exists (Text x y line "white" (Some fnt) None :: extra).
    split; [|exact P].
    rewrite E. simpl. now rewrite <- app_assoc.
Qed.

(** The text block keeps the size of the frame and what is on it. *)
Lemma draw_track_text_frame (f f' : frame) (width height : Z)
    (track_title : string) (track_number : value) (artist album : string) :
  draw_track_text w f width height track_title track_number artist album
  = Ok f' ->
  frame_width f' = frame_width f
  /\ frame_height f' = frame_height f
  /\ exists extra,
       frame_ops f' = frame_ops f ++ extra /\ pastes_of extra = [].
Proof.
  unfold draw_track_text.
  destruct (load_fonts w) as [[title_font info_font] small_font].
  destruct (format_02d track_number) as [nn|e]; [|discriminate].
  match goal with
  | |- context [draw_lines ?f0 ?x ?y ?fn ?ls] =>
      destruct (draw_lines_frame ls f0 x y fn) as (W & H & extra & E & P);
      destruct (draw_lines f0 x y fn ls) as [f1 y1]
  end.
  simpl in W, H, E. intros Hok. inversion Hok; subst f'. simpl.
  repeat split; [exact W | exact H |].
  eexists. rewrite E, <- !app_assoc. split; [reflexivity|].
  rewrite pastes_of_app, P. reflexivity.
Qed.

Lemma create_video_frame_unfold (cover_art_path track_title : string)
    (track_number : value) (artist album : string) :
  create_video_frame w cover_art_path track_title track_number artist album
  = match draw_track_text w (artwork_frame w cover_art_path) 1920 1080
            track_title track_number artist album with
    | Ok f => f
    | Raise _ => artwork_frame w cover_art_path
    end.
Proof.
  unfold create_video_frame, artwork_frame, paste_cover, loaded_cover.
  cbv zeta.
  change (Z.min (1080 - 100) (1920 / 2 - 100)) with 860.
  change ((1920 / 2 - 860) / 2) with 50.
  change ((1080 - 860) / 2) with 110.
  destruct (Image_open w cover_art_path) as [cover|]; [|reflexivity].
  destruct (resize_returns w cover); [|reflexivity].
  destruct (paste_returns w (resize cover 860 860)); reflexivity.
Qed.

Lemma create_video_frame_extends (cover_art_path track_title : string)
    (track_number : value) (artist album : string) :
  let f :=
    create_video_frame w cover_art_path track_title track_number artist
      album in
  frame_width f = 1920 /\ frame_height f = 1080
  /\ exists extra,
       frame_ops f = frame_ops (artwork_frame w cover_art_path) ++ extra
       /\ pastes_of extra = [].
Proof.
  cbv zeta. rewrite create_video_frame_unfold.
  assert (S : frame_width (artwork_frame w cover_art_path) = 1920
              /\ frame_height (artwork_frame w cover_art_path) = 1080).
  { unfold artwork_frame. destruct (loaded_cover w cover_art_path);
      now split. }
  destruct S as [SW SH].
  destruct (draw_track_text w (artwork_frame w cover_art_path) 1920 1080
              track_title track_number artist album) as [f|e] eqn:D.
  - apply draw_track_text_frame in D. destruct D as (W & H & X).
    rewrite W, H. now repeat split.
  - repeat split; [exact SW | exact SH |].
    exists []. now rewrite app_nil_r.
Qed.

End FrameComposer.

(** ** The track loop *)

Section TrackLoop.

Context {T : Type} {num : Seconds T}.
Context (reader : string -> metadata T) (w : world T) (self : converter)
  (progress_callback : bool) (n : nat).

Local Open Scope list_scope.

Lemma process_track_outcome (i : nat) (flac_file : string) (s : state T) :
  process_track reader w self progress_callback n i flac_file s
  = track_outcome reader w self progress_callback n i flac_file s.
Proof.
  unfold process_track, track_outcome, bind, report, write_file, modify,
    run, lift, ret.
  destruct progress_callback; cbv beta iota zeta;
    destruct (subprocess_run w _); try reflexivity;
    destruct (chapter_title_of (reader flac_file)); reflexivity.
Qed.

(** A property of the state kept by every iteration holds when the loop
    ends, whether it returns or raises. *)
Lemma tracks_loop_invariant (P : state T -> Prop) (all_files : list string) :
  (forall i f s, nth_error all_files i = Some f -> P s ->
     P (fst (process_track reader w self progress_callback n i f s))) ->
  forall files i s,
    (forall j f, nth_error files j = Some f ->
       nth_error all_files (i + j) = Some f) ->
    P s ->
    P (fst (tracks_loop reader w self progress_callback n i files s)).
Proof.
  intros Hstep. induction files as [|f rest IH]; intros i s Hsub Hs.
  - exact Hs.
  - cbn [tracks_loop]. unfold bind.
    pose proof (Hstep i f s) as H1.
    destruct (process_track reader w self progress_callback n i f s)
      as [s1 [[]|e]].
    + apply IH.
      * intros j g Hj. replace (S i + j)%nat with (i + S j)%nat by lia.
        now apply Hsub.
      * apply H1; [|exact Hs].
        rewrite <- (Nat.add_0_r i). now apply Hsub.
    + simpl. apply H1; [|exact Hs].
      rewrite <- (Nat.add_0_r i). now apply Hsub.
Qed.

End TrackLoop.

(** ** The whole run *)

Section Run.

Context {T : Type} {num : Seconds T}.
Context (reader : string -> metadata T) (w : world T) (self : converter)
  (progress_callback : bool).

Local Open Scope list_scope.

Lemma combine_segments_outcome (s : state T) :
  combine_segments w self progress_callback s
  = combine_outcome w self progress_callback s.
Proof.
  unfold combine_segments, combine_outcome, bind, report, create_chapter_file,
    write_file, modify, run, get, ret.
  destruct progress_callback; cbv beta iota zeta;
    destruct (subprocess_run w _); reflexivity.
Qed.

(** A ready run is the loop, then the combine step, with the exceptions
    turned into [RuntimeError] and the scratch directory removed. *)
Lemma convert_with_ready (s : state T) :
  ready self = true ->
  convert_with reader w self progress_callback s
  = match tracks_loop reader w self progress_callback
            (List.length (flac_files self)) 0 (flac_files self) s with
    | (s1, Raise e) => (remove_scratch s1, Raise (as_runtime_error e))
    | (s1, Ok _) =>
        match combine_outcome w self progress_callback s1 with
        | (s2, Raise e) => (remove_scratch s2, Raise (as_runtime_error e))
        | (s2, Ok b) => (remove_scratch s2, Ok b)
        end
    end.
Proof.
  intros R. unfold convert_with. rewrite R.
  unfold finally_cleanup, except_clauses, convert_body, bind.
  destruct (tracks_loop _ _ _ _ _ _ _ s) as [s1 [[]|e]]; [|reflexivity].
  rewrite combine_segments_outcome.
  destruct (combine_outcome w self progress_callback s1) as [s2 [b|e]];
    reflexivity.
Qed.

Lemma convert_with_not_ready (s : state T) :
  ready self = false ->
  convert_with reader w self progress_callback s
  = (s, Raise (ValueError "Missing required files or output path")).
Proof. intros R. unfold convert_with. now rewrite R. Qed.

Lemma commands_combine_outcome (s : state T) :
  commands (fst (combine_outcome w self progress_callback s))
  = commands s
    ++ [combine_cmd (path_join (mkdtemp w) "concat.txt")
          (path_join (mkdtemp w) "chapters.txt") (output_path self)].
Proof.
  unfold combine_outcome.
  destruct progress_callback; cbv beta iota zeta;
    destruct (subprocess_run w _); reflexivity.
Qed.

(** The commands of a track iteration: the encode request of the track is
    added, nothing else. *)
Lemma commands_track_outcome (n i : nat) (f : string) (s : state T) :
  commands (fst (track_outcome reader w self progress_callback n i f s))
  = commands s
    ++ [encode_cmd (frame_path_of (mkdtemp w) i) f (duration (reader f))
          (video_path_of (mkdtemp w) i)].
Proof.
  unfold track_outcome.
  destruct progress_callback; cbv beta iota zeta;
    destruct (subprocess_run w _); try reflexivity;
    destruct (chapter_title_of (reader f)); reflexivity.
Qed.

Lemma file_at_put (path : string) (a : artifact) (s : state T) :
  file_at path (scratch (put_file path a s)) = Some a.
Proof.
  unfold put_file. cbn [scratch].
  induction (scratch s) as [|[p b] l IH]; cbn [filter app file_at fst].
  - now rewrite String.eqb_refl.
  - destruct (String.eqb p path) eqn:E; cbn [negb app file_at]; [exact IH|].
    now rewrite E.
Qed.

(** The files of a track iteration: the frame of the track is saved,
    nothing else. *)
Lemma scratch_track_outcome (n i : nat) (f : string) (s : state T) :
  scratch (fst (track_outcome reader w self progress_callback n i f s))
  = scratch
      (put_file (frame_path_of (mkdtemp w) i)
         (PngFile
            (create_video_frame w (cover_art_path self) (title (reader f))
               (track_number (reader f)) (artist (reader f))
               (album (reader f)))) s).
Proof.
  unfold track_outcome.
  destruct progress_callback; cbv beta iota zeta;
    destruct (subprocess_run w _); try reflexivity;
    destruct (chapter_title_of (reader f)); reflexivity.
Qed.

End Run.

(** ** The artwork has no part in the outcome of a run *)

Section Artwork.

Context {T : Type} {num : Seconds T}.
Context (reader : string -> metadata T) (w : world T) (self : converter)
  (progress_callback : bool) (opener : string -> option image)
  (resizes pastes_ok : image -> bool).

Lemma same_but_scratch_removed (s s' : state T) :
  same_but_scratch s s' -> remove_scratch s = remove_scratch s'.
Proof.
  destruct s, s'. unfold same_but_scratch, remove_scratch. simpl.
  intros (-> & -> & -> & -> & ->). reflexivity.
Qed.

Ltac related :=
  match goal with
  | H : same_but_scratch _ _ |- _ =>
      destruct H as (H1 & H2 & H3 & H4 & H5);
      unfold same_but_scratch; simpl;
      rewrite ?H1, ?H2, ?H3, ?H4, ?H5; repeat split; reflexivity
  end.

Lemma track_outcome_artwork (n i : nat) (f : string) (s s' : state T) :
  same_but_scratch s s' ->
  same_but_scratch
    (fst (track_outcome reader (with_artwork w opener resizes pastes_ok) self
            progress_callback n i f s))
    (fst (track_outcome reader w self progress_callback n i f s'))
  /\ snd (track_outcome reader (with_artwork w opener resizes pastes_ok) self
            progress_callback n i f s)
     = snd (track_outcome reader w self progress_callback n i f s').
Proof.
  intros H. unfold track_outcome. cbn [with_artwork mkdtemp subprocess_run].
  destruct progress_callback; cbv beta iota zeta;
    destruct (subprocess_run w _);
    try (split; [related | reflexivity]);
    destruct (chapter_title_of (reader f));
    (split; [related | reflexivity]).
Qed.

Lemma tracks_loop_artwork (n : nat) (files : list string) :
  forall i s s',
    same_but_scratch s s' ->
    same_but_scratch
      (fst (tracks_loop reader (with_artwork w opener resizes pastes_ok) self
              progress_callback n i files s))
      (fst (tracks_loop reader w self progress_callback n i files s'))
    /\ snd (tracks_loop reader (with_artwork w opener resizes pastes_ok) self
              progress_callback n i files s)
       = snd (tracks_loop reader w self progress_callback n i files s').
Proof.
  induction files as [|f rest IH]; intros i s s' H.
  - simpl. now split.
  - cbn [tracks_loop]. unfold bind. rewrite !process_track_outcome.
    destruct (track_outcome_artwork n i f s s' H) as [R E].
    destruct (track_outcome reader (with_artwork w opener resizes pastes_ok) self
                progress_callback n i f s) as [s1 r1].
    destruct (track_outcome reader w self progress_callback n i f s')
      as [s1' r1'].
    simpl in R, E. subst r1'. destruct r1 as [[]|e].
    + now apply IH.
    + now split.
Qed.

Lemma combine_outcome_artwork (s s' : state T) :
  same_but_scratch s s' ->
  same_but_scratch
    (fst (combine_outcome (with_artwork w opener resizes pastes_ok) self progress_callback
            s))
    (fst (combine_outcome w self progress_callback s'))
  /\ snd (combine_outcome (with_artwork w opener resizes pastes_ok) self progress_callback
            s)
     = snd (combine_outcome w self progress_callback s').
Proof.
  intros H. unfold combine_outcome.
  cbn [with_artwork mkdtemp subprocess_run].
  destruct progress_callback; cbv beta iota zeta;
    destruct (subprocess_run w _); (split; [related | reflexivity]).
Qed.

(** Whatever the loading of the artwork does, the run ends in the same
    state with the same outcome. *)
Lemma convert_with_artwork :
  convert_with reader (with_artwork w opener resizes pastes_ok) self progress_callback
    initial_state
  = convert_with reader w self progress_callback initial_state.
Proof.
  destruct (ready self) eqn:R.
  2:{ now rewrite !convert_with_not_ready by exact R. }
  rewrite !convert_with_ready by exact R.
  assert (H0 : same_but_scratch (@initial_state T num) initial_state).
  { now repeat split. }
  destruct (tracks_loop_artwork (List.length (flac_files self))
              (flac_files self) 0 _ _ H0) as [L E].
  destruct (tracks_loop reader (with_artwork w opener resizes pastes_ok) self
              progress_callback _ 0 _ initial_state) as [s1 r1].
  destruct (tracks_loop reader w self progress_callback _ 0 _ initial_state)
    as [s1' r1'].
  simpl in L, E. subst r1'. destruct r1 as [[]|e].
  - destruct (combine_outcome_artwork s1 s1' L) as [C F].
    destruct (combine_outcome (with_artwork w opener resizes pastes_ok) self
                progress_callback s1) as [s2 r2].
    destruct (combine_outcome w self progress_callback s1') as [s2' r2'].
    simpl in C, F. subst r2'.
    rewrite (same_but_scratch_removed _ _ C). reflexivity.
  - rewrite (same_but_scratch_removed _ _ L). reflexivity.
Qed.

End Artwork.

(** C9. When the artwork cannot be loaded ([Image.open], [resize] or
    [paste] raises), [create_video_frame] returns a 1920x1080 frame on which
    no image is pasted and whose first drawings are the white-bordered
    placeholder box and the label "No Cover Art" at its centre.  The
    iteration of [convert_to_mkv] for a track goes on with this frame: it is
    saved in the scratch directory as the frame of the track, the encode
    request of the track is issued, and the iteration returns exactly when
    the transcoder accepts the request and the title of the chapter can be
    formatted.  A run ends in the same state with the same outcome whatever
    the loading of the artwork does, so that its failure is never the
    failure of the job. *)
Theorem placeholder_on_unreadable_artwork {T : Type} {num : Seconds T}
    (w : world T) (cover : string) :
  loaded_cover w cover = None ->
  (forall (track_title : string) (track_number : value)
          (artist album : string),
     let f :=
       create_video_frame w cover track_title track_number artist album in
     frame_width f = 1920 /\ frame_height f = 1080
     /\ pastes f = []
     /\ exists rest,
          frame_ops f
          = (Rectangle 50 110 910 970 "white" 2
             :: Text 480 540 "No Cover Art" "white" None (Some "mm")
             :: rest)%list)
  /\ (forall (reader : string -> metadata T) (self : converter)
             (progress_callback : bool) (n i : nat) (flac_file : string)
             (s : state T),
        cover_art_path self = cover ->
        let r :=
          process_track reader w self progress_callback n i flac_file s in
        let cmd :=
          encode_cmd (frame_path_of (mkdtemp w) i) flac_file
            (duration (reader flac_file)) (video_path_of (mkdtemp w) i) in
        (exists f rest,
           file_at (frame_path_of (mkdtemp w) i) (scratch (fst r))
           = Some (PngFile f)
           /\ pastes f = []
           /\ frame_ops f
              = (Rectangle 50 110 910 970 "white" 2
                 :: Text 480 540 "No Cover Art" "white" None (Some "mm")
                 :: rest)%list)
        /\ commands (fst r) = (commands s ++ [cmd])%list
        /\ (snd r = Ok tt
            <-> subprocess_run w cmd = None
                /\ exists ttl, chapter_title_of (reader flac_file) = Ok ttl))
  /\ (forall (self : converter) (progress_callback : bool)
             (opener : string -> option image)
             (resizes pastes_ok : image -> bool),
        run_convert (with_artwork w opener resizes pastes_ok) self
          progress_callback
        = run_convert w self progress_callback).
Proof.
  intros H.
  assert (F : forall track_title track_number artist album,
            let f :=
              create_video_frame w cover track_title track_number artist
                album in
            frame_width f = 1920 /\ frame_height f = 1080
            /\ pastes f = []
            /\ exists rest,
                 frame_ops f
                 = (Rectangle 50 110 910 970 "white" 2
                    :: Text 480 540 "No Cover Art" "white" None (Some "mm")
                    :: rest)%list).
  { intros track_title track_number artist album f.
    destruct (create_video_frame_extends w cover track_title track_number
                artist album) as (W & Hh & extra & E & P).
    fold f in W, Hh, E. unfold artwork_frame in E. rewrite H in E.
    simpl in E. repeat split; try assumption.
    - unfold pastes. rewrite E. simpl. exact P.
    - now exists extra. }
  split; [exact F|]. split.
  - intros reader self cb n i flac_file s Hc r cmd. subst r cmd.
    rewrite process_track_outcome. split; [|split].
    + rewrite scratch_track_outcome, file_at_put, Hc.
      destruct (F (title (reader flac_file))
                  (track_number (reader flac_file))
                  (artist (reader flac_file)) (album (reader flac_file)))
        as (_ & _ & P & rest & E).
      eexists _, rest. split; [reflexivity|]. now split.
    + apply commands_track_outcome.
    + unfold track_outcome. cbv zeta.
      destruct (subprocess_run w _) as [msg|].
      * split; [discriminate | intros [D _]; discriminate].
      * destruct (chapter_title_of (reader flac_file)) as [ttl|e]; simpl.
        -- split; [intros _; split; [reflexivity | now exists ttl]
                  | reflexivity].
        -- split; [discriminate | intros [_ [ttl D]]; discriminate].
  - intros self cb opener resizes pastes_ok.
    unfold run_convert, convert_to_mkv.
    change (get_track_metadata (with_artwork w opener resizes pastes_ok))
      with (get_track_metadata w).
    apply convert_with_artwork.
Qed.

Lemma placeholder_on_unreadable_artwork_witness :
  Image_open Demo.world0 "/music/truncated.jpg"
  = Some {| image_name := "/music/truncated.jpg"; image_width := 500;
            image_height := 500 |}
  /\ frame_ops
       (create_video_frame Demo.world0 "/music/truncated.jpg" "Fearless"
          (Int 3) "Pink Floyd" "Meddle")
     = [ Rectangle 50 110 910 970 "white" 2;
         Text 480 540 "No Cover Art" "white" None (Some "mm");
         Text 1010 440 "03. Fearless" "white"
           (Some (TrueType helvetica 72)) None;
         Text 1010 560 "Pink Floyd" "lightgray"
           (Some (TrueType helvetica 48)) None;
         Text 1010 620 "Meddle" "lightgray"
           (Some (TrueType helvetica 36)) None ]%list
  /\ pastes
       (create_video_frame Demo.world0 "/music/truncated.jpg" "Fearless"
          (Int 3) "Pink Floyd" "Meddle") = []%list.
Proof.
  split; [reflexivity|]. split; [reflexivity|].
  destruct (placeholder_on_unreadable_artwork Demo.world0
              "/music/truncated.jpg" eq_refl) as [F _].
  exact (proj1 (proj2 (proj2 (F "Fearless" (Int 3) "Pink Floyd" "Meddle")))).
Defined.

(** C4, as amended. Every artwork that loads ([Image.open], [resize] and
    [paste] return) is resized to the fixed square of 860 by 860 pixels,
    whatever its own width and height, and pasted once, centred in the left
    half of the 1920x1080 frame: 50 pixels on its left and right, 110 pixels
    above and below.  The ratio of width to height is kept when the source
    is square. *)
Theorem cover_art_layout {T : Type} {num : Seconds T} (w : world T)
    (cover_path : string) (track_title : string) (track_number : value)
    (artist album : string) (cover : image) :
  Image_open w cover_path = Some cover ->
  resize_returns w cover = true ->
  paste_returns w (resize cover 860 860) = true ->
  exists img x y,
    pastes (create_video_frame w cover_path track_title track_number artist
              album) = [(img, x, y)]%list
    /\ image_name img = image_name cover
    /\ image_width img = 860 /\ image_height img = 860
    /\ 0 <= x /\ x + image_width img <= 1920 / 2
    /\ x - 0 = 1920 / 2 - (x + image_width img)
    /\ 0 <= y /\ y + image_height img <= 1080
    /\ y - 0 = 1080 - (y + image_height img)
    /\ (image_width cover = image_height cover ->
        image_width img * image_height cover
        = image_height img * image_width cover).
Proof.
  intros H R P0.
  destruct (create_video_frame_extends w cover_path track_title track_number
              artist album) as (_ & _ & extra & E & P).
  unfold artwork_frame, loaded_cover in E. rewrite H, R, P0 in E.
  simpl in E.
  exists (resize cover 860 860), 50, 110.
  split.
  { unfold pastes. rewrite E. simpl. now rewrite P. }
  simpl. change (1920 / 2) with 960.
  repeat match goal with |- _ /\ _ => split end; try lia; try reflexivity.
  intros Hsq. now rewrite Hsq.
Qed.

Lemma cover_art_layout_witness :
  exists img x y,
    pastes (create_video_frame Demo.world0 "/music/cover.jpg" "Fearless"
              (Int 3) "Pink Floyd" "Meddle") = [(img, x, y)]%list
    /\ image_name img = "/music/cover.jpg"
    /\ image_width img = 860 /\ image_height img = 860
    /\ 0 <= x /\ x + image_width img <= 1920 / 2
    /\ x - 0 = 1920 / 2 - (x + image_width img)
    /\ 0 <= y /\ y + image_height img <= 1080
    /\ y - 0 = 1080 - (y + image_height img)
    /\ (200 = 100 -> image_width img * 100 = image_height img * 200).
Proof.
  apply (cover_art_layout Demo.world0 "/music/cover.jpg" "Fearless" (Int 3)
           "Pink Floyd" "Meddle"
           {| image_name := "/music/cover.jpg"; image_width := 200;
              image_height := 100 |}); reflexivity.
Defined.

(** C4, as stated, fails: an artwork of 200 by 100 pixels is pasted as a
    square of 860 by 860 pixels, so its ratio of width to height is not
    kept. *)
Lemma cover_art_made_square :
  let src :=
    {| image_name := "/music/cover.jpg"; image_width := 200;
       image_height := 100 |} in
  let img :=
    {| image_name := "/music/cover.jpg"; image_width := 860;
       image_height := 860 |} in
  Image_open Demo.world0 "/music/cover.jpg" = Some src
  /\ image_width src <> image_height src
  /\ pastes (create_video_frame Demo.world0 "/music/cover.jpg" "Fearless"
               (Int 3) "Pink Floyd" "Meddle") = [(img, 50, 110)]%list
  /\ image_width img * image_height src
     <> image_height img * image_width src.
Proof.
  cbv zeta. split; [reflexivity|]. split; [simpl; lia|].
  split; [reflexivity|]. simpl. lia.
Qed.

(** ** The metadata reader and the titles of the chapters *)

Section Reader.

Context {T : Type} {num : Seconds T} (w : world T).

(** The track number that the reader returns is always a string: the first
    value of the tag, or the default ['1']. *)
Lemma get_track_metadata_track_number (flac_path : string) :
  exists tn, track_number (get_track_metadata w flac_path) = Str tn.
Proof.
  unfold get_track_metadata, read_metadata.
  destruct (FLAC w flac_path) as [audio|]; [|now exists "1"].
  destruct (item0 (tag_get audio "TITLE" [stem flac_path]));
    [|now exists "1"].
  destruct (item0 (tag_get audio "ARTIST" ["Unknown Artist"]));
    [|now exists "1"].
  destruct (item0 (tag_get audio "ALBUM" ["Unknown Album"]));
    [|now exists "1"].
  destruct (item0 (tag_get audio "TRACKNUMBER" ["1"])) as [tn|];
    [|now exists "1"].
  now exists tn.
Qed.

(** With an integer track number the title is the number on two digits,
    a dot, a space and the title of the track. *)
Lemma chapter_title_of_int (md : metadata T) (z : Z) :
  track_number md = Int z ->
  chapter_title_of md = Ok (format_0d 2 z ++ ". " ++ title md).
Proof. intros H. unfold chapter_title_of. now rewrite H. Qed.

Lemma chapter_title_of_str (md : metadata T) (tn : string) :
  track_number md = Str tn ->
  chapter_title_of md
  = Raise (ValueError "Unknown format code 'd' for object of type 'str'").
Proof. intros H. unfold chapter_title_of. now rewrite H. Qed.

Lemma reader_title_raises (flac_path : string) :
  chapter_title_of (get_track_metadata w flac_path)
  = Raise (ValueError "Unknown format code 'd' for object of type 'str'").
Proof.
  destruct (get_track_metadata_track_number flac_path) as [tn H].
  now apply chapter_title_of_str with tn.
Qed.

End Reader.

(** C2, on the code. For every file, the title of the chapter entry built
    from what [get_track_metadata] returned is not produced: the track
    number is a string (the first value of the TRACKNUMBER tag, or the
    default ['1']), and formatting a string with [02d] raises
    [ValueError]. *)
Theorem chapter_title_raises {T : Type} {num : Seconds T} (w : world T)
    (flac_path : string) :
  chapter_title_of (get_track_metadata w flac_path)
  = Raise (ValueError "Unknown format code 'd' for object of type 'str'").
Proof. apply reader_title_raises. Qed.

(** ** A run with the metadata reader of the source *)

Section RealRun.

Context {T : Type} {num : Seconds T} (w : world T) (self : converter)
  (progress_callback : bool).

Local Open Scope list_scope.

Lemma ready_files :
  ready self = true -> exists f rest, flac_files self = f :: rest.
Proof.
  unfold ready. destruct (flac_files self) as [|f rest]; [discriminate|].
  intros _. now exists f, rest.
Qed.

(** The first iteration ends the run: the encode request of the first track
    is issued, then either the transcoder fails or the title of the chapter
    cannot be formatted. *)
Lemma run_convert_ready (f : string) (rest : list string) :
  ready self = true ->
  flac_files self = f :: rest ->
  let cmd :=
    encode_cmd (frame_path_of (mkdtemp w) 0) f
      (duration (get_track_metadata w f)) (video_path_of (mkdtemp w) 0) in
  run_convert w self progress_callback
  = ({| progress :=
          if progress_callback
          then [(track_status (S (List.length rest)) 0, 0)] else [];
        commands := [cmd];
        scratch := [];
        total_duration := sec_zero;
        chapter_data := [];
        video_segments :=
          match subprocess_run w cmd with
          | None => [video_path_of (mkdtemp w) 0]
          | Some _ => []
          end |},
     Raise
       (RuntimeError
          match subprocess_run w cmd with
          | Some msg => "FFmpeg error: " ++ msg
          | None =>
              "Conversion error: Unknown format code 'd' for object of type 'str'"
          end)).
Proof.
  intros R F. cbv zeta. unfold run_convert, convert_to_mkv.
  rewrite convert_with_ready by exact R. rewrite F.
  cbn [tracks_loop List.length]. unfold bind.
  rewrite process_track_outcome. unfold track_outcome.
  rewrite reader_title_raises.
  destruct progress_callback; cbv beta iota zeta;
    destruct (subprocess_run w _); reflexivity.
Qed.

End RealRun.

(** C1, on the code. For every job that passes the guard of
    [convert_to_mkv] (at least one track, an artwork path and an output
    path), the run raises [RuntimeError] during the first track and the
    chapter list holds no entry, although there is at least one input
    track. *)
Theorem no_chapter_is_built {T : Type} {num : Seconds T} (w : world T)
    (self : converter) (progress_callback : bool) :
  ready self = true ->
  (0 < List.length (flac_files self))%nat
  /\ chapter_data (fst (run_convert w self progress_callback)) = []%list
  /\ exists msg,
       snd (run_convert w self progress_callback)
       = Raise (RuntimeError msg).
Proof.
  intros R. destruct (ready_files self R) as (f & rest & F).
  rewrite (run_convert_ready w self progress_callback f rest R F).
  rewrite F. simpl. split; [lia|]. split; [reflexivity|].
  eexists. reflexivity.
Qed.

Lemma no_chapter_is_built_witness :
  (0 < 3)%nat
  /\ chapter_data
       (fst (run_convert Demo.world0
               (Demo.job ["/music/01.flac"; "/music/02.flac";
                          "/music/03.flac"]) true)) = []%list
  /\ exists msg,
       snd (run_convert Demo.world0
              (Demo.job ["/music/01.flac"; "/music/02.flac";
                         "/music/03.flac"]) true)
       = Raise (RuntimeError msg).
Proof.
  apply (no_chapter_is_built Demo.world0
           (Demo.job ["/music/01.flac"; "/music/02.flac";
                      "/music/03.flac"]) true).
  reflexivity.
Defined.

(** No run of [convert_to_mkv] with the metadata reader of the source is
    successful: whatever the world and the job, the outcome is an
    exception, and the progress sink has received nothing or the single
    value 0; the values 50, 75 and 100 are never reported. *)
Lemma progress_never_completes {T : Type} {num : Seconds T} (w : world T)
    (self : converter) (progress_callback : bool) :
  (forall b, snd (run_convert w self progress_callback) <> Ok b)
  /\ (percents (fst (run_convert w self progress_callback)) = []%list
      \/ percents (fst (run_convert w self progress_callback)) = [0]%list)
  /\ ~ In 100 (percents (fst (run_convert w self progress_callback))).
Proof.
  destruct (ready self) eqn:R.
  - destruct (ready_files self R) as (f & rest & F).
    rewrite (run_convert_ready w self progress_callback f rest R F).
    unfold percents. simpl. split; [discriminate|].
    destruct progress_callback; simpl.
    + split; [now right|]. intros [H | []]. discriminate.
    + split; [now left|]. tauto.
  - unfold run_convert, convert_to_mkv.
    rewrite convert_with_not_ready by exact R.
    unfold percents. simpl. split; [discriminate|].
    split; [now left | tauto].
Qed.

(** C3, on the code. When reading the file fails, [get_track_metadata]
    returns the default dictionary, whose track number is the string ['1']
    and whose duration is 0; and the run of a job made of that track does
    not complete: it raises [RuntimeError]. *)
Theorem default_metadata_then_failure {T : Type} {num : Seconds T}
    (w : world T) (flac_path : string) :
  read_metadata w flac_path = None ->
  get_track_metadata w flac_path
  = {| title := splitext_root (basename flac_path);
       artist := "Unknown Artist";
       album := "Unknown Album";
       track_number := Str "1";
       duration := sec_zero;
       sample_rate := 44100;
       bits_per_sample := 16;
       channels := 2 |}
  /\ forall self progress_callback,
       flac_files self = [flac_path]%list -> ready self = true ->
       exists msg,
         snd (run_convert w self progress_callback)
         = Raise (RuntimeError msg).
Proof.
  intros H. split.
  - unfold get_track_metadata. now rewrite H.
  - intros self cb F R.
    rewrite (run_convert_ready w self cb flac_path [] R F).
    simpl. eexists. reflexivity.
Qed.

Lemma default_metadata_then_failure_witness :
  get_track_metadata Demo.world0 "/music/broken.flac"
  = {| title := "broken";
       artist := "Unknown Artist";
       album := "Unknown Album";
       track_number := Str "1";
       duration := 0;
       sample_rate := 44100;
       bits_per_sample := 16;
       channels := 2 |}
  /\ snd (run_convert Demo.world0 (Demo.job ["/music/broken.flac"]) true)
     = Raise
         (RuntimeError
            "Conversion error: Unknown format code 'd' for object of type 'str'").
Proof.
  destruct (default_metadata_then_failure Demo.world0 "/music/broken.flac")
    as [D _]; [reflexivity|].
  split; [exact D | reflexivity].
Defined.

(** ** The chapter file *)

Section ChapterFile.

Context {T : Type} {num : Seconds T}.

Local Open Scope list_scope.

Lemma no_newline_append (a b : string) :
  no_newline (a ++ b)%string = no_newline a && no_newline b.
Proof.
  induction a as [|c a IH]; simpl; [reflexivity|].
  rewrite IH. now rewrite andb_assoc.
Qed.

Lemma no_newline_uint (d : Decimal.uint) :
  no_newline (NilEmpty.string_of_uint d) = true.
Proof. induction d; simpl; assumption || reflexivity. Qed.

Lemma no_newline_str_of_int (z : Z) : no_newline (str_of_int z) = true.
Proof.
  unfold str_of_int, NilZero.string_of_int, NilZero.string_of_uint.
  destruct (Z.to_int z) as [d|d]; destruct d; simpl;
    try reflexivity; apply no_newline_uint.
Qed.

(** A stretch without line feed, then a line feed: one line. *)
Lemma lines_from_line (u cur rest : string) :
  no_newline u = true ->
  lines_from cur (u ++ nl ++ rest)%string
  = (cur ++ u)%string :: lines_from "" rest.
Proof.
  revert cur. induction u as [|c u IH]; intros cur Hu; simpl.
  - now rewrite append_nil_r.
  - simpl in Hu. apply andb_prop in Hu. destruct Hu as [Hc Hu].
    apply negb_true_iff in Hc. rewrite Hc.
    rewrite (IH _ Hu). unfold snoc. now rewrite append_assoc.
Qed.

Lemma concat_empty_cons (x : string) (l : list string) :
  String.concat "" (x :: l) = (x ++ String.concat "" l)%string.
Proof.
  destruct l as [|y l]; simpl; [now rewrite append_nil_r | reflexivity].
Qed.

(** Writing each line followed by a line feed gives a text whose lines are
    these lines. *)
Lemma lines_of_written (ls : list string) :
  Forall (fun l => no_newline l = true) ls ->
  lines_of (String.concat "" (map (fun l => l ++ nl)%string ls)) = ls.
Proof.
  induction ls as [|l ls IH]; intros H; [reflexivity|].
  inversion H as [|? ? Hl Hls]; subst.
  cbn [map]. rewrite concat_empty_cons, append_assoc.
  unfold lines_of. rewrite lines_from_line by exact Hl.
  simpl. f_equal. now apply IH.
Qed.

Lemma chapter_writes_lines (c : chapter T) :
  chapter_writes c = map (fun l => l ++ nl)%string (chapter_lines c).
Proof. reflexivity. Qed.

Lemma flat_map_writes (chapters : list (chapter T)) :
  flat_map chapter_writes chapters
  = map (fun l => l ++ nl)%string (flat_map chapter_lines chapters).
Proof.
  induction chapters as [|c cs IH]; [reflexivity|].
  cbn [flat_map]. rewrite map_app, IH, chapter_writes_lines. reflexivity.
Qed.

Lemma chapter_lines_no_newline (c : chapter T) :
  no_newline (chapter_title c) = true ->
  Forall (fun l => no_newline l = true) (chapter_lines c).
Proof.
  intros H. unfold chapter_lines.
  repeat constructor; simpl; rewrite ?no_newline_str_of_int; auto.
Qed.

End ChapterFile.

(** C7, as amended. [create_chapter_file] writes, at the path it is given,
    the header [;FFMETADATA1] and then, for each chapter in order, a block of
    five writes, each ending a line: the marker [[CHAPTER]], the timebase
    [TIMEBASE=1/1000], [START=] and [END=] with the integer milliseconds of
    the start and of the end, and [title=] with the title.  When no title
    holds a line feed, the lines of the file are exactly the header followed
    by these five lines per chapter, and none of them is blank. *)
Theorem chapter_file_format {T : Type} {num : Seconds T}
    (chapter_file : string) (chapters : list (chapter T)) (s : state T) :
  (snd (create_chapter_file chapter_file chapters s) = Ok tt
   /\ In (chapter_file, TextFile (chapter_file_content chapters))
        (scratch (fst (create_chapter_file chapter_file chapters s)))
   /\ chapter_file_content chapters
      = String.concat ""
          (map (fun l => l ++ nl)
             (";FFMETADATA1" :: flat_map chapter_lines chapters)%list))
  /\ (Forall (fun c => no_newline (chapter_title c) = true) chapters ->
      lines_of (chapter_file_content chapters)
      = (";FFMETADATA1"
         :: flat_map
              (fun c =>
                 [ "[CHAPTER]";
                   "TIMEBASE=1/1000";
                   ("START=" ++ str_of_int (sec_millis (chapter_start c)))
                     %string;
                   ("END=" ++ str_of_int (sec_millis (chapter_end c)))
                     %string;
                   ("title=" ++ chapter_title c)%string ]) chapters)%list
      /\ Forall (fun l => l <> "") (lines_of (chapter_file_content chapters))
      /\ List.length (lines_of (chapter_file_content chapters))
         = (1 + 5 * List.length chapters)%nat).
Proof.
  assert (C : chapter_file_content chapters
              = String.concat ""
                  (map (fun l => l ++ nl)
                     (";FFMETADATA1" :: flat_map chapter_lines chapters)%list)).
  { unfold chapter_file_content, chapter_file_writes.
    now rewrite flat_map_writes. }
  split.
  - split; [reflexivity|]. split; [|exact C].
    unfold create_chapter_file, write_file, modify, put_file. simpl.
    apply in_or_app. right. now left.
  - intros H.
    assert (L : lines_of (chapter_file_content chapters)
                = (";FFMETADATA1" :: flat_map chapter_lines chapters)%list).
    { rewrite C. apply lines_of_written.
      constructor; [reflexivity|].
      apply Forall_flat_map.
      apply Forall_impl with (2 := H).
      intros c Hc. now apply chapter_lines_no_newline. }
    split; [exact L|]. rewrite L. split.
    + constructor; [discriminate|].
      apply Forall_flat_map. apply Forall_forall. intros c _.
      unfold chapter_lines. repeat constructor; discriminate.
    + simpl. f_equal. clear.
      induction chapters as [|c cs IH]; [reflexivity|].
      cbn [flat_map]. rewrite length_app, IH. simpl. lia.
Qed.

Lemma chapter_file_format_witness :
  lines_of
    (chapter_file_content
       [ {| chapter_start := 0; chapter_end := 180;
            chapter_title := "01. One of These Days" |};
         {| chapter_start := 180; chapter_end := 380;
            chapter_title := "02. A Pillow of Winds" |} ]%list)
  = [ ";FFMETADATA1";
      "[CHAPTER]"; "TIMEBASE=1/1000"; "START=0"; "END=180000";
      "title=01. One of These Days";
      "[CHAPTER]"; "TIMEBASE=1/1000"; "START=180000"; "END=380000";
      "title=02. A Pillow of Winds" ]%list.
Proof.
  refine (proj1 (proj2 (chapter_file_format "/tmp/x/chapters.txt"
           [ {| chapter_start := 0; chapter_end := 180;
                chapter_title := "01. One of These Days" |};
             {| chapter_start := 180; chapter_end := 380;
                chapter_title := "02. A Pillow of Winds" |} ]%list
           initial_state) _)).
  repeat constructor.
Defined.

(** C7, as stated, fails: the block of a chapter has five lines, not four;
    the file of a single chapter has six lines. *)
Lemma chapter_block_has_five_lines :
  lines_of
    (chapter_file_content
       [ {| chapter_start := 0; chapter_end := 180;
            chapter_title := "01. One of These Days" |} ]%list)
  = [ ";FFMETADATA1";
      "[CHAPTER]"; "TIMEBASE=1/1000"; "START=0"; "END=180000";
      "title=01. One of These Days" ]%list
  /\ List.length
       (lines_of
          (chapter_file_content
             [ {| chapter_start := 0; chapter_end := 180;
                  chapter_title := "01. One of These Days" |} ]%list))
     <> (1 + 4 * 1)%nat.
Proof. split; [reflexivity | vm_compute; lia]. Qed.

(** ** The design of the loop, for a reader whose track numbers format

    The lemmas of this section are about [convert_with] at a reader whose
    titles can be formatted (integer track numbers) and a transcoder that
    exits with 0.  They do not apply to [get_track_metadata], whose track
    numbers are strings. *)

Section ByDesign.

Context {T : Type} {num : Seconds T}.
Context (reader : string -> metadata T) (w : world T) (self : converter)
  (progress_callback : bool).

Hypothesis transcoder_ok : forall cmd, subprocess_run w cmd = None.

Local Open Scope list_scope.

Lemma track_outcome_by_design (n i : nat) (f : string) (s : state T)
    (ttl : string) :
  chapter_title_of (reader f) = Ok ttl ->
  let r := track_outcome reader w self progress_callback n i f s in
  snd r = Ok tt
  /\ chapter_data (fst r)
     = chapter_data s
       ++ [ {| chapter_start := total_duration s;
               chapter_end := sec_add (total_duration s)
                                (duration (reader f));
               chapter_title := ttl |} ]
  /\ total_duration (fst r)
     = sec_add (total_duration s) (duration (reader f))
  /\ progress (fst r)
     = progress s
       ++ (if progress_callback
           then [(track_status n i, track_percent n i)] else []).
Proof.
  intros Httl. cbv zeta. unfold track_outcome.
  rewrite transcoder_ok, Httl.
  destruct progress_callback; simpl;
    repeat split; try reflexivity; now rewrite app_nil_r.
Qed.

Lemma tracks_loop_by_design (n : nat) (files : list string) :
  forall i s,
    (forall f, In f files -> exists ttl, chapter_title_of (reader f) = Ok ttl)
    ->
    let r := tracks_loop reader w self progress_callback n i files s in
    snd r = Ok tt
    /\ chapter_data (fst r)
       = chapter_data s
         ++ chapters_from (total_duration s) (map reader files)
    /\ progress (fst r)
       = progress s
         ++ (if progress_callback
             then track_reports n i (List.length files) else []).
Proof.
  induction files as [|f rest IH]; intros i s Hfiles; cbv zeta.
  - simpl. rewrite !app_nil_r.
    destruct progress_callback; now rewrite ?app_nil_r.
  - destruct (Hfiles f (or_introl eq_refl)) as [ttl Httl].
    cbn [tracks_loop]. unfold bind. rewrite process_track_outcome.
    destruct (track_outcome_by_design n i f s ttl Httl)
      as (R & C & D & P).
    destruct (track_outcome reader w self progress_callback n i f s)
      as [s1 r1].
    simpl in R, C, D, P. subst r1.
    destruct (IH (S i) s1) as (R' & C' & P').
    { intros g Hg. apply Hfiles. now right. }
    split; [exact R'|]. split.
    + rewrite C', C, D. cbn [map chapters_from].
      unfold title_or_empty. rewrite Httl. now rewrite <- app_assoc.
    + rewrite P', P. rewrite <- app_assoc.
      destruct progress_callback; reflexivity.
Qed.

(** With such a reader the run is successful, the chapter list is the list
    of the tracks laid end to end from 0, and the sink receives the
    percentages of the tracks, then 50, 75 and 100. *)
Lemma run_by_design :
  ready self = true ->
  (forall f, In f (flac_files self) ->
     exists ttl, chapter_title_of (reader f) = Ok ttl) ->
  let r := convert_with reader w self progress_callback initial_state in
  snd r = Ok true
  /\ chapter_data (fst r)
     = chapters_from sec_zero (map reader (flac_files self))
  /\ percents (fst r)
     = if progress_callback
       then map (track_percent (List.length (flac_files self)))
              (seq 0 (List.length (flac_files self)))
            ++ [50; 75; 100]
       else [].
Proof.
  intros R Hfiles. cbv zeta. rewrite convert_with_ready by exact R.
  destruct (tracks_loop_by_design (List.length (flac_files self))
              (flac_files self) 0 initial_state Hfiles) as (L & C & P).
  destruct (tracks_loop reader w self progress_callback _ 0 _ initial_state)
    as [s1 r1].
  simpl in L, C, P. subst r1.
  unfold combine_outcome. rewrite transcoder_ok. unfold percents.
  destruct progress_callback; simpl; rewrite ?C, ?P.
  - split; [reflexivity|]. split; [reflexivity|].
    unfold track_reports. rewrite !map_app, map_map. simpl.
    now rewrite <- !app_assoc.
  - now repeat split.
Qed.

End ByDesign.

Section Layout.

Context {T : Type} {num : Seconds T}.

Local Open Scope list_scope.

Lemma chapters_from_length (mds : list (metadata T)) :
  forall t, List.length (chapters_from t mds) = List.length mds.
Proof. induction mds as [|md rest IH]; intros t; simpl; congruence. Qed.

Lemma fold_left_sec_add (ds : list T) :
  forall t d, fold_left sec_add (ds ++ [d]) t
              = sec_add (fold_left sec_add ds t) d.
Proof. intros t d. now rewrite fold_left_app. Qed.

(** The entry of track [k] starts at the running total before it and ends
    at this total plus the duration of the track. *)
Lemma chapters_from_nth (mds : list (metadata T)) :
  forall t k md,
    nth_error mds k = Some md ->
    nth_error (chapters_from t mds) k
    = Some {| chapter_start :=
                fold_left sec_add (map duration (firstn k mds)) t;
              chapter_end :=
                sec_add (fold_left sec_add (map duration (firstn k mds)) t)
                  (duration md);
              chapter_title := title_or_empty md |}.
Proof.
  induction mds as [|m rest IH]; intros t k md Hk.
  - destruct k; discriminate.
  - destruct k as [|k]; simpl in Hk |- *.
    + now inversion Hk.
    + now apply IH.
Qed.

Lemma firstn_succ_nth (A : Type) (l : list A) :
  forall k x, nth_error l k = Some x -> firstn (S k) l = firstn k l ++ [x].
Proof.
  induction l as [|a l IH]; intros k x Hk.
  - destruct k; discriminate.
  - destruct k as [|k]; simpl in Hk |- *.
    + now inversion Hk.
    + f_equal. now apply IH.
Qed.

(** One entry per track, in the order of the tracks; the first starts at 0;
    each ends where the next starts; the entry of track [k] runs from the
    cumulative duration of the first [k] tracks to that of the first
    [k + 1]. *)
Lemma chapters_from_contiguous (mds : list (metadata T)) :
  List.length (chapters_from sec_zero mds) = List.length mds
  /\ (forall k md,
        nth_error mds k = Some md ->
        exists c,
          nth_error (chapters_from sec_zero mds) k = Some c
          /\ chapter_start c = cumulative mds k
          /\ chapter_end c = cumulative mds (S k)
          /\ chapter_end c = sec_add (chapter_start c) (duration md)
          /\ chapter_title c = title_or_empty md)
  /\ (forall k c c',
        nth_error (chapters_from sec_zero mds) k = Some c ->
        nth_error (chapters_from sec_zero mds) (S k) = Some c' ->
        chapter_end c = chapter_start c').
Proof.
  split; [apply chapters_from_length|].
  assert (N : forall k md,
            nth_error mds k = Some md ->
            exists c,
              nth_error (chapters_from sec_zero mds) k = Some c
              /\ chapter_start c = cumulative mds k
              /\ chapter_end c = cumulative mds (S k)
              /\ chapter_end c = sec_add (chapter_start c) (duration md)
              /\ chapter_title c = title_or_empty md).
  { intros k md Hk. eexists. split; [exact (chapters_from_nth mds sec_zero k md Hk)|].
    simpl. unfold cumulative.
    rewrite (firstn_succ_nth _ mds k md Hk), map_app. simpl.
    rewrite fold_left_sec_add. now repeat split. }
  split; [exact N|].
  intros k c c' Hc Hc'.
  assert (Hk : (k < List.length mds)%nat).
  { rewrite <- (chapters_from_length mds sec_zero).
    apply nth_error_Some. congruence. }
  assert (Hk' : (S k < List.length mds)%nat).
  { rewrite <- (chapters_from_length mds sec_zero).
    apply nth_error_Some. congruence. }
  destruct (nth_error mds k) as [md|] eqn:E;
    [|apply nth_error_None in E; lia].
  destruct (nth_error mds (S k)) as [md'|] eqn:E';
    [|apply nth_error_None in E'; lia].
  destruct (N k md E) as (d & Hd & _ & Hend & _).
  destruct (N (S k) md' E') as (d' & Hd' & Hstart & _).
  rewrite Hc in Hd. rewrite Hc' in Hd'.
  inversion Hd; inversion Hd'; subst. congruence.
Qed.

End Layout.

(** The percentages of the tracks lie in [0, 50) and do not decrease. *)
Lemma track_percent_bounds (n i : nat) :
  (i < n)%nat -> 0 <= track_percent n i < 50.
Proof.
  intros H. unfold track_percent. split.
  - apply Z.div_pos; lia.
  - apply Z.div_lt_upper_bound; lia.
Qed.

Lemma track_percent_mono (n i j : nat) :
  (0 < n)%nat -> (i <= j)%nat -> track_percent n i <= track_percent n j.
Proof.
  intros Hn H. unfold track_percent. apply Z.div_le_mono; lia.
Qed.

(** ** Examples *)

Example split_example :
  split "  01.  Dark	Side of the Moon " =
  ["01."; "Dark"; "Side"; "of"; "the"; "Moon"].
Proof. reflexivity. Qed.

Example format_examples :
  format_0d 2 7 = "07" /\ format_0d 2 12 = "12" /\ format_0d 2 123 = "123"
  /\ format_0d 2 (-5) = "-5" /\ format_0d 3 (-5) = "-05" /\ format_0d 3 4 = "004".
Proof. repeat split; reflexivity. Qed.

Example stem_examples :
  splitext_root (basename "/music/01 - Intro.flac") = "01 - Intro"
  /\ splitext_root (basename "/music/.hidden") = ".hidden"
  /\ splitext_root (basename "a.b/noext") = "noext"
  /\ splitext_root (basename "x/y.tar.gz") = "y.tar".
Proof. repeat split; reflexivity. Qed.

(** A run on three readable, tagged tracks: the sink receives one call, the
    first encode request is issued, and the run raises. *)
Example run_of_three_tracks :
  run_convert Demo.world0
    (Demo.job ["/music/01.flac"; "/music/02.flac"; "/music/03.flac"]) true
  = ({| progress := [("Processing track 1/3", 0)];
        commands :=
          [[ "ffmpeg"; "-y"; "-loop"; "1"; "-i";
             "/tmp/flac_to_mkv_x/frame_000.png"; "-i"; "/music/01.flac";
             "-c:v"; "libx264"; "-preset"; "medium"; "-crf"; "18"; "-c:a";
             "copy"; "-t"; "180"; "-pix_fmt"; "yuv420p"; "-r"; "1";
             "/tmp/flac_to_mkv_x/video_000.mkv" ]];
        scratch := [];
        total_duration := 0;
        chapter_data := [];
        video_segments := ["/tmp/flac_to_mkv_x/video_000.mkv"] |},
     Raise
       (RuntimeError
          "Conversion error: Unknown format code 'd' for object of type 'str'")).
Proof. reflexivity. Qed.

(** The scenario of the specification (tracks of 180, 200 and 150 seconds),
    for a reader whose track numbers are integers. *)
Example chapters_of_three_tracks :
  let md (t : string) (k len : Z) : metadata Z :=
    {| title := t; artist := "Pink Floyd"; album := "Meddle";
       track_number := Int k; duration := len;
       sample_rate := 96000; bits_per_sample := 24; channels := 2 |} in
  map (fun c => (sec_millis (chapter_start c), sec_millis (chapter_end c),
                 chapter_title c))
    (chapters_from 0
       [md "One of These Days" 1 180; md "A Pillow of Winds" 2 200;
        md "Fearless" 3 150])
  = [ (0, 180000, "01. One of These Days");
      (180000, 380000, "02. A Pillow of Winds");
      (380000, 530000, "03. Fearless") ].
Proof. reflexivity. Qed.

Example wrap_examples :
  wrap_text Demo.world0 "  ab cd   efghijkl mn o p" DefaultFont 50
  = ["ab cd"; "efghijkl"; "mn o"; "p"]
  /\ wrap_text Demo.world0 "" DefaultFont 50 = [].
Proof. split; reflexivity. Qed.

(** The same loop with a reader whose track numbers are integers runs to
    the end. *)
Example run_with_integer_track_numbers :
  let r :=
    convert_with Demo.int_reader Demo.world0
      (Demo.job ["/a.flac"; "/bb.flac"]) true initial_state in
  snd r = Ok true
  /\ percents (fst r) = [0; 25; 50; 75; 100]
  /\ map (fun c => (chapter_start c, chapter_end c, chapter_title c))
       (chapter_data (fst r))
     = [(0, 70, "07. a"); (70, 150, "08. bb")].
Proof. repeat split; reflexivity. Qed.

(* ================================================================= *)
(** * Further properties of the program *)

(** ** Selecting the inputs *)

Section Selection.

Local Open Scope list_scope.

Abbreviation leq := (fun a b : string => String.leb a b = true).

Lemma insert_sorted_perm (x : string) (l : list string) :
  Permutation (x :: l) (insert_sorted x l).
Proof.
  induction l as [|y l IH]; simpl.
  - apply Permutation_refl.
  - destruct (String.leb x y).
    + apply Permutation_refl.
    + apply perm_trans with (y :: x :: l); [apply perm_swap|].
      now apply perm_skip.
Qed.

Lemma sorted_perm (l : list string) : Permutation l (sorted l).
Proof.
  induction l as [|x l IH]; simpl.
  - apply perm_nil.
  - apply perm_trans with (x :: sorted l).
    + now apply perm_skip.
    + apply insert_sorted_perm.
Qed.

Lemma insert_sorted_hd (x y : string) (l : list string) :
  String.leb y x = true -> HdRel leq y l -> HdRel leq y (insert_sorted x l).
Proof.
  intros Hyx H. destruct l as [|z l]; simpl.
  - now constructor.
  - destruct (String.leb x z); constructor; [assumption|].
    now inversion H.
Qed.

Lemma insert_sorted_sorted (x : string) (l : list string) :
  Sorted leq l -> Sorted leq (insert_sorted x l).
Proof.
  induction l as [|y l IH]; intros H; simpl.
  - repeat constructor.
  - inversion H as [|? ? Hs Hh]; subst.
    destruct (String.leb x y) eqn:E.
    + constructor; [assumption | now constructor].
    + constructor; [now apply IH|].
      apply insert_sorted_hd; [|assumption].
      destruct (String.leb_total x y) as [L | L]; congruence.
Qed.

Lemma sorted_sorted (l : list string) : Sorted leq (sorted l).
Proof.
  induction l as [|x l IH]; simpl; [constructor|].
  now apply insert_sorted_sorted.
Qed.

Lemma sorted_length (l : list string) :
  List.length (sorted l) = List.length l.
Proof. symmetry. apply Permutation_length, sorted_perm. Qed.

(** Selecting never undoes readiness: an answer replaces the field or leaves
    it as it was. *)
Lemma select_flac_files_ready (self : converter) (files : list string) :
  ready self = true -> ready (fst (select_flac_files self files)) = true.
Proof.
  intros R. destruct files as [|f fs]; [exact R|].
  unfold ready in *. cbn [select_flac_files fst flac_files cover_art_path
                           output_path].
  rewrite sorted_length. simpl List.length.
  apply andb_prop in R. destruct R as [R O].
  apply andb_prop in R. destruct R as [_ C].
  now rewrite C, O.
Qed.

Lemma select_cover_art_ready (self : converter) (file : string) :
  ready self = true -> ready (fst (select_cover_art self file)) = true.
Proof.
  intros R. destruct file as [|c file]; [exact R|].
  unfold ready in *. cbn [select_cover_art fst flac_files cover_art_path
                           output_path].
  apply andb_prop in R. destruct R as [R O].
  apply andb_prop in R. destruct R as [F _].
  now rewrite F, O.
Qed.

Lemma select_output_path_ready (self : converter) (file : string) :
  ready self = true -> ready (fst (select_output_path self file)) = true.
Proof.
  intros R. destruct file as [|c file]; [exact R|].
  unfold ready in *. cbn [select_output_path fst flac_files cover_art_path
                            output_path].
  apply andb_prop in R. destruct R as [R _].
  now rewrite R.
Qed.

End Selection.

(** X1. When the file dialog returns at least one path,
    [select_flac_files] returns [True] and stores the paths in ascending
    string order: the stored list is sorted and is a permutation of the
    answer (nothing dropped, duplicates kept); the artwork and output paths
    are untouched. *)
Theorem select_flac_files_sorts (self : converter) (files : list string) :
  files <> []%list ->
  snd (select_flac_files self files) = true
  /\ Sorted (fun a b => String.leb a b = true)
       (flac_files (fst (select_flac_files self files)))
  /\ Permutation files (flac_files (fst (select_flac_files self files)))
  /\ cover_art_path (fst (select_flac_files self files))
     = cover_art_path self
  /\ output_path (fst (select_flac_files self files)) = output_path self.
Proof.
  intros H. destruct files as [|f fs]; [contradiction|].
  cbn [select_flac_files fst snd flac_files cover_art_path output_path].
  split; [reflexivity|]. split; [apply sorted_sorted|].
  split; [apply sorted_perm|]. now split.
Qed.

Lemma select_flac_files_sorts_witness :
  flac_files
    (fst (select_flac_files new_converter
            ["/m/10.flac"; "/m/02.flac"; "/m/1.flac"; "/m/02.flac"]%list))
  = ["/m/02.flac"; "/m/02.flac"; "/m/1.flac"; "/m/10.flac"]%list
  /\ Permutation
       ["/m/10.flac"; "/m/02.flac"; "/m/1.flac"; "/m/02.flac"]%list
       (flac_files
          (fst (select_flac_files new_converter
                  ["/m/10.flac"; "/m/02.flac"; "/m/1.flac";
                   "/m/02.flac"]%list))).
Proof.
  split; [reflexivity|].
  apply (select_flac_files_sorts new_converter
           ["/m/10.flac"; "/m/02.flac"; "/m/1.flac"; "/m/02.flac"]%list).
  discriminate.
Defined.

(** ** The window *)

Section Window.

Context {T : Type} {num : Seconds T} (w : world T).

Local Open Scope list_scope.

(** Reporting progress touches the status and the bar only. *)
Lemma update_progress_fold (calls : list (string * Z)) :
  forall g,
    let h :=
      fold_left
        (fun h call => ConverterGUI.update_progress (fst call) (snd call) h)
        calls g in
    gui_converter h = gui_converter g
    /\ flac_label h = flac_label g /\ cover_label h = cover_label g
    /\ output_label h = output_label g
    /\ message_boxes h = message_boxes g.
Proof.
  induction calls as [|c calls IH]; intros g; cbv zeta; simpl.
  - now repeat split.
  - destruct (IH (ConverterGUI.update_progress (fst c) (snd c) g))
      as (A & B & C & D & E).
    now repeat split.
Qed.

(** The text of the exception that leaves [convert_to_mkv]: the guard's
    when an input is missing, otherwise that of the first track. *)
Lemma run_convert_raises (self : converter) :
  exists msg,
    snd (run_convert w self true) = Raise msg
    /\ (ready self = false ->
        msg = ValueError "Missing required files or output path")
    /\ (ready self = true ->
        exists text,
          msg = RuntimeError text
          /\ text <> "Missing required files or output path").
Proof.
  destruct (ready self) eqn:R.
  - destruct (ready_files self R) as (f & rest & F).
    rewrite (run_convert_ready w self true f rest R F).
    eexists. split; [reflexivity|]. split; [discriminate|].
    intros _. eexists. split; [reflexivity|].
    destruct (subprocess_run w _); discriminate.
  - unfold run_convert, convert_to_mkv.
    rewrite convert_with_not_ready by exact R.
    eexists. split; [reflexivity|]. split; [reflexivity | discriminate].
Qed.

Lemma ready_converter_after (self : converter) :
  ready (converter_after w self) = ready self.
Proof.
  unfold converter_after. now destruct (ready self) eqn:R.
Qed.

Lemma start_conversion_effect (g : window) :
  let g' := ConverterGUI.start_conversion w g in
  gui_converter g' = converter_after w (gui_converter g)
  /\ flac_label g' = flac_label g /\ cover_label g' = cover_label g
  /\ output_label g' = output_label g
  /\ convert_btn g' = "normal"
  /\ status_label g' = "Ready"
  /\ progress_value g' = 0
  /\ exists e,
       snd (run_convert w (gui_converter g) true) = Raise e
       /\ message_boxes g'
          = message_boxes g
            ++ [ShowError "Error" ("Conversion failed: " ++ exn_str e)].
Proof.
  cbv zeta. unfold ConverterGUI.start_conversion.
  cbn [gui_converter flac_label cover_label output_label convert_btn
         progress_value status_label message_boxes].
  destruct (run_convert_raises (gui_converter g)) as (e & E & _).
  destruct (run_convert w (gui_converter g) true) as [s r].
  simpl in E. subst r.
  match goal with
  | |- context [fold_left ?f ?l ?a] =>
      destruct (update_progress_fold l a) as (A & B & C & D & F)
  end.
  cbn [gui_converter flac_label cover_label output_label message_boxes]
    in A, B, C, D, F.
  cbn [ConverterGUI.messagebox gui_converter flac_label cover_label
         output_label convert_btn status_label progress_value message_boxes].
  repeat split; try assumption.
  exists e. split; [reflexivity|]. now rewrite F.
Qed.

Lemma check_ready_ok (g : window) :
  (convert_btn g = "normal" -> ready (gui_converter g) = true) ->
  convert_btn (ConverterGUI.check_ready g) = "normal" ->
  ready (gui_converter (ConverterGUI.check_ready g)) = true.
Proof.
  unfold ConverterGUI.check_ready.
  destruct (ready (gui_converter g)) eqn:R; simpl; [now rewrite R|].
  intros H N. discriminate (H N).
Qed.

Lemma check_ready_boxes (g : window) :
  message_boxes (ConverterGUI.check_ready g) = message_boxes g.
Proof.
  unfold ConverterGUI.check_ready. now destruct (ready (gui_converter g)).
Qed.

Lemma handle_ok (g : window) (e : ConverterGUI.event) :
  window_ok g -> window_ok (ConverterGUI.handle w g e).
Proof.
  intros [B M]. destruct e as [files | file | file |]; simpl.
  - unfold ConverterGUI.select_flac_files.
    pose proof (select_flac_files_ready (gui_converter g) files) as K.
    destruct (select_flac_files (gui_converter g) files) as [c [|]];
      [|now split].
    split.
    + apply check_ready_ok. simpl. intros N. apply K. now apply B.
    + rewrite check_ready_boxes. exact M.
  - unfold ConverterGUI.select_cover_art.
    pose proof (select_cover_art_ready (gui_converter g) file) as K.
    destruct (select_cover_art (gui_converter g) file) as [c [|]];
      [|now split].
    split.
    + apply check_ready_ok. simpl. intros N. apply K. now apply B.
    + rewrite check_ready_boxes. exact M.
  - unfold ConverterGUI.select_output_path.
    pose proof (select_output_path_ready (gui_converter g) file) as K.
    destruct (select_output_path (gui_converter g) file) as [c [|]];
      [|now split].
    split.
    + apply check_ready_ok. simpl. intros N. apply K. now apply B.
    + rewrite check_ready_boxes. exact M.
  - destruct (String.eqb (convert_btn g) "normal") eqn:E; [|now split].
    apply String.eqb_eq in E. pose proof (B E) as R.
    destruct (start_conversion_effect g)
      as (C & _ & _ & _ & _ & _ & _ & e & He & Hm).
    split.
    + intros _. now rewrite C, ready_converter_after.
    + intros m Hin. rewrite Hm in Hin. apply in_app_or in Hin.
      destruct Hin as [Hin | [Hin | []]]; [now apply M|].
      subst m.
      destruct (run_convert_raises (gui_converter g)) as (e' & He' & _ & K).
      rewrite He in He'. inversion He'; subst e'.
      destruct (K R) as (text & -> & Ht).
      now exists text.
Qed.

Lemma session_ok (events : list ConverterGUI.event) :
  window_ok (ConverterGUI.session w events).
Proof.
  unfold ConverterGUI.session.
  assert (G : forall g, window_ok g ->
                window_ok (fold_left (ConverterGUI.handle w) events g)).
  { induction events as [|e events IH]; intros g H; simpl; [exact H|].
    apply IH. now apply handle_ok. }
  apply G. split; [discriminate | intros m []].
Qed.

End Window.

(** X2. Whatever the user does with the window (answers of the three
    dialogs, presses of the convert button), the convert button is enabled
    only when the converter holds at least one track, an artwork path and an
    output path: a conversion started from the window never meets the guard
    of [convert_to_mkv]. *)
Theorem convert_button_needs_all_inputs {T : Type} {num : Seconds T}
    (w : world T) (events : list ConverterGUI.event) :
  convert_btn (ConverterGUI.session w events) = "normal" ->
  flac_files (gui_converter (ConverterGUI.session w events)) <> []%list
  /\ cover_art_path (gui_converter (ConverterGUI.session w events)) <> ""
  /\ output_path (gui_converter (ConverterGUI.session w events)) <> "".
Proof.
  intros N. destruct (session_ok w events) as [B _].
  pose proof (B N) as R. unfold ready in R.
  apply andb_prop in R. destruct R as [R O].
  apply andb_prop in R. destruct R as [F C].
  destruct (gui_converter (ConverterGUI.session w events))
    as [files cover out tmp].
  simpl in *.
  repeat split; intros E; subst; discriminate.
Qed.

Lemma convert_button_needs_all_inputs_witness :
  flac_files
    (gui_converter
       (ConverterGUI.session Demo.world0
          [ConverterGUI.PressSelectOutputPath "/out/a.mkv";
           ConverterGUI.PressSelectFlacFiles ["/music/01.flac"];
           ConverterGUI.PressSelectCoverArt "/music/cover.jpg"]%list))
  <> []%list.
Proof.
  apply (convert_button_needs_all_inputs Demo.world0
           [ConverterGUI.PressSelectOutputPath "/out/a.mkv";
            ConverterGUI.PressSelectFlacFiles ["/music/01.flac"];
            ConverterGUI.PressSelectCoverArt "/music/cover.jpg"]%list).
  reflexivity.
Defined.

(** X3. In every session of the window, each message box shown is the error
    box "Conversion failed: ..." of a conversion, its text is never the
    guard's "Missing required files or output path", and the box
    "MKV file created successfully!" is never shown. *)
Theorem window_shows_only_conversion_errors {T : Type} {num : Seconds T}
    (w : world T) (events : list ConverterGUI.event) (m : message_box) :
  In m (message_boxes (ConverterGUI.session w events)) ->
  (exists text,
     m = ShowError "Error" ("Conversion failed: " ++ text)
     /\ text <> "Missing required files or output path")
  /\ m <> ShowInfo "Success" "MKV file created successfully!".
Proof.
  intros H. destruct (session_ok w events) as [_ M].
  destruct (M m H) as (text & -> & Ht).
  split; [now exists text | discriminate].
Qed.

Lemma window_shows_only_conversion_errors_witness :
  message_boxes
    (ConverterGUI.session Demo.world0
       [ConverterGUI.PressSelectOutputPath "/out/a.mkv";
        ConverterGUI.PressConvert;
        ConverterGUI.PressSelectFlacFiles ["/music/01.flac"];
        ConverterGUI.PressSelectCoverArt "/music/cover.jpg";
        ConverterGUI.PressConvert]%list)
  = [ShowError "Error"
       "Conversion failed: Conversion error: Unknown format code 'd' for object of type 'str'"]%list
  /\ ShowError "Error"
       "Conversion failed: Conversion error: Unknown format code 'd' for object of type 'str'"
     <> ShowInfo "Success" "MKV file created successfully!".
Proof.
  split; [reflexivity|].
  apply (window_shows_only_conversion_errors Demo.world0
           [ConverterGUI.PressSelectOutputPath "/out/a.mkv";
            ConverterGUI.PressConvert;
            ConverterGUI.PressSelectFlacFiles ["/music/01.flac"];
            ConverterGUI.PressSelectCoverArt "/music/cover.jpg";
            ConverterGUI.PressConvert]%list).
  vm_compute. left. reflexivity.
Defined.

(** X4. [start_conversion] always leaves the window with the convert button
    enabled, the status "Ready" and the progress bar at 0, whatever the
    converter reported meanwhile; it shows exactly one more message box and
    changes neither the three file labels nor the three inputs of the
    converter.  The attribute [temp_dir] of the converter is the one thing
    that the conversion changes: past the guard it holds the path of the
    scratch directory of this conversion. *)
Theorem start_conversion_resets {T : Type} {num : Seconds T} (w : world T)
    (g : window) :
  let g' := ConverterGUI.start_conversion w g in
  convert_btn g' = "normal"
  /\ status_label g' = "Ready"
  /\ progress_value g' = 0
  /\ List.length (message_boxes g') = S (List.length (message_boxes g))
  /\ flac_files (gui_converter g') = flac_files (gui_converter g)
  /\ cover_art_path (gui_converter g') = cover_art_path (gui_converter g)
  /\ output_path (gui_converter g') = output_path (gui_converter g)
  /\ temp_dir (gui_converter g')
     = (if ready (gui_converter g) then Some (mkdtemp w)
        else temp_dir (gui_converter g))
  /\ flac_label g' = flac_label g /\ cover_label g' = cover_label g
  /\ output_label g' = output_label g.
Proof.
  cbv zeta.
  destruct (start_conversion_effect w g)
    as (C & F & V & O & B & S & P & e & _ & M).
  rewrite M, length_app, C. unfold converter_after. simpl.
  destruct (ready (gui_converter g)); simpl;
    repeat split; try assumption; lia.
Qed.

(** ** Every run, for every metadata reader *)

Section EveryRun.

Context {T : Type} {num : Seconds T}.
Context (reader : string -> metadata T) (w : world T) (self : converter)
  (progress_callback : bool).

Local Open Scope list_scope.

Lemma firstn_app_exact (A : Type) (l l' : list A) :
  firstn (List.length l) (l ++ l') = l.
Proof.
  rewrite firstn_app, Nat.sub_diag, firstn_all. simpl.
  now rewrite app_nil_r.
Qed.

(** The loop issues the encode requests of its tracks in order and stops at
    the first iteration that raises. *)
Lemma commands_tracks_loop (n : nat) (files : list string) :
  forall i s,
    exists k,
      (k <= List.length files)%nat
      /\ commands (fst (tracks_loop reader w self progress_callback n i
                          files s))
         = commands s ++ firstn k (encode_requests reader w i files)
      /\ (snd (tracks_loop reader w self progress_callback n i files s)
          = Ok tt -> k = List.length files).
Proof.
  induction files as [|f rest IH]; intros i s.
  - exists 0%nat. simpl. rewrite app_nil_r. now repeat split.
  - cbn [tracks_loop]. unfold bind. rewrite process_track_outcome.
    pose proof (commands_track_outcome reader w self progress_callback n i f
                  s) as C.
    destruct (track_outcome reader w self progress_callback n i f s)
      as [s1 [[]|e]]; simpl in C.
    + destruct (IH (S i) s1) as (k & Hk & E & F).
      exists (S k). split; [simpl; lia|]. split.
      * rewrite E, C. cbn [encode_requests firstn].
        now rewrite <- app_assoc.
      * intros H. simpl. f_equal. now apply F.
    + exists 1%nat. split; [simpl; lia|]. split.
      * simpl. exact C.
      * discriminate.
Qed.

Lemma encode_requests_length (files : list string) :
  forall i,
    List.length (encode_requests reader w i files) = List.length files.
Proof.
  induction files as [|f l IH]; intros i; simpl;
    [reflexivity | now rewrite IH].
Qed.

Lemma commands_of_every_run :
  exists k,
    commands (fst (convert_with reader w self progress_callback
                     initial_state))
    = firstn k (all_commands reader w self)
    /\ (snd (convert_with reader w self progress_callback initial_state)
        = Ok true ->
        commands (fst (convert_with reader w self progress_callback
                         initial_state))
        = all_commands reader w self).
Proof.
  destruct (ready self) eqn:R.
  2:{ rewrite convert_with_not_ready by exact R.
      exists 0%nat. split; [reflexivity | discriminate]. }
  rewrite convert_with_ready by exact R.
  destruct (commands_tracks_loop (List.length (flac_files self))
              (flac_files self) 0 initial_state) as (k & Hk & E & F).
  pose proof (encode_requests_length (flac_files self) 0) as EL.
  destruct (tracks_loop reader w self progress_callback _ 0 _ initial_state)
    as [s1 [[]|e]]; simpl in E, F.
  - rewrite (F eq_refl) in E. rewrite <- EL, firstn_all in E.
    pose proof (commands_combine_outcome w self progress_callback s1) as C.
    assert (A : commands
                  (fst (combine_outcome w self progress_callback s1))
                = all_commands reader w self).
    { rewrite C, E. reflexivity. }
    destruct (combine_outcome w self progress_callback s1) as [s2 [b|e]];
      simpl in A |- *.
    + exists (List.length (all_commands reader w self)).
      rewrite firstn_all. now split.
    + exists (List.length (all_commands reader w self)).
      rewrite firstn_all. split; [exact A | discriminate].
  - exists k. simpl. split; [|discriminate].
    rewrite E. unfold all_commands.
    rewrite firstn_app.
    replace (k - List.length (encode_requests reader w 0 (flac_files self)))
      %nat with 0%nat by lia.
    simpl. now rewrite app_nil_r.
Qed.

End EveryRun.

Section Requests.

Context {T : Type} {num : Seconds T}.
Context (reader : string -> metadata T) (w : world T).

Local Open Scope list_scope.

Lemma encode_requests_nth (files : list string) :
  forall i j f,
    nth_error files j = Some f ->
    nth_error (encode_requests reader w i files) j
    = Some (encode_cmd (frame_path_of (mkdtemp w) (i + j)) f
              (duration (reader f)) (video_path_of (mkdtemp w) (i + j))).
Proof.
  induction files as [|g rest IH]; intros i j f H.
  - destruct j; discriminate.
  - destruct j as [|j]; simpl in H |- *.
    + inversion H; subst. now rewrite Nat.add_0_r.
    + rewrite (IH (S i) j f H).
      now replace (S i + j)%nat with (i + S j)%nat by lia.
Qed.

End Requests.

(** C8. The encode request of a track.  Each iteration of the loop of
    [convert_to_mkv] hands exactly one command to the transcoder, whatever
    the metadata reader returned: the frame image of the track is the first
    input, looped ([-loop 1]); the track's audio file is the second input
    and its audio stream is copied ([-c:a copy]); the video is encoded with
    libx264 at the fixed quality [-crf 18] and at one frame per second
    ([-r 1]); and the segment is cut ([-t]) at the duration that the reader
    measured for this track.  When the command is issued, the file at the
    path of the first input is the frame composed for this track.  In a run
    that returns, the command of index [i] is the request of track [i]; in a
    run of the source the first track has its request, and it is the only
    command issued. *)
Theorem encode_request_per_track {T : Type} {num : Seconds T} (w : world T)
    (self : converter) (progress_callback : bool) :
  let request (i : nat) (flac_file : string) (dur : T) : list string :=
    [ "ffmpeg"; "-y";
      "-loop"; "1"; "-i"; frame_path_of (mkdtemp w) i;
      "-i"; flac_file;
      "-c:v"; "libx264"; "-preset"; "medium"; "-crf"; "18";
      "-c:a"; "copy";
      "-t"; sec_str dur;
      "-pix_fmt"; "yuv420p";
      "-r"; "1";
      video_path_of (mkdtemp w) i ]%list in
  (forall (reader : string -> metadata T) (n i : nat) (flac_file : string)
          (s : state T),
     let md := reader flac_file in
     let s' :=
       fst (process_track reader w self progress_callback n i flac_file s) in
     commands s' = (commands s ++ [request i flac_file (duration md)])%list
     /\ file_at (frame_path_of (mkdtemp w) i) (scratch s')
        = Some
            (PngFile
               (create_video_frame w (cover_art_path self) (title md)
                  (track_number md) (artist md) (album md))))
  /\ (forall (reader : string -> metadata T),
        snd (convert_with reader w self progress_callback initial_state)
        = Ok true ->
        forall i flac_file,
          nth_error (flac_files self) i = Some flac_file ->
          nth_error
            (commands
               (fst (convert_with reader w self progress_callback
                       initial_state))) i
          = Some (request i flac_file (duration (reader flac_file))))
  /\ (forall flac_file rest,
        flac_files self = (flac_file :: rest)%list ->
        ready self = true ->
        commands (fst (run_convert w self progress_callback))
        = [request 0%nat flac_file
             (duration (get_track_metadata w flac_file))]%list).
Proof.
  cbv zeta. split; [|split].
  - intros reader n i flac_file s. rewrite process_track_outcome. split.
    + apply commands_track_outcome.
    + rewrite scratch_track_outcome. apply file_at_put.
  - intros reader S i flac_file Hi.
    destruct (commands_of_every_run reader w self progress_callback)
      as (_ & _ & E).
    rewrite (E S). unfold all_commands.
    rewrite nth_error_app1.
    + now rewrite (encode_requests_nth reader w (flac_files self) 0 i
                     flac_file Hi).
    + rewrite encode_requests_length. apply nth_error_Some. congruence.
  - intros flac_file rest F R.
    now rewrite (run_convert_ready w self progress_callback flac_file rest
                   R F).
Qed.

Lemma encode_request_per_track_witness :
  nth_error
    (commands
       (fst (convert_with Demo.int_reader_f Demo.world_f
               (Demo.job ["/music/01.flac"; "/music/02.flac"]%list) true
               initial_state))) 1
  = Some
      [ "ffmpeg"; "-y"; "-loop"; "1"; "-i";
        "/tmp/flac_to_mkv_x/frame_001.png"; "-i"; "/music/02.flac";
        "-c:v"; "libx264"; "-preset"; "medium"; "-crf"; "18"; "-c:a";
        "copy"; "-t"; "200.0"; "-pix_fmt"; "yuv420p"; "-r"; "1";
        "/tmp/flac_to_mkv_x/video_001.mkv" ]%list
  /\ commands
       (fst (run_convert Demo.world_f
               (Demo.job ["/music/01.flac"; "/music/02.flac"]%list) true))
     = [[ "ffmpeg"; "-y"; "-loop"; "1"; "-i";
          "/tmp/flac_to_mkv_x/frame_000.png"; "-i"; "/music/01.flac";
          "-c:v"; "libx264"; "-preset"; "medium"; "-crf"; "18"; "-c:a";
          "copy"; "-t"; "180.0"; "-pix_fmt"; "yuv420p"; "-r"; "1";
          "/tmp/flac_to_mkv_x/video_000.mkv" ]]%list.
Proof.
  destruct (encode_request_per_track Demo.world_f
              (Demo.job ["/music/01.flac"; "/music/02.flac"]%list) true)
    as (_ & B & C).
  split.
  - apply (B Demo.int_reader_f eq_refl 1%nat "/music/02.flac" eq_refl).
  - apply (C "/music/01.flac" ["/music/02.flac"]%list eq_refl eq_refl).
Defined.


Section Reports.

Context {T : Type} {num : Seconds T}.
Context (reader : string -> metadata T) (w : world T) (self : converter).

Local Open Scope list_scope.

(** Without a sink nothing is reported. *)
Lemma progress_tracks_loop_silent (n : nat) (files : list string) :
  forall i s,
    progress (fst (tracks_loop reader w self false n i files s))
    = progress s.
Proof.
  induction files as [|f rest IH]; intros i s; [reflexivity|].
  cbn [tracks_loop]. unfold bind. rewrite process_track_outcome.
  assert (Q : progress (fst (track_outcome reader w self false n i f s))
              = progress s).
  { unfold track_outcome. cbv beta iota zeta.
    destruct (subprocess_run w _); try reflexivity.
    destruct (chapter_title_of (reader f)); reflexivity. }
  destruct (track_outcome reader w self false n i f s) as [s1 [[]|e]];
    simpl in Q |- *; [|exact Q].
  now rewrite IH.
Qed.

(** With a sink the loop reports the percentages of its tracks in order and
    stops at the first iteration that raises. *)
Lemma progress_tracks_loop (n : nat) (files : list string) :
  forall i s,
    exists k,
      (k <= List.length files)%nat
      /\ map snd (progress (fst (tracks_loop reader w self true n i files
                                   s)))
         = map snd (progress s)
           ++ firstn k (map (track_percent n) (seq i (List.length files)))
      /\ (snd (tracks_loop reader w self true n i files s) = Ok tt ->
          k = List.length files).
Proof.
  induction files as [|f rest IH]; intros i s.
  - exists 0%nat. simpl. rewrite app_nil_r. now repeat split.
  - cbn [tracks_loop]. unfold bind. rewrite process_track_outcome.
    assert (P : map snd
                  (progress (fst (track_outcome reader w self true n i f s)))
                = map snd (progress s) ++ [track_percent n i]).
    { unfold track_outcome. cbv beta iota zeta.
      destruct (subprocess_run w _);
        try (simpl; now rewrite map_app);
        destruct (chapter_title_of (reader f)); simpl; now rewrite map_app. }
    destruct (track_outcome reader w self true n i f s) as [s1 [[]|e]];
      simpl in P.
    + destruct (IH (S i) s1) as (k & Hk & E & F).
      exists (S k). split; [simpl; lia|]. split.
      * rewrite E, P. cbn [List.length seq map firstn].
        now rewrite <- app_assoc.
      * intros H. simpl. f_equal. now apply F.
    + exists 1%nat. split; [simpl; lia|]. split; [|discriminate].
      simpl. exact P.
Qed.

Lemma percents_of_every_run (progress_callback : bool) :
  exists k,
    percents (fst (convert_with reader w self progress_callback
                     initial_state))
    = firstn k (all_percents (List.length (flac_files self))).
Proof.
  destruct (ready self) eqn:R.
  2:{ rewrite convert_with_not_ready by exact R. now exists 0%nat. }
  rewrite convert_with_ready by exact R. unfold percents.
  set (n := List.length (flac_files self)).
  destruct progress_callback.
  - destruct (progress_tracks_loop n (flac_files self) 0 initial_state)
      as (k & Hk & E & F).
    fold n in Hk, E, F.
    assert (ML : List.length (map (track_percent n) (seq 0 n)) = n).
    { now rewrite length_map, length_seq. }
    destruct (tracks_loop reader w self true n 0 _ initial_state)
      as [s1 [[]|e]]; simpl in E, F.
    + rewrite (F eq_refl) in E.
      rewrite <- ML in E at 1. rewrite firstn_all in E.
      unfold combine_outcome.
      destruct (subprocess_run w _); simpl; rewrite !map_app, E; simpl.
      * exists (n + 2)%nat. unfold all_percents.
        rewrite firstn_app, ML.
        replace (n + 2 - n)%nat with 2%nat by lia.
        rewrite firstn_all2 by (rewrite ML; lia).
        simpl. now rewrite <- app_assoc.
      * exists (n + 3)%nat. unfold all_percents.
        rewrite firstn_app, ML.
        replace (n + 3 - n)%nat with 3%nat by lia.
        rewrite firstn_all2 by (rewrite ML; lia).
        simpl. now rewrite <- !app_assoc.
    + exists k. simpl. rewrite E. unfold all_percents.
      rewrite firstn_app, ML.
      replace (k - n)%nat with 0%nat by lia.
      simpl. now rewrite app_nil_r.
  - exists 0%nat.
    pose proof (progress_tracks_loop_silent n (flac_files self) 0
                  initial_state) as E.
    destruct (tracks_loop reader w self false n 0 _ initial_state)
      as [s1 [[]|e]]; simpl in E.
    + unfold combine_outcome.
      destruct (subprocess_run w _); simpl; now rewrite E.
    + simpl. now rewrite E.
Qed.

End Reports.

Section FailFast.

Context {T : Type} {num : Seconds T}.
Context (reader : string -> metadata T) (w : world T) (self : converter)
  (progress_callback : bool).

Local Open Scope list_scope.

Abbreviation accepted :=
  (Forall (fun c : list string => subprocess_run w c = None)).

(** After the loop, either every command issued was accepted by the
    transcoder, or the loop raised on the last command issued. *)
Lemma tracks_loop_fail_fast (n : nat) (files : list string) :
  forall i s,
    accepted (commands s) ->
    match snd (tracks_loop reader w self progress_callback n i files s) with
    | Raise (CalledProcessError m) =>
        exists pre c,
          commands (fst (tracks_loop reader w self progress_callback n i
                           files s)) = pre ++ [c]
          /\ accepted pre /\ subprocess_run w c = Some m
    | _ =>
        accepted
          (commands (fst (tracks_loop reader w self progress_callback n i
                            files s)))
    end.
Proof.
  induction files as [|f rest IH]; intros i s H; [exact H|].
  cbn [tracks_loop]. unfold bind. rewrite process_track_outcome.
  pose proof (commands_track_outcome reader w self progress_callback n i f s)
    as C.
  assert (O : match snd (track_outcome reader w self progress_callback n i f
                           s) with
              | Raise (CalledProcessError m) =>
                  subprocess_run w
                    (encode_cmd (frame_path_of (mkdtemp w) i) f
                       (duration (reader f)) (video_path_of (mkdtemp w) i))
                  = Some m
              | _ =>
                  subprocess_run w
                    (encode_cmd (frame_path_of (mkdtemp w) i) f
                       (duration (reader f)) (video_path_of (mkdtemp w) i))
                  = None
              end).
  { unfold track_outcome. cbv beta iota zeta.
    destruct (subprocess_run w _); [reflexivity|].
    unfold chapter_title_of, format_02d.
    destruct (track_number (reader f)); reflexivity. }
  destruct (track_outcome reader w self progress_callback n i f s)
    as [s1 [[]|e]]; simpl in C, O.
  - apply IH. rewrite C. apply Forall_app. split; [exact H|].
    now constructor.
  - destruct e as [m | m | m | m | m | m | m | k m]; simpl;
      try (rewrite C; apply Forall_app; split; [exact H | now constructor]).
    rewrite C. eexists _, _. split; [reflexivity|]. now split.
Qed.

(** The body of the [try]: the loop, then the combine step. *)
Lemma convert_body_outcome (s : state T) :
  convert_body reader w self progress_callback s
  = match tracks_loop reader w self progress_callback
            (List.length (flac_files self)) 0 (flac_files self) s with
    | (s1, Raise e) => (s1, Raise e)
    | (s1, Ok _) => combine_outcome w self progress_callback s1
    end.
Proof.
  unfold convert_body, bind.
  destruct (tracks_loop _ _ _ _ _ _ _ s) as [s1 [[]|e]]; [|reflexivity].
  apply combine_segments_outcome.
Qed.

(** The body stops at the first command that the transcoder rejects, and
    raises nothing but the [CalledProcessError] of this command or the
    [ValueError] of a title. *)
Lemma convert_body_fail_fast :
  match snd (convert_body reader w self progress_callback initial_state) with
  | Raise (CalledProcessError m) =>
      exists pre c,
        commands (fst (convert_body reader w self progress_callback
                         initial_state)) = pre ++ [c]
        /\ accepted pre /\ subprocess_run w c = Some m
  | _ =>
      accepted
        (commands (fst (convert_body reader w self progress_callback
                          initial_state)))
  end.
Proof.
  rewrite convert_body_outcome.
  pose proof (tracks_loop_fail_fast (List.length (flac_files self))
                (flac_files self) 0 initial_state (Forall_nil _)) as L.
  destruct (tracks_loop reader w self progress_callback _ 0 _ initial_state)
    as [s1 [[]|e]]; simpl in L.
  - unfold combine_outcome.
    destruct (subprocess_run w _) eqn:E.
    + destruct progress_callback; simpl;
        eexists _, _; (split; [reflexivity|]); (split; [exact L | exact E]).
    + destruct progress_callback; simpl;
        apply Forall_app; (split; [exact L | now constructor]).
  - exact L.
Qed.

Lemma convert_body_raises (e : exn) :
  snd (convert_body reader w self progress_callback initial_state) = Raise e ->
  (exists m, e = CalledProcessError m) \/ (exists m, e = ValueError m).
Proof.
  rewrite convert_body_outcome.
  assert (L : forall files i s e,
            snd (tracks_loop reader w self progress_callback
                   (List.length (flac_files self)) i files s) = Raise e ->
            (exists m, e = CalledProcessError m)
            \/ (exists m, e = ValueError m)).
  { induction files as [|f rest IH]; intros i s e0; [discriminate|].
    cbn [tracks_loop]. unfold bind. rewrite process_track_outcome.
    destruct (track_outcome reader w self progress_callback _ i f s)
      as [s1 [[]|e1]] eqn:O; [apply IH|].
    simpl. intros E. inversion E; subst e1. clear E.
    unfold track_outcome in O. cbv zeta in O.
    destruct (subprocess_run w _) as [m|].
    - inversion O. left. now exists m.
    - unfold chapter_title_of, format_02d in O.
      destruct (track_number (reader f)); inversion O.
      right. eexists. reflexivity. }
  destruct (tracks_loop reader w self progress_callback _ 0 _ initial_state)
    as [s1 [[]|e1]] eqn:O.
  - unfold combine_outcome.
    destruct (subprocess_run w _) as [m|];
      destruct progress_callback; simpl; intros E; inversion E.
    + left. now exists m.
    + left. now exists m.
  - simpl. intros E. inversion E; subst e1.
    apply (L (flac_files self) 0%nat initial_state e). now rewrite O.
Qed.

End FailFast.

(** ** Runs on a host *)

Section OnHost.

Context {T : Type} {num : Seconds T}.
Context (reader : string -> metadata T) (h : host T) (self : converter)
  (progress_callback : bool).

Local Open Scope list_scope.

Lemma convert_on_not_ready (s : state T) :
  ready self = false ->
  convert_on reader h self progress_callback s
  = (s, Raise (ValueError "Missing required files or output path")).
Proof. intros R. unfold convert_on. now rewrite R. Qed.

Lemma convert_on_no_scratch (s : state T) (e : exn) :
  ready self = true -> mkdtemp_raises h = Some e ->
  convert_on reader h self progress_callback s = (s, Raise e).
Proof. intros R E. unfold convert_on. now rewrite R, E. Qed.

Lemma convert_on_ready (s : state T) :
  ready self = true -> mkdtemp_raises h = None ->
  convert_on reader h self progress_callback s
  = let b := convert_body reader (host_world h) self progress_callback s in
    (remove_scratch (fst b),
     match snd b with
     | Ok a => Ok a
     | Raise (CalledProcessError msg) =>
         match stderr_undecodable h (failed_command (fst b)) with
         | Some reason => Raise (UnicodeDecodeError reason)
         | None => Raise (RuntimeError ("FFmpeg error: " ++ msg))
         end
     | Raise e => Raise (RuntimeError ("Conversion error: " ++ exn_str e))
     end).
Proof.
  intros R E. unfold convert_on. rewrite R, E.
  unfold finally_cleanup, except_clauses_on. cbv zeta.
  destruct (convert_body reader (host_world h) self progress_callback s)
    as [s1 [a|e]]; [reflexivity|].
  destruct e; simpl; try reflexivity.
  now destruct (stderr_undecodable h (failed_command s1)).
Qed.

(** On a host where [tempfile.mkdtemp] returns and every error output can
    be decoded, the run is that of the world of the host. *)
Lemma convert_on_plain (s : state T) :
  mkdtemp_raises h = None ->
  (forall cmd, stderr_undecodable h cmd = None) ->
  convert_on reader h self progress_callback s
  = convert_with reader (host_world h) self progress_callback s.
Proof.
  intros E D. unfold convert_on, convert_with. rewrite E.
  destruct (ready self); [|reflexivity].
  unfold finally_cleanup, except_clauses_on, except_clauses.
  destruct (convert_body reader (host_world h) self progress_callback s)
    as [s1 [a|e]]; [reflexivity|].
  destruct e; simpl; try reflexivity. now rewrite D.
Qed.

End OnHost.

(** X5. What leaves [convert_to_mkv], for every metadata reader in place of
    [get_track_metadata] and on every host.  A converter that lacks a
    track, the artwork path or the output path gives [ValueError] before
    anything is done.  Otherwise, when [tempfile.mkdtemp] raises, its
    exception leaves unchanged and nothing has been done; when it returns,
    the run returns [True], or raises a [RuntimeError] whose text starts
    with "FFmpeg error: " or with "Conversion error: ", or raises the
    [UnicodeDecodeError] of the error output of the command that failed,
    which is the last command issued. *)
Theorem run_outcomes {T : Type} {num : Seconds T}
    (reader : string -> metadata T) (h : host T) (self : converter)
    (progress_callback : bool) :
  let run := convert_on reader h self progress_callback initial_state in
  match flac_files self, cover_art_path self, output_path self with
  | _ :: _, String _ _, String _ _ =>
      match mkdtemp_raises h with
      | Some e => run = (initial_state, Raise e)
      | None =>
          snd run = Ok true
          \/ (exists text,
                snd run = Raise (RuntimeError ("FFmpeg error: " ++ text)))
          \/ (exists text,
                snd run
                = Raise (RuntimeError ("Conversion error: " ++ text)))
          \/ (exists reason pre cmd,
                snd run = Raise (UnicodeDecodeError reason)
                /\ commands (fst run) = (pre ++ [cmd])%list
                /\ subprocess_run (host_world h) cmd <> None
                /\ stderr_undecodable h cmd = Some reason)
      end
  | _, _, _ =>
      run = (initial_state,
             Raise (ValueError "Missing required files or output path"))
  end.
Proof.
  cbv zeta.
  assert (N : ready self = false ->
              convert_on reader h self progress_callback initial_state
              = (initial_state,
                 Raise (ValueError "Missing required files or output path"))).
  { intros R. now apply convert_on_not_ready. }
  unfold ready in N.
  destruct (flac_files self) as [|f fs] eqn:F; [now apply N|].
  destruct (cover_art_path self) as [|c cs] eqn:C; [now apply N|].
  destruct (output_path self) as [|o os] eqn:O; [now apply N|].
  clear N.
  assert (R : ready self = true) by (unfold ready; now rewrite F, C, O).
  destruct (mkdtemp_raises h) as [e|] eqn:E.
  { now apply convert_on_no_scratch. }
  rewrite convert_on_ready by assumption. cbv zeta.
  pose proof (convert_body_fail_fast reader (host_world h) self
                progress_callback) as FF.
  pose proof (convert_body_raises reader (host_world h) self
                progress_callback) as BR.
  destruct (convert_body reader (host_world h) self progress_callback
              initial_state) as [s1 [b|e]] eqn:B; simpl in FF, BR |- *.
  - left. rewrite convert_body_outcome in B.
    destruct (tracks_loop reader (host_world h) self progress_callback _ 0 _
                initial_state) as [s0 [[]|e]]; [|discriminate].
    unfold combine_outcome in B.
    destruct (subprocess_run (host_world h) _); inversion B. reflexivity.
  - destruct (BR e eq_refl) as [[m ->] | [m ->]].
    + destruct FF as (pre & cmd & Hc & _ & Hs).
      unfold failed_command. rewrite Hc, last_last.
      destruct (stderr_undecodable h cmd) as [reason|] eqn:D.
      * right. right. right. exists reason, pre, cmd.
        split; [reflexivity|]. split; [reflexivity|].
        split; [congruence | exact D].
      * right. left. now exists m.
    + right. right. left. now exists m.
Qed.

(** X6. For every metadata reader, the commands that a run hands to the
    transcoder are an initial part of the sequence "encode request of track
    0, of track 1, ..., of the last track, then the combine": requests are
    issued in input order, once each, and the combine only after all of
    them; a run that returns has issued the whole sequence. *)
Theorem commands_in_track_order {T : Type} {num : Seconds T}
    (reader : string -> metadata T) (w : world T) (self : converter)
    (progress_callback : bool) :
  let run := convert_with reader w self progress_callback initial_state in
  (exists k, commands (fst run) = firstn k (all_commands reader w self))
  /\ (snd run = Ok true -> commands (fst run) = all_commands reader w self).
Proof.
  cbv zeta.
  destruct (commands_of_every_run reader w self progress_callback)
    as (k & E & F).
  split; [now exists k | exact F].
Qed.

Lemma commands_in_track_order_witness :
  commands
    (fst (convert_with Demo.int_reader Demo.world0
            (Demo.job ["/a.flac"; "/bb.flac"]%list) true initial_state))
  = all_commands Demo.int_reader Demo.world0
      (Demo.job ["/a.flac"; "/bb.flac"]%list).
Proof.
  apply (commands_in_track_order Demo.int_reader Demo.world0
           (Demo.job ["/a.flac"; "/bb.flac"]%list) true).
  reflexivity.
Defined.

Section Percents.

Local Open Scope list_scope.

Lemma all_percents_nth (n i : nat) (a : Z) :
  nth_error (all_percents n) i = Some a ->
  ((i < n)%nat /\ a = track_percent n i)
  \/ (i = n /\ a = 50) \/ (i = S n /\ a = 75) \/ (i = S (S n) /\ a = 100).
Proof.
  unfold all_percents. rewrite nth_error_app, length_map, length_seq.
  destruct (Nat.ltb i n) eqn:L.
  - apply Nat.ltb_lt in L. rewrite nth_error_map, nth_error_seq.
    apply Nat.ltb_lt in L. rewrite L. simpl.
    intros H. inversion H. left. split; [now apply Nat.ltb_lt | reflexivity].
  - apply Nat.ltb_ge in L. intros H. right.
    destruct (i - n)%nat as [|[|[|d]]] eqn:D; simpl in H.
    + inversion H. left. split; [lia | reflexivity].
    + inversion H. right. left. split; [lia | reflexivity].
    + inversion H. right. right. split; [lia | reflexivity].
    + destruct d; discriminate.
Qed.

Lemma all_percents_monotone (n i j : nat) (a b : Z) :
  (i <= j)%nat ->
  nth_error (all_percents n) i = Some a ->
  nth_error (all_percents n) j = Some b ->
  a <= b.
Proof.
  intros Hij Ha Hb.
  apply all_percents_nth in Ha. apply all_percents_nth in Hb.
  destruct Ha as [[Hi ->] | [[-> ->] | [[-> ->] | [-> ->]]]];
    destruct Hb as [[Hj ->] | [[-> ->] | [[-> ->] | [-> ->]]]];
    try lia;
    try (pose proof (track_percent_bounds n i Hi); lia).
  apply track_percent_mono; lia.
Qed.

Lemma all_percents_range (n : nat) (a : Z) :
  In a (all_percents n) -> 0 <= a <= 100.
Proof.
  intros H. apply In_nth_error in H. destruct H as [i H].
  apply all_percents_nth in H.
  destruct H as [[Hi ->] | [[_ ->] | [[_ ->] | [_ ->]]]]; try lia.
  pose proof (track_percent_bounds n i Hi). lia.
Qed.

Lemma nth_error_firstn_some (A : Type) (k i : nat) (l : list A) (a : A) :
  nth_error (firstn k l) i = Some a -> nth_error l i = Some a.
Proof.
  rewrite nth_error_firstn. destruct (Nat.ltb i k); [tauto | discriminate].
Qed.

End Percents.

Section Success.

Context {T : Type} {num : Seconds T}.
Context (reader : string -> metadata T) (w : world T) (self : converter).

Local Open Scope list_scope.





End Success.




(** X7. For every metadata reader and every run, successful or not, the
    percentages received by the progress sink are an initial part of
    [0*50//n, 1*50//n, ..., (n-1)*50//n, 50, 75, 100] for [n] tracks: they
    never decrease and all lie between 0 and 100. *)
Theorem percents_never_decrease {T : Type} {num : Seconds T}
    (reader : string -> metadata T) (w : world T) (self : converter)
    (progress_callback : bool) :
  let ps :=
    percents (fst (convert_with reader w self progress_callback
                     initial_state)) in
  (exists k, ps = firstn k (all_percents (List.length (flac_files self))))
  /\ (forall p, In p ps -> 0 <= p <= 100)
  /\ (forall i j a b,
        (i <= j)%nat -> nth_error ps i = Some a -> nth_error ps j = Some b ->
        a <= b).
Proof.
  cbv zeta.
  destruct (percents_of_every_run reader w self progress_callback)
    as [k E].
  rewrite E. split; [now exists k|]. split.
  - intros p H. apply all_percents_range with (List.length (flac_files self)).
    apply In_nth_error in H. destruct H as [i H].
    apply nth_error_firstn_some in H. now apply nth_error_In with i.
  - intros i j a b Hij Ha Hb.
    apply nth_error_firstn_some in Ha. apply nth_error_firstn_some in Hb.
    now apply all_percents_monotone with (List.length (flac_files self)) i j.
Qed.

(** X8. For every metadata reader and on every host: when the transcoder
    rejects a command that a run has issued, that command is the last one
    issued and every command before it was accepted, so that no request
    follows a failed one; and the run raises
    [RuntimeError("FFmpeg error: " + text)] with the text of that failure
    when its error output can be decoded, the [UnicodeDecodeError] of the
    decoding otherwise. *)
Theorem transcoder_failure_is_fatal {T : Type} {num : Seconds T}
    (reader : string -> metadata T) (h : host T) (self : converter)
    (progress_callback : bool) (cmd : list string) (text : string) :
  let run := convert_on reader h self progress_callback initial_state in
  In cmd (commands (fst run)) ->
  subprocess_run (host_world h) cmd = Some text ->
  snd run
  = match stderr_undecodable h cmd with
    | Some reason => Raise (UnicodeDecodeError reason)
    | None => Raise (RuntimeError ("FFmpeg error: " ++ text))
    end
  /\ exists pre,
       commands (fst run) = (pre ++ [cmd])%list
       /\ Forall (fun c => subprocess_run (host_world h) c = None) pre.
Proof.
  cbv zeta.
  destruct (ready self) eqn:R.
  2:{ rewrite convert_on_not_ready by exact R. intros []. }
  destruct (mkdtemp_raises h) as [e|] eqn:E.
  { rewrite (convert_on_no_scratch reader h self progress_callback _ e R E).
    intros []. }
  rewrite convert_on_ready by assumption. cbv zeta.
  pose proof (convert_body_fail_fast reader (host_world h) self
                progress_callback) as FF.
  destruct (convert_body reader (host_world h) self progress_callback
              initial_state) as [s1 r]. simpl in FF |- *.
  intros Hin Hfail.
  assert (N : ~ Forall (fun c => subprocess_run (host_world h) c = None)
                (commands s1)).
  { intros A. rewrite Forall_forall in A. specialize (A cmd Hin).
    congruence. }
  destruct r as [b | [m | m | m | m | m | m | m | k m]];
    try contradiction.
  destruct FF as (pre & c & Ec & A & Hc).
  rewrite Ec in Hin. apply in_app_or in Hin.
  destruct Hin as [Hin | [<- | []]].
  - rewrite Forall_forall in A. specialize (A cmd Hin). congruence.
  - rewrite Hc in Hfail. inversion Hfail; subst.
    unfold failed_command. rewrite Ec, last_last.
    split; [now destruct (stderr_undecodable h c)|].
    now exists pre.
Qed.

Lemma transcoder_failure_is_fatal_witness :
  snd (convert_on (get_track_metadata Demo.world_f) Demo.host_failing
         (Demo.job ["/music/01.flac"]%list) true initial_state)
  = Raise
      (UnicodeDecodeError
         "'utf-8' codec can't decode byte 0xff in position 0: invalid start byte")
  /\ exists pre,
       commands
         (fst (convert_on (get_track_metadata Demo.world_f)
                 Demo.host_failing (Demo.job ["/music/01.flac"]%list) true
                 initial_state))
       = (pre
          ++ [[ "ffmpeg"; "-y"; "-loop"; "1"; "-i";
                "/tmp/flac_to_mkv_x/frame_000.png"; "-i"; "/music/01.flac";
                "-c:v"; "libx264"; "-preset"; "medium"; "-crf"; "18";
                "-c:a"; "copy"; "-t"; "180.0"; "-pix_fmt"; "yuv420p";
                "-r"; "1"; "/tmp/flac_to_mkv_x/video_000.mkv" ]])%list
       /\ Forall
            (fun c => subprocess_run (host_world Demo.host_failing) c = None)
            pre.
Proof.
  apply (transcoder_failure_is_fatal (get_track_metadata Demo.world_f)
           Demo.host_failing (Demo.job ["/music/01.flac"]%list) true
           [ "ffmpeg"; "-y"; "-loop"; "1"; "-i";
             "/tmp/flac_to_mkv_x/frame_000.png"; "-i"; "/music/01.flac";
             "-c:v"; "libx264"; "-preset"; "medium"; "-crf"; "18";
             "-c:a"; "copy"; "-t"; "180.0"; "-pix_fmt"; "yuv420p";
             "-r"; "1"; "/tmp/flac_to_mkv_x/video_000.mkv" ]%list
           "No such filter").
  - vm_compute. left. reflexivity.
  - reflexivity.
Defined.

(** X9. For a metadata reader that returns integer track numbers, put in
    place of [get_track_metadata], and a transcoder that accepts every
    command, the run of a converter that has its three inputs returns
    [True]; the chapter list has one entry per track, in input order; entry
    [k] runs from the cumulative duration of the first [k] tracks to that of
    the first [k + 1] and is titled with the number on two digits, a dot, a
    space and the title; each entry ends where the next starts; and the sink
    receives the percentages of all the tracks, then 50, 75 and 100. *)
Theorem chapters_for_integer_track_numbers {T : Type} {num : Seconds T}
    (reader : string -> metadata T) (w : world T) (self : converter)
    (progress_callback : bool) :
  ready self = true ->
  (forall f, In f (flac_files self) ->
     exists z, track_number (reader f) = Int z) ->
  (forall cmd, subprocess_run w cmd = None) ->
  let run := convert_with reader w self progress_callback initial_state in
  let mds := map reader (flac_files self) in
  snd run = Ok true
  /\ List.length (chapter_data (fst run)) = List.length (flac_files self)
  /\ (forall k f z,
        nth_error (flac_files self) k = Some f ->
        track_number (reader f) = Int z ->
        exists c,
          nth_error (chapter_data (fst run)) k = Some c
          /\ chapter_start c = cumulative mds k
          /\ chapter_end c = cumulative mds (S k)
          /\ chapter_end c = sec_add (chapter_start c) (duration (reader f))
          /\ chapter_title c = format_0d 2 z ++ ". " ++ title (reader f))
  /\ (forall k c c',
        nth_error (chapter_data (fst run)) k = Some c ->
        nth_error (chapter_data (fst run)) (S k) = Some c' ->
        chapter_end c = chapter_start c')
  /\ percents (fst run)
     = if progress_callback
       then all_percents (List.length (flac_files self)) else []%list.
Proof.
  intros R Hint Hrun. cbv zeta.
  assert (Httl : forall f, In f (flac_files self) ->
                   exists ttl, chapter_title_of (reader f) = Ok ttl).
  { intros f Hf. destruct (Hint f Hf) as [z Hz].
    eexists. exact (chapter_title_of_int (reader f) z Hz). }
  destruct (run_by_design reader w self progress_callback Hrun R Httl)
    as (S & C & P).
  destruct (chapters_from_contiguous (map reader (flac_files self)))
    as (L & N & A).
  rewrite C, P. split; [exact S|]. split.
  { now rewrite L, length_map. }
  split; [|split; [exact A | reflexivity]].
  intros k f z Hk Hz.
  destruct (N k (reader f)) as (c & Hc & Hs & He & Hd & Ht).
  { now apply map_nth_error. }
  exists c. repeat split; try assumption.
  rewrite Ht. unfold title_or_empty.
  now rewrite (chapter_title_of_int (reader f) z Hz).
Qed.

Lemma chapters_for_integer_track_numbers_witness :
  snd (convert_with Demo.int_reader Demo.world0
         (Demo.job ["/a.flac"; "/bb.flac"]%list) true initial_state)
  = Ok true
  /\ List.length
       (chapter_data
          (fst (convert_with Demo.int_reader Demo.world0
                  (Demo.job ["/a.flac"; "/bb.flac"]%list) true
                  initial_state))) = 2%nat.
Proof.
  destruct (chapters_for_integer_track_numbers Demo.int_reader Demo.world0
              (Demo.job ["/a.flac"; "/bb.flac"]%list) true)
    as (S & L & _).
  - reflexivity.
  - intros f _. eexists. reflexivity.
  - reflexivity.
  - split; [exact S | exact L].
Defined.

(** ** More on the word wrap *)

Section WrapMore.

Context {T : Type} (w : world T) (fnt : font) (max_width : Z).

Local Open Scope list_scope.

Abbreviation wloop := (wrap_loop w fnt max_width).

Lemma wrap_loop_count_le (words : list string) :
  forall lines current_line,
    (line_count (wloop words lines current_line)
     <= line_count (lines, current_line) + List.length words)%nat.
Proof.
  induction words as [|word rest IH]; intros lines cur; simpl.
  - lia.
  - destruct (bbox_right w fnt (join " " (cur ++ [word])) <=? max_width).
    + etransitivity; [apply IH|].
      unfold line_count. simpl. destruct cur; simpl; lia.
    + destruct cur as [|c cur].
      * etransitivity; [apply IH|].
        unfold line_count. simpl. rewrite length_app. simpl. lia.
      * etransitivity; [apply IH|].
        unfold line_count. simpl. rewrite length_app. simpl. lia.
Qed.

Lemma wrap_loop_count_pos (word : string) (rest : list string) :
  (1 <= line_count (wloop (word :: rest) [] []))%nat.
Proof.
  cbn [wrap_loop app].
  destruct (bbox_right w fnt (join " " [word]) <=? max_width);
    (etransitivity; [|apply wrap_loop_count_mono]);
    unfold line_count; simpl; lia.
Qed.

(** While every test line fits, the loop only extends the pending line. *)
Lemma wrap_loop_all_fit (words : list string) :
  forall lines current_line,
    (forall k, (1 <= k <= List.length words)%nat ->
       bbox_right w fnt (join " " (current_line ++ firstn k words))
       <= max_width) ->
    wloop words lines current_line = (lines, current_line ++ words).
Proof.
  induction words as [|word rest IH]; intros lines cur H; simpl.
  - now rewrite app_nil_r.
  - pose proof (H 1%nat) as H1. simpl in H1.
    apply Z.leb_le in H1; [|lia]. rewrite H1.
    rewrite IH; [now rewrite <- app_assoc|].
    intros k Hk. rewrite <- app_assoc. simpl.
    apply (H (S k)). simpl. lia.
Qed.

Lemma join_snoc (c : string) (cur : list string) (word : string) :
  join " " ((c :: cur) ++ [word])
  = (join " " (c :: cur) ++ " " ++ word)%string.
Proof.
  revert c. induction cur as [|d cur IH]; intros c.
  - reflexivity.
  - change ((c :: d :: cur) ++ [word]) with (c :: ((d :: cur) ++ [word])).
    destruct ((d :: cur) ++ [word]) as [|e l] eqn:E; [discriminate|].
    rewrite join_cons, <- E, IH, join_cons.
    now rewrite !append_assoc.
Qed.

Lemma first_word_join (c : string) (cur : list string) :
  Forall (fun x => is_word x = true) (c :: cur) ->
  hd "" (split (join " " (c :: cur))) = c.
Proof. intros H. now rewrite split_join. Qed.

Lemma breaks_needed_snoc (lines : list string) (x : string) :
  breaks_needed w fnt max_width lines ->
  (forall pre a,
     lines = pre ++ [a] -> break_needed w fnt max_width a x) ->
  breaks_needed w fnt max_width (lines ++ [x]).
Proof.
  induction lines as [|a lines IH]; intros H L; [exact I|].
  destruct lines as [|b lines].
  - simpl. split; [|exact I]. now apply (L []).
  - destruct H as [H1 H2]. cbn [app breaks_needed].
    split; [exact H1|].
    apply IH; [exact H2|].
    intros pre c E. apply (L (a :: pre)). simpl. now rewrite E.
Qed.

Lemma breaks_needed_nth (lines : list string) :
  breaks_needed w fnt max_width lines ->
  forall pre a b post,
    lines = pre ++ a :: b :: post -> break_needed w fnt max_width a b.
Proof.
  induction lines as [|x lines IH]; intros H pre a b post E.
  - destruct pre; discriminate.
  - destruct pre as [|p pre]; simpl in E; inversion E; subst.
    + now destruct H.
    + destruct (pre ++ a :: b :: post) as [|y l] eqn:F.
      * destruct pre; discriminate.
      * destruct H as [_ H]. now apply (IH H pre a b post).
Qed.

Lemma wrap_loop_greedy (words : list string) :
  forall lines current_line,
    Forall (fun x => is_word x = true) words ->
    Forall (fun x => is_word x = true) current_line ->
    greedy_state w fnt max_width lines current_line ->
    greedy_state w fnt max_width (fst (wloop words lines current_line))
      (snd (wloop words lines current_line))
    /\ Forall (fun x => is_word x = true)
         (snd (wloop words lines current_line)).
Proof.
  induction words as [|word rest IH]; intros lines cur Hw Hc [B L]; simpl.
  - now repeat split.
  - inversion Hw as [|? ? Hword Hrest]; subst.
    destruct (bbox_right w fnt (join " " (cur ++ [word])) <=? max_width)
      eqn:E.
    + apply IH; try assumption.
      * apply Forall_app. split; [assumption | now constructor].
      * split; [exact B|]. intros pre a Ea. specialize (L pre a Ea).
        destruct cur as [|c cur]; simpl; [now left | exact L].
    + apply Z.leb_gt in E. destruct cur as [|c cur].
      * simpl in E. apply IH; try assumption. split.
        -- apply breaks_needed_snoc; [exact B|].
           intros pre a Ea. left. now apply (L pre a).
        -- intros pre a Ea. apply app_inj_tail in Ea.
           destruct Ea as [_ <-]. exact E.
      * apply IH; try assumption; [now constructor|]. split.
        -- apply breaks_needed_snoc; [exact B|].
           intros pre a Ea. unfold break_needed.
           rewrite (first_word_join c cur Hc). now apply (L pre a).
        -- intros pre a Ea. apply app_inj_tail in Ea.
           destruct Ea as [_ <-]. right.
           now rewrite <- join_snoc.
Qed.

End WrapMore.

Section WrapLines.

Context {T : Type} (w : world T) (fnt : font) (max_width : Z).

Local Open Scope list_scope.

Abbreviation lloop := (wrap_loop w fnt max_width).

(** Every line is made of its words joined by single spaces. *)
Lemma wrap_loop_joined (words : list string) :
  forall lines current_line,
    Forall (fun x => is_word x = true) words ->
    Forall (fun x => is_word x = true) current_line ->
    Forall (fun l => l = join " " (split l)) lines ->
    Forall (fun l => l = join " " (split l))
      (fst (lloop words lines current_line))
    /\ Forall (fun x => is_word x = true)
         (snd (lloop words lines current_line)).
Proof.
  induction words as [|word rest IH]; intros lines cur Hw Hc Hl; simpl.
  - now split.
  - inversion Hw as [|? ? Hword Hrest]; subst.
    destruct (bbox_right w fnt (join " " (cur ++ [word])) <=? max_width).
    + apply IH; try assumption.
      apply Forall_app. split; [assumption | now constructor].
    + destruct cur as [|c cur].
      * apply IH; try assumption.
        apply Forall_app. split; [assumption|].
        constructor; [|constructor]. now rewrite (split_word _ Hword).
      * apply IH; try assumption; [now constructor|].
        apply Forall_app. split; [assumption|].
        constructor; [|constructor]. now rewrite (split_join _ Hc).
Qed.

Lemma wrap_text_joined (text : string) :
  Forall (fun l => l = join " " (split l)) (wrap_text w text fnt max_width).
Proof.
  pose proof (split_words text) as Hw.
  destruct (wrap_loop_joined (split text) [] [] Hw) as [L F];
    [constructor | constructor |].
  unfold wrap_text.
  destruct (wrap_loop w fnt max_width (split text) [] []) as [lines cur].
  simpl in L, F. destruct cur as [|c cur]; [exact L|].
  apply Forall_app. split; [exact L|].
  constructor; [|constructor]. now rewrite (split_join _ F).
Qed.

(** Every break between two lines was needed. *)
Lemma wrap_text_breaks (text : string) :
  breaks_needed w fnt max_width (wrap_text w text fnt max_width).
Proof.
  pose proof (split_words text) as Hw.
  destruct (wrap_loop_greedy w fnt max_width (split text) [] [] Hw)
    as [[B L] F]; [constructor | |].
  { split; [exact I|]. intros p x Ex. destruct p; discriminate. }
  unfold wrap_text.
  destruct (wrap_loop w fnt max_width (split text) [] []) as [lines cur].
  simpl in B, L, F. destruct cur as [|c cur]; [exact B|].
  apply breaks_needed_snoc; [exact B|].
  intros p x Ex. unfold break_needed.
  rewrite (first_word_join c cur F). now apply (L p x).
Qed.

(** Every line fits, or is a single word wider than the column. *)
Lemma wrap_text_lines_ok (text : string) :
  Forall (line_ok w fnt max_width) (wrap_text w text fnt max_width).
Proof.
  pose proof (split_words text) as Hw.
  destruct (wrap_loop_fits w fnt max_width (split text) [] [] Hw)
    as [L P]; [constructor | constructor | now left |].
  pose proof (wrap_loop_words w fnt max_width (split text) [] [] Hw)
    as [_ F]; [constructor|].
  unfold wrap_text.
  destruct (wrap_loop w fnt max_width (split text) [] []) as [lines cur].
  simpl in L, P, F.
  destruct cur as [|c cur]; [assumption|].
  apply Forall_app. split; [assumption|].
  constructor; [|constructor].
  apply line_ok_pending; [assumption | assumption | discriminate].
Qed.

(** Two words or more whose text is wider than the column give two lines
    or more. *)
Lemma wrap_text_two_lines (text : string) :
  (2 <= List.length (split text))%nat ->
  max_width < bbox_right w fnt (join " " (split text)) ->
  (2 <= List.length (wrap_text w text fnt max_width))%nat.
Proof.
  intros Hlen Hwide. rewrite wrap_text_count.
  destruct (split text) as [|w1 [|w2 rest]]; simpl in Hlen; try lia.
  cbn [wrap_loop app].
  destruct (bbox_right w fnt (join " " [w1]) <=? max_width).
  - destruct (wrap_loop_pending w fnt max_width (w2 :: rest) [] [w1])
      as [F | G]; [discriminate | discriminate | | exact G].
    simpl app in F. lia.
  - cbn [wrap_loop app].
    destruct (bbox_right w fnt (join " " [w2]) <=? max_width).
    + etransitivity; [|apply wrap_loop_count_mono].
      unfold line_count. simpl. lia.
    + etransitivity; [|apply wrap_loop_count_mono].
      unfold line_count. simpl. lia.
Qed.

Lemma wrap_text_words (text : string) :
  words_of (wrap_text w text fnt max_width) = split text.
Proof.
  pose proof (split_words text) as Hw.
  destruct (wrap_loop_words w fnt max_width (split text) [] [] Hw)
    as [E F]; [constructor|].
  unfold wrap_text.
  destruct (wrap_loop w fnt max_width (split text) [] []) as [lines cur].
  simpl in E, F.
  destruct cur as [|c cur].
  - now rewrite app_nil_r in E.
  - now rewrite words_of_app, (words_of_join _ F).
Qed.

End WrapLines.

(** C5, as amended. [wrap_text] is a greedy wrap of the words of the text.
    The lines hold the words of [text.split()] in order, joined by single
    spaces.  Every line is within the column width, or is a single word
    that alone is wider than the column.  A line is ended only when it has
    to be: of two lines that follow each other, the first is such an
    overlong word, or it would be wider than the column with a space and
    the first word of the second.  And when the text has at least two words
    and these words, joined by single spaces, are wider than the column,
    [wrap_text] returns at least two lines. *)
Theorem wrap_text_greedy {T : Type} (w : world T) (text : string)
    (fnt : font) (max_width : Z) :
  let lines := wrap_text w text fnt max_width in
  flat_map split lines = split text
  /\ Forall (fun line => line = join " " (split line)) lines
  /\ Forall
       (fun line =>
          bbox_right w fnt line <= max_width
          \/ (split line = [line]%list
              /\ max_width < bbox_right w fnt line)) lines
  /\ (forall pre a b post,
        lines = (pre ++ a :: b :: post)%list ->
        (split a = [a]%list /\ max_width < bbox_right w fnt a)
        \/ (bbox_right w fnt a <= max_width
            /\ max_width < bbox_right w fnt (a ++ " " ++ hd "" (split b))))
  /\ ((2 <= List.length (split text))%nat ->
      max_width < bbox_right w fnt (join " " (split text)) ->
      (2 <= List.length lines)%nat).
Proof.
  cbv zeta.
  split; [apply wrap_text_words|].
  split; [apply wrap_text_joined|].
  split; [apply wrap_text_lines_ok|].
  split; [|apply wrap_text_two_lines].
  intros pre a b post E.
  pose proof (wrap_text_lines_ok w fnt max_width text) as O.
  rewrite E in O. apply Forall_app in O. destruct O as [_ O].
  inversion O as [|? ? Oa _]; subst.
  destruct Oa as [Fit | Single]; [|now left].
  right. split; [exact Fit|].
  destruct (breaks_needed_nth w fnt max_width _
              (wrap_text_breaks w fnt max_width text) pre a b post E)
    as [Wide | Next]; [lia | exact Next].
Qed.

Lemma wrap_text_greedy_witness :
  wrap_text Demo.world0 "One of  These Days" DefaultFont 100
  = ["One of"; "These Days"]%list
  /\ (2 <= List.length
             (wrap_text Demo.world0 "One of  These Days" DefaultFont 100))%nat
  /\ ((split "One of" = ["One of"]%list
       /\ 100 < bbox_right Demo.world0 DefaultFont "One of")
      \/ (bbox_right Demo.world0 DefaultFont "One of" <= 100
          /\ 100 < bbox_right Demo.world0 DefaultFont
                     ("One of" ++ " " ++ hd "" (split "These Days")))).
Proof.
  destruct (wrap_text_greedy Demo.world0 "One of  These Days" DefaultFont
              100) as (_ & _ & _ & G & N).
  split; [reflexivity|]. split.
  - apply N; [vm_compute; lia | reflexivity].
  - apply (G []%list "One of" "These Days" []%list). reflexivity.
Defined.

(** C5, as stated, fails in two ways.  A text that is one word wider than
    the column exceeds the column width, and [wrap_text] returns it as a
    single line.  And a text of two words that exceeds the column width
    only by the run of spaces between them is returned as a single line
    too, since the words are measured joined by single spaces. *)
Lemma wrap_text_wide_text_on_one_line :
  (50 < bbox_right Demo.world0 DefaultFont "Supercalifragilistic"
   /\ wrap_text Demo.world0 "Supercalifragilistic" DefaultFont 50
      = ["Supercalifragilistic"]
   /\ ~ (2 <= List.length
              (wrap_text Demo.world0 "Supercalifragilistic" DefaultFont
                 50))%nat)
  /\ (100 < bbox_right Demo.world0 DefaultFont "ab        cd"
      /\ List.length (split "ab        cd") = 2%nat
      /\ wrap_text Demo.world0 "ab        cd" DefaultFont 100 = ["ab cd"]
      /\ ~ (2 <= List.length
                 (wrap_text Demo.world0 "ab        cd" DefaultFont 100))%nat).
Proof.
  split.
  - split; [reflexivity|]. split; [reflexivity|]. vm_compute. lia.
  - split; [reflexivity|]. split; [reflexivity|].
    split; [reflexivity|]. vm_compute. lia.
Qed.


(** X10. [wrap_text] never returns more lines than the text has words, and
    it returns no line exactly when the text has no word (it is empty or
    all whitespace). *)
Theorem wrap_text_line_count {T : Type} (w : world T) (text : string)
    (fnt : font) (max_width : Z) :
  (List.length (wrap_text w text fnt max_width)
   <= List.length (split text))%nat
  /\ (wrap_text w text fnt max_width = []%list <-> split text = []%list).
Proof.
  rewrite wrap_text_count. split.
  - pose proof (wrap_loop_count_le w fnt max_width (split text) [] []) as H.
    unfold line_count at 2 in H. simpl in H. exact H.
  - rewrite <- length_zero_iff_nil, wrap_text_count.
    destruct (split text) as [|word rest].
    + split; reflexivity.
    + pose proof (wrap_loop_count_pos w fnt max_width word rest).
      split; [lia | discriminate].
Qed.

(** X11. When the words of the text, joined by single spaces, fit the column
    at every word boundary (the first word, the first two, ..., all of
    them), [wrap_text] returns one line: the text with its whitespace
    normalised. *)
Theorem wrap_text_fitting {T : Type} (w : world T) (text : string)
    (fnt : font) (max_width : Z) :
  split text <> []%list ->
  (forall k, (1 <= k <= List.length (split text))%nat ->
     bbox_right w fnt (join " " (firstn k (split text))) <= max_width) ->
  wrap_text w text fnt max_width = [join " " (split text)]%list.
Proof.
  intros Hne Hfit. unfold wrap_text.
  rewrite (wrap_loop_all_fit w fnt max_width (split text) [] [] Hfit).
  simpl. destruct (split text); [contradiction | reflexivity].
Qed.

Lemma wrap_text_fitting_witness :
  wrap_text Demo.world0 "  07.   Echoes " DefaultFont 860
  = ["07. Echoes"]%list.
Proof.
  apply (wrap_text_fitting Demo.world0 "  07.   Echoes " DefaultFont 860).
  - discriminate.
  - intros k Hk. change (List.length (split "  07.   Echoes ")) with 2%nat
      in Hk.
    assert (K : k = 1%nat \/ k = 2%nat) by lia.
    destruct K as [-> | ->]; vm_compute; discriminate.
Defined.

(** X12. [wrap_text] breaks a line only when it has to: of two lines that
    follow each other, the first is wider than the column by itself (a
    single overlong word), or it would be wider than the column with a
    space and the first word of the second line. *)
Theorem wrap_text_breaks_only_when_needed {T : Type} (w : world T)
    (text : string) (fnt : font) (max_width : Z)
    (pre : list string) (a b : string) (post : list string) :
  wrap_text w text fnt max_width = (pre ++ a :: b :: post)%list ->
  max_width < bbox_right w fnt a
  \/ max_width < bbox_right w fnt (a ++ " " ++ hd "" (split b)).
Proof.
  intros E.
  pose proof (split_words text) as Hw.
  destruct (wrap_loop_greedy w fnt max_width (split text) [] [] Hw)
    as [[B L] F]; [constructor | |].
  { split; [exact I|]. intros p x Ex. destruct p; discriminate. }
  unfold wrap_text in E.
  destruct (wrap_loop w fnt max_width (split text) [] []) as [lines cur].
  simpl in B, L, F.
  refine (breaks_needed_nth w fnt max_width _ _ pre a b post eq_refl).
  rewrite <- E. destruct cur as [|c cur]; [exact B|].
  apply breaks_needed_snoc; [exact B|].
  intros p x Ex. unfold break_needed.
  rewrite (first_word_join c cur F). now apply (L p x).
Qed.

Lemma wrap_text_breaks_only_when_needed_witness :
  50 < bbox_right Demo.world0 DefaultFont "ab cd"
  \/ 50 < bbox_right Demo.world0 DefaultFont
            ("ab cd" ++ " " ++ hd "" (split "efghijkl")).
Proof.
  apply (wrap_text_breaks_only_when_needed Demo.world0
           "  ab cd   efghijkl mn o p" DefaultFont 50 []%list "ab cd"
           "efghijkl" ["mn o"; "p"]%list).
  reflexivity.
Defined.

(** ** More on the frames *)

Section FrameText.

Context {T : Type} (w : world T).

Local Open Scope list_scope.

Lemma draw_lines_ops (lines : list string) :
  forall f x y fnt,
    frame_ops (fst (draw_lines f x y fnt lines))
    = frame_ops f ++ line_ops x y fnt lines
    /\ snd (draw_lines f x y fnt lines)
       = y + 80 * Z.of_nat (List.length lines).
Proof.
  induction lines as [|line rest IH]; intros f x y fnt.
  - simpl. rewrite app_nil_r. split; [reflexivity | lia].
  - cbn [draw_lines line_ops].
    destruct (IH (draw f (Text x y line "white" (Some fnt) None)) x (y + 80)
                fnt) as [E F].
    rewrite E, F. split.
    + simpl. now rewrite <- app_assoc.
    + rewrite length_cons. lia.
Qed.

Lemma line_ops_nth (lines : list string) :
  forall x y fnt k line,
    nth_error lines k = Some line ->
    nth_error (line_ops x y fnt lines) k
    = Some (Text x (y + 80 * Z.of_nat k) line "white" (Some fnt) None).
Proof.
  induction lines as [|l rest IH]; intros x y fnt k line H.
  - destruct k; discriminate.
  - destruct k as [|k]; simpl in H |- *.
    + inversion H; subst. do 2 f_equal. lia.
    + rewrite (IH x (y + 80) fnt k line H). do 2 f_equal. lia.
Qed.

Lemma line_ops_length (lines : list string) :
  forall x y fnt,
    List.length (line_ops x y fnt lines) = List.length lines.
Proof.
  induction lines as [|l rest IH]; intros x y fnt; simpl;
    [reflexivity | now rewrite IH].
Qed.

(** The three fonts are the three sizes of Helvetica, or the built-in font
    three times. *)
Lemma load_fonts_cases :
  load_fonts w
  = (TrueType helvetica 72, TrueType helvetica 48, TrueType helvetica 36)
  \/ load_fonts w = (DefaultFont, DefaultFont, DefaultFont).
Proof.
  unfold load_fonts.
  destruct (ImageFont_truetype w helvetica 72 && _ && _); [now left|].
  now right.
Qed.

End FrameText.

(** X13. The frame composed from what [get_track_metadata] returned for a
    file carries no title, artist or album: the track number is a string,
    the formatting of the track text raises inside the [try] of the text
    block, and the frame holds the artwork resized to 860 by 860 at
    (50, 110) when [Image.open], [resize] and [paste] all return, the
    placeholder with its label otherwise, and nothing else. *)
Theorem frames_carry_no_track_text {T : Type} {num : Seconds T}
    (w : world T) (cover flac_path : string) :
  let md := get_track_metadata w flac_path in
  let placeholder :=
    [Rectangle 50 110 910 970 "white" 2;
     Text 480 540 "No Cover Art" "white" None (Some "mm")]%list in
  frame_ops
    (create_video_frame w cover (title md) (track_number md) (artist md)
       (album md))
  = match Image_open w cover with
    | Some img =>
        if resize_returns w img
        then if paste_returns w (resize img 860 860)
             then [Paste (resize img 860 860) 50 110]%list
             else placeholder
        else placeholder
    | None => placeholder
    end.
Proof.
  cbv zeta. rewrite create_video_frame_unfold.
  destruct (get_track_metadata_track_number w flac_path) as [tn H].
  unfold draw_track_text. rewrite H.
  destruct (load_fonts w) as [[title_font info_font] small_font].
  cbn [format_02d]. unfold artwork_frame, loaded_cover.
  destruct (Image_open w cover) as [img|]; [|reflexivity].
  destruct (resize_returns w img); [|reflexivity].
  destruct (paste_returns w (resize img 860 860)); reflexivity.
Qed.

(** X14. With an integer track number, [create_video_frame] draws, after the
    artwork (or the placeholder and its label when the artwork cannot be
    loaded), the lines of the wrapped text "NN. title" in white at
    x = 1010, 80 pixels apart from y = 440, then the artist 40 pixels below
    the place of the next title line and the album 60 pixels lower, both in
    light gray; the fonts are Helvetica at 72, 48 and 36 points, or the
    built-in font for all three. *)
Theorem track_text_layout {T : Type} (w : world T)
    (cover track_title : string) (z : Z) (artist album : string) :
  exists title_font info_font small_font,
    ((title_font, info_font, small_font)
     = (TrueType helvetica 72, TrueType helvetica 48, TrueType helvetica 36)
     \/ (title_font, info_font, small_font)
        = (DefaultFont, DefaultFont, DefaultFont))
    /\ let lines :=
         wrap_text w (format_0d 2 z ++ ". " ++ track_title) title_font 860 in
       let n := Z.of_nat (List.length lines) in
       let placeholder :=
         [Rectangle 50 110 910 970 "white" 2;
          Text 480 540 "No Cover Art" "white" None (Some "mm")]%list in
       let art :=
         match Image_open w cover with
         | Some img =>
             if resize_returns w img
             then if paste_returns w (resize img 860 860)
                  then [Paste (resize img 860 860) 50 110]%list
                  else placeholder
             else placeholder
         | None => placeholder
         end in
       exists texts,
         frame_ops
           (create_video_frame w cover track_title (Int z) artist album)
         = (art ++ texts
            ++ [Text 1010 (480 + 80 * n) artist "lightgray" (Some info_font)
                  None;
                Text 1010 (540 + 80 * n) album "lightgray"
                  (Some small_font) None])%list
         /\ List.length texts = List.length lines
         /\ forall k line,
              nth_error lines k = Some line ->
              nth_error texts k
              = Some (Text 1010 (440 + 80 * Z.of_nat k) line "white"
                        (Some title_font) None).
Proof.
  pose proof (load_fonts_cases w) as F.
  rewrite create_video_frame_unfold. unfold draw_track_text.
  destruct (load_fonts w) as [[title_font info_font] small_font].
  exists title_font, info_font, small_font. split; [exact F|].
  cbv zeta. cbn [format_02d].
  change (1920 / 2 - 100) with 860. change (1920 / 2 + 50) with 1010.
  change (1080 / 2 - 100) with 440.
  set (lines :=
         wrap_text w (format_0d 2 z ++ ". " ++ track_title) title_font 860).
  destruct (draw_lines_ops lines (artwork_frame w cover) 1010 440 title_font)
    as [E Y].
  destruct (draw_lines (artwork_frame w cover) 1010 440 title_font lines)
    as [f1 y1].
  cbn [fst snd] in E, Y. subst y1.
  exists (line_ops 1010 440 title_font lines). split.
  - cbn [frame_ops draw]. rewrite E, <- !app_assoc. cbn [app].
    assert (A : frame_ops (artwork_frame w cover)
                = match Image_open w cover with
                  | Some img =>
                      if resize_returns w img
                      then if paste_returns w (resize img 860 860)
                           then [Paste (resize img 860 860) 50 110]%list
                           else
                             [Rectangle 50 110 910 970 "white" 2;
                              Text 480 540 "No Cover Art" "white" None
                                (Some "mm")]%list
                      else
                        [Rectangle 50 110 910 970 "white" 2;
                         Text 480 540 "No Cover Art" "white" None
                           (Some "mm")]%list
                  | None =>
                      [Rectangle 50 110 910 970 "white" 2;
                       Text 480 540 "No Cover Art" "white" None
                         (Some "mm")]%list
                  end).
    { unfold artwork_frame, loaded_cover.
      destruct (Image_open w cover) as [img|]; [|reflexivity].
      destruct (resize_returns w img); [|reflexivity].
      destruct (paste_returns w (resize img 860 860)); reflexivity. }
    rewrite A. repeat (f_equal; try lia).
  - split; [apply line_ops_length|].
    intros k line H. now apply line_ops_nth.
Qed.

(** ** More on the metadata reader *)

Section Paths.

Local Open Scope list_scope.

Lemma occurs_append (c : ascii) (a b : string) :
  occurs c (a ++ b)%string = occurs c a || occurs c b.
Proof.
  induction a as [|x a IH]; simpl; [reflexivity|].
  now rewrite IH, orb_assoc.
Qed.

Lemma rfind_none (c : ascii) (s : string) :
  rfind c s = None -> occurs c s = false.
Proof.
  induction s as [|a s IH]; simpl; [reflexivity|].
  destruct (rfind c s); [discriminate|].
  destruct (Ascii.eqb a c); [discriminate|].
  intros _. now apply IH.
Qed.

(** The last occurrence cuts the string in two; the second part is free of
    the character. *)
Lemma rfind_some (c : ascii) (s : string) :
  forall i,
    rfind c s = Some i ->
    exists pre post,
      s = (pre ++ String c post)%string
      /\ String.length pre = i
      /\ occurs c post = false.
Proof.
  induction s as [|a s IH]; intros i H; simpl in H; [discriminate|].
  destruct (rfind c s) as [j|] eqn:R.
  - inversion H; subst. destruct (IH j eq_refl) as (pre & post & E & L & O).
    exists (String a pre), post. simpl. rewrite E, L. now repeat split.
  - destruct (Ascii.eqb a c) eqn:A; [|discriminate].
    inversion H; subst. apply Ascii.eqb_eq in A. subst a.
    exists "", s. repeat split. now apply rfind_none.
Qed.

Lemma substring_prefix (pre rest : string) :
  String.substring 0 (String.length pre) (pre ++ rest) = pre.
Proof.
  induction pre as [|a pre IH]; simpl.
  - now destruct rest.
  - now rewrite IH.
Qed.

Lemma substring_all (s : string) :
  String.substring 0 (String.length s) s = s.
Proof.
  induction s as [|a s IH]; simpl; [reflexivity | now rewrite IH].
Qed.

Lemma substring_suffix (pre rest : string) :
  String.substring (String.length pre) (String.length rest) (pre ++ rest)
  = rest.
Proof.
  induction pre as [|a pre IH]; simpl.
  - apply substring_all.
  - exact IH.
Qed.

Lemma basename_split (p : string) :
  exists dir,
    p = (dir ++ basename p)%string
    /\ occurs "/" (basename p) = false
    /\ (dir = "" \/ exists d, dir = (d ++ "/")%string).
Proof.
  unfold basename. destruct (rfind "/" p) as [i|] eqn:R.
  - destruct (rfind_some "/" p i R) as (pre & post & E & L & O).
    assert (B : String.substring (S i) (String.length p - S i) p = post).
    { subst p i.
      replace (pre ++ String "/" post)%string
        with ((pre ++ "/") ++ post)%string
        by (rewrite append_assoc; reflexivity).
      replace (S (String.length pre)) with (String.length (pre ++ "/"))
        by (rewrite length_append; simpl; lia).
      replace (String.length ((pre ++ "/") ++ post)
               - String.length (pre ++ "/"))%nat
        with (String.length post)
        by (rewrite !length_append; simpl; lia).
      apply substring_suffix. }
    rewrite B. exists (pre ++ "/")%string. split.
    + rewrite E, append_assoc. reflexivity.
    + split; [exact O|]. right. now exists pre.
  - exists "". split; [reflexivity|]. split; [now apply rfind_none|].
    now left.
Qed.

Lemma splitext_root_split (b : string) :
  exists ext,
    b = (splitext_root b ++ ext)%string
    /\ (ext = ""
        \/ exists e, ext = String "." e /\ occurs "." e = false).
Proof.
  unfold splitext_root. destruct (rfind "." b) as [i|] eqn:R.
  - destruct (rfind_some "." b i R) as (pre & post & E & L & O).
    assert (B : String.substring 0 i b = pre).
    { subst b i. apply substring_prefix. }
    rewrite B. destruct (all_dots pre).
    + exists "". rewrite append_nil_r. split; [reflexivity | now left].
    + exists (String "." post). split; [exact E|].
      right. now exists post.
  - exists "". rewrite append_nil_r. split; [reflexivity | now left].
Qed.

(** A name is cut at its last dot in one way only. *)
Lemma last_dot_unique (pre : string) :
  forall pre' post e,
    (pre ++ String "." post)%string = (pre' ++ String "." e)%string ->
    occurs "." post = false -> occurs "." e = false ->
    pre = pre'.
Proof.
  induction pre as [|a pre IH]; intros [|c pre'] post e E P Q.
  - reflexivity.
  - simpl in E. inversion E as [[C R]]. subst post.
    rewrite occurs_append in P. simpl in P.
    now rewrite orb_true_r in P.
  - simpl in E. inversion E as [[C R]]. subst e.
    rewrite occurs_append in Q. simpl in Q.
    now rewrite orb_true_r in Q.
  - simpl in E. inversion E as [[C R]]. f_equal.
    now apply (IH pre' post e).
Qed.

(** [splitext_root] leaves the name as it is when it has no dot or only
    dots before its last dot, and cuts it at its last dot otherwise. *)
Lemma splitext_root_cases (b : string) :
  (splitext_root b = b
   /\ forall pre e,
        b = (pre ++ String "." e)%string -> occurs "." e = false ->
        all_dots pre = true)
  \/ exists e,
       b = (splitext_root b ++ String "." e)%string
       /\ occurs "." e = false
       /\ all_dots (splitext_root b) = false.
Proof.
  unfold splitext_root. destruct (rfind "." b) as [i|] eqn:R.
  - destruct (rfind_some "." b i R) as (pre & post & E & L & O).
    assert (B : String.substring 0 i b = pre).
    { subst b i. apply substring_prefix. }
    rewrite B. destruct (all_dots pre) eqn:A.
    + left. split; [reflexivity|].
      intros pre' e E' Q. rewrite E in E'.
      now rewrite <- (last_dot_unique pre pre' post e E' O Q).
    + right. exists post. now repeat split.
  - left. split; [reflexivity|].
    intros pre e E Q. apply rfind_none in R.
    rewrite E, occurs_append in R. simpl in R.
    now rewrite orb_true_r in R.
Qed.

End Paths.

(** X15. The title that [get_track_metadata] falls back on is the file name
    without its directories and without its last extension.  The path is a
    directory part (empty, or ending with a slash), then the title, then an
    extension, and neither the title nor the extension holds a slash.  The
    extension is a dot followed by no other dot, after a title that is not
    made of dots only; or it is empty, and then the name has no dot or
    nothing but dots before its last dot. *)
Theorem fallback_title_is_file_stem {T : Type} {num : Seconds T}
    (w : world T) (flac_path : string) :
  read_metadata w flac_path = None ->
  let t := title (get_track_metadata w flac_path) in
  exists dir ext,
    flac_path = dir ++ t ++ ext
    /\ (dir = "" \/ exists d, dir = d ++ "/")
    /\ occurs "/" (t ++ ext) = false
    /\ ((exists e,
           ext = String "." e /\ occurs "." e = false
           /\ all_dots t = false)
        \/ (ext = ""
            /\ forall pre e,
                 t = pre ++ String "." e -> occurs "." e = false ->
                 all_dots pre = true)).
Proof.
  intros H. unfold get_track_metadata. rewrite H. simpl. unfold stem.
  destruct (basename_split flac_path) as (dir & E & O & D).
  destruct (splitext_root_cases (basename flac_path))
    as [[S A] | (e & S & Q & A)].
  - exists dir, "". rewrite S, append_nil_r.
    split; [exact E|]. split; [exact D|]. split; [exact O|].
    right. split; [reflexivity | exact A].
  - exists dir, (String "." e). rewrite <- S.
    split; [exact E|]. split; [exact D|]. split; [exact O|].
    left. now exists e.
Qed.

Lemma fallback_title_is_file_stem_witness :
  title (get_track_metadata Demo.world0 "/music/My.Album/07 - Echoes.flac")
  = "07 - Echoes"
  /\ exists dir ext,
       "/music/My.Album/07 - Echoes.flac"
       = dir
         ++ title (get_track_metadata Demo.world0
                     "/music/My.Album/07 - Echoes.flac") ++ ext
       /\ (dir = "" \/ exists d, dir = d ++ "/")
       /\ occurs "/"
            (title (get_track_metadata Demo.world0
                      "/music/My.Album/07 - Echoes.flac") ++ ext) = false
       /\ ((exists e,
              ext = String "." e /\ occurs "." e = false
              /\ all_dots
                   (title (get_track_metadata Demo.world0
                             "/music/My.Album/07 - Echoes.flac")) = false)
           \/ (ext = ""
               /\ forall pre e,
                    title (get_track_metadata Demo.world0
                             "/music/My.Album/07 - Echoes.flac")
                    = pre ++ String "." e ->
                    occurs "." e = false -> all_dots pre = true)).
Proof.
  split; [reflexivity|].
  apply (fallback_title_is_file_stem Demo.world0
           "/music/My.Album/07 - Echoes.flac").
  reflexivity.
Defined.

(** ** The tags of a file *)

Section Tags.

Context {T : Type} {num : Seconds T}.

Local Open Scope list_scope.

Lemma filter_first_comment (key : string) (tags : list (string * string)) :
  (filter (fun kv => String.eqb (lower (fst kv)) (lower key)) tags = []
   /\ forall k x, In (k, x) tags -> lower k <> lower key)
  \/ exists pre k v post rest,
       tags = pre ++ (k, v) :: post
       /\ lower k = lower key
       /\ (forall k' x, In (k', x) pre -> lower k' <> lower key)
       /\ filter (fun kv => String.eqb (lower (fst kv)) (lower key)) tags
          = (k, v) :: rest.
Proof.
  induction tags as [|[k v] tags IH].
  - left. split; [reflexivity | intros k x []].
  - cbn [filter fst].
    destruct (String.eqb (lower k) (lower key)) eqn:E.
    + right. apply String.eqb_eq in E.
      exists [], k, v, tags. eexists.
      split; [reflexivity|]. split; [exact E|].
      split; [intros k' x [] | reflexivity].
    + apply String.eqb_neq in E.
      destruct IH as [[F N] | (pre & k0 & v0 & post & rest & P & L & N & F)].
      * left. split; [exact F|].
        intros k' x [I | I]; [inversion I; now subst | now apply (N k' x)].
      * right. exists ((k, v) :: pre), k0, v0, post, rest.
        split; [now rewrite P|]. split; [exact L|]. split; [|exact F].
        intros k' x [I | I]; [inversion I; now subst | now apply (N k' x)].
Qed.

(** [audio.get(key, [default])[0]] never raises. *)
Lemma item0_tag_get (audio : flac T) (key default : string) :
  exists v,
    item0 (tag_get audio key [default]) = Some v
    /\ first_comment (flac_tags audio) key default v.
Proof.
  unfold tag_get, tag_values. cbv zeta.
  destruct (filter_first_comment key (flac_tags audio))
    as [[F N] | (pre & k & v & post & rest & P & L & N & F)];
    rewrite F; simpl.
  - exists default. split; [reflexivity|]. left. now split.
  - exists v. split; [reflexivity|]. right. now exists pre, k, post.
Qed.

End Tags.

(** X16. When the file opens, [get_track_metadata] falls back field by
    field and never on the whole: each of title, artist, album and track
    number is the value of the first comment of the file whose key is
    TITLE, ARTIST, ALBUM or TRACKNUMBER in any letter case, or its own
    default when no comment has this key (the file stem, "Unknown Artist",
    "Unknown Album", "1"); the track number is a string in both cases; and
    the duration, sample rate, bit depth and channel count are those of the
    stream. *)
Theorem tags_fall_back_field_by_field {T : Type} {num : Seconds T}
    (w : world T) (flac_path : string) (audio : flac T) :
  FLAC w flac_path = Some audio ->
  let md := get_track_metadata w flac_path in
  let field (key default v : string) : Prop :=
    ((forall k x, In (k, x) (flac_tags audio) -> lower k <> lower key)
     /\ v = default)
    \/ exists pre k post,
         flac_tags audio = (pre ++ (k, v) :: post)%list
         /\ lower k = lower key
         /\ forall k' x, In (k', x) pre -> lower k' <> lower key in
  field "TITLE" (splitext_root (basename flac_path)) (title md)
  /\ field "ARTIST" "Unknown Artist" (artist md)
  /\ field "ALBUM" "Unknown Album" (album md)
  /\ (exists tn, track_number md = Str tn /\ field "TRACKNUMBER" "1" tn)
  /\ duration md = info_length (flac_info audio)
  /\ sample_rate md = info_sample_rate (flac_info audio)
  /\ bits_per_sample md = info_bits_per_sample (flac_info audio)
  /\ channels md = info_channels (flac_info audio).
Proof.
  intros F. cbv zeta. unfold get_track_metadata, read_metadata.
  rewrite F. fold (stem flac_path).
  destruct (item0_tag_get audio "TITLE" (stem flac_path)) as (v1 & E1 & C1).
  destruct (item0_tag_get audio "ARTIST" "Unknown Artist")
    as (v2 & E2 & C2).
  destruct (item0_tag_get audio "ALBUM" "Unknown Album") as (v3 & E3 & C3).
  destruct (item0_tag_get audio "TRACKNUMBER" "1") as (v4 & E4 & C4).
  rewrite E1, E2, E3, E4. cbn [title artist album track_number duration
                               sample_rate bits_per_sample channels].
  split; [exact C1|]. split; [exact C2|]. split; [exact C3|].
  split; [now exists v4|]. now repeat split.
Qed.

Lemma tags_fall_back_field_by_field_witness :
  get_track_metadata Demo.world_artist_only "/m/03 Vitamin C.flac"
  = {| title := "03 Vitamin C"; artist := "Can"; album := "Unknown Album";
       track_number := Str "1"; duration := 200; sample_rate := 48000;
       bits_per_sample := 24; channels := 2 |}
  /\ (((forall k x,
          In (k, x) (flac_tags Demo.artist_only) ->
          lower k <> lower "ARTIST")
       /\ artist
            (get_track_metadata Demo.world_artist_only
               "/m/03 Vitamin C.flac") = "Unknown Artist")
      \/ exists pre k post,
           flac_tags Demo.artist_only
           = (pre
              ++ (k,
                  artist
                    (get_track_metadata Demo.world_artist_only
                       "/m/03 Vitamin C.flac")) :: post)%list
           /\ lower k = lower "ARTIST"
           /\ forall k' x, In (k', x) pre -> lower k' <> lower "ARTIST").
Proof.
  split; [reflexivity|].
  apply (tags_fall_back_field_by_field Demo.world_artist_only
           "/m/03 Vitamin C.flac" Demo.artist_only).
  reflexivity.
Defined.

(** ** Reading the chapter file back *)

Section ChapterKeys.

Context {T : Type} {num : Seconds T}.

Local Open Scope list_scope.

Lemma to_int_not_nil (z : Z) :
  Z.to_int z <> Decimal.Pos Decimal.Nil
  /\ Z.to_int z <> Decimal.Neg Decimal.Nil.
Proof.
  destruct z as [|p|p]; simpl; split; try discriminate;
    intros H; inversion H as [E];
    now apply (DecimalPos.Unsigned.to_uint_nonnil p).
Qed.

(** [str] of an [int] determines the integer. *)
Lemma str_of_int_inj (a b : Z) : str_of_int a = str_of_int b -> a = b.
Proof.
  unfold str_of_int. intros H.
  apply DecimalZ.to_int_inj.
  destruct (to_int_not_nil a) as [A1 A2].
  destruct (to_int_not_nil b) as [B1 B2].
  pose proof (NilZero.isi (Z.to_int a) A1 A2) as Ia.
  pose proof (NilZero.isi (Z.to_int b) B1 B2) as Ib.
  rewrite H in Ia. rewrite Ia in Ib. now inversion Ib.
Qed.

Lemma chapter_lines_inj (c c' : chapter T) :
  chapter_lines c = chapter_lines c' -> chapter_key c = chapter_key c'.
Proof.
  unfold chapter_lines, chapter_key. intros H.
  inversion H as [[S E Ti]].
  apply str_of_int_inj in S. apply str_of_int_inj in E.
  now rewrite S, E, Ti.
Qed.

Lemma flat_map_chapter_lines_inj (cs : list (chapter T)) :
  forall cs',
    flat_map chapter_lines cs = flat_map chapter_lines cs' ->
    map chapter_key cs = map chapter_key cs'.
Proof.
  induction cs as [|c cs IH]; intros [|c' cs'] H.
  - reflexivity.
  - discriminate.
  - discriminate.
  - cbn [flat_map] in H.
    assert (H5 : chapter_lines c = chapter_lines c'
                 /\ flat_map chapter_lines cs = flat_map chapter_lines cs').
    { unfold chapter_lines in H at 1 3. cbn [app] in H.
      inversion H as [[S E Ti R]]. unfold chapter_lines.
      now rewrite S, E, Ti. }
    destruct H5 as [Hc Hr]. cbn [map]. f_equal.
    + now apply chapter_lines_inj.
    + now apply IH.
Qed.

Lemma lines_of_chapter_file (chapters : list (chapter T)) :
  Forall (fun c => no_newline (chapter_title c) = true) chapters ->
  lines_of (chapter_file_content chapters)
  = ";FFMETADATA1" :: flat_map chapter_lines chapters.
Proof.
  intros H. unfold chapter_file_content, chapter_file_writes.
  rewrite flat_map_writes.
  change ((";FFMETADATA1" ++ nl)%string
          :: map (fun l => (l ++ nl)%string)
               (flat_map chapter_lines chapters))
    with (map (fun l => (l ++ nl)%string)
            (";FFMETADATA1" :: flat_map chapter_lines chapters)).
  apply lines_of_written. constructor; [reflexivity|].
  apply Forall_flat_map. apply Forall_impl with (2 := H).
  intros c Hc. now apply chapter_lines_no_newline.
Qed.

End ChapterKeys.

(** X17. The chapter file determines the chapters: two chapter lists whose
    titles hold no line feed and for which [create_chapter_file] writes the
    same text have the same number of chapters, with the same start and end
    in milliseconds and the same title, in the same order. *)
Theorem chapter_file_determines_chapters {T : Type} {num : Seconds T}
    (chapters chapters' : list (chapter T)) :
  Forall (fun c => no_newline (chapter_title c) = true) chapters ->
  Forall (fun c => no_newline (chapter_title c) = true) chapters' ->
  chapter_file_content chapters = chapter_file_content chapters' ->
  map (fun c => (sec_millis (chapter_start c), sec_millis (chapter_end c),
                 chapter_title c)) chapters
  = map (fun c => (sec_millis (chapter_start c), sec_millis (chapter_end c),
                   chapter_title c)) chapters'.
Proof.
  intros H H' E.
  pose proof (lines_of_chapter_file chapters H) as L.
  pose proof (lines_of_chapter_file chapters' H') as L'.
  rewrite E, L' in L. inversion L as [F].
  symmetry. now apply flat_map_chapter_lines_inj.
Qed.

Lemma chapter_file_determines_chapters_witness :
  map (fun c : chapter Z =>
         (sec_millis (chapter_start c), sec_millis (chapter_end c),
          chapter_title c))
    [ {| chapter_start := 0; chapter_end := 180;
         chapter_title := "01. One of These Days" |} ]%list
  = map (fun c : chapter Z =>
           (sec_millis (chapter_start c), sec_millis (chapter_end c),
            chapter_title c))
      [ {| chapter_start := 0; chapter_end := 180;
           chapter_title := "01. One of These Days" |} ]%list.
Proof.
  apply (chapter_file_determines_chapters
           [ {| chapter_start := 0; chapter_end := 180;
                chapter_title := "01. One of These Days" |} ]%list
           [ {| chapter_start := 0; chapter_end := 180;
                chapter_title := "01. One of These Days" |} ]%list).
  - repeat constructor.
  - repeat constructor.
  - reflexivity.
Defined.

(** ** Start-up *)

(** X18. [check_dependencies] lets through the first exception that its
    handlers do not catch: one of [subprocess.run] other than
    [CalledProcessError] and [FileNotFoundError] ([PermissionError] for
    instance), or one of an import other than [ImportError].  Otherwise it
    returns a list that holds "FFmpeg" exactly when running
    [ffmpeg -version] raised, the Pillow entry exactly when [import PIL]
    raised and the mutagen entry exactly when [import mutagen] raised, in
    this order and each at most once; the list is empty exactly when the
    three checks passed. *)
Theorem check_dependencies_reports (sys : installation) :
  let uncaught (body : result unit) (caught : exn -> bool) (e : exn) :=
    body = Raise e /\ caught e = false in
  let passes (body : result unit) (caught : exn -> bool) :=
    forall e, ~ uncaught body caught e in
  let failed (body : result unit) : list string -> list string :=
    fun entry => match body with Ok _ => []%list | Raise _ => entry end in
  (forall e,
     check_dependencies sys = Raise e
     <-> uncaught (ffmpeg_version sys) process_failure e
         \/ (passes (ffmpeg_version sys) process_failure
             /\ uncaught (import_PIL sys) import_failure e)
         \/ (passes (ffmpeg_version sys) process_failure
             /\ passes (import_PIL sys) import_failure
             /\ uncaught (import_mutagen sys) import_failure e))
  /\ (forall missing,
        check_dependencies sys = Ok missing ->
        missing
        = (failed (ffmpeg_version sys) ["FFmpeg"]
           ++ failed (import_PIL sys) ["Pillow (pip install Pillow)"]
           ++ failed (import_mutagen sys)
                ["mutagen (pip install mutagen)"])%list
        /\ NoDup missing
        /\ (missing = []%list
            <-> ffmpeg_version sys = Ok tt /\ import_PIL sys = Ok tt
                /\ import_mutagen sys = Ok tt)).
Proof.
  cbv zeta. unfold check_dependencies, check.
  destruct sys as [f p m]. cbn [ffmpeg_version import_PIL import_mutagen].
  split.
  - intros e. split.
    + destruct f as [[]|ef]; [|destruct (process_failure ef) eqn:Cf];
        (destruct p as [[]|ep]; [|destruct (import_failure ep) eqn:Cp]);
        (destruct m as [[]|em]; [|destruct (import_failure em) eqn:Cm]);
        intros H; inversion H; subst;
        try (left; now split);
        try (right; left; split; [|now split];
             intros e0 [E0 C0]; inversion E0; congruence);
        try (right; right; split; [|split; [|now split]];
             intros e0 [E0 C0]; inversion E0; congruence).
    + intros [[E C] | [[Pf [E C]] | [Pf [Pp [E C]]]]].
      * subst f. now rewrite C.
      * subst p. rewrite C.
        destruct f as [[]|ef]; [reflexivity|].
        destruct (process_failure ef) eqn:Cf; [reflexivity|].
        now destruct (Pf ef).
      * subst m. rewrite C.
        destruct f as [[]|ef]; [|destruct (process_failure ef) eqn:Cf];
          try (now destruct (Pf ef));
          (destruct p as [[]|ep]; [|destruct (import_failure ep) eqn:Cp]);
          try (now destruct (Pp ep)); reflexivity.
  - intros missing.
    destruct f as [[]|ef]; [|destruct (process_failure ef) eqn:Cf];
      (destruct p as [[]|ep]; [|destruct (import_failure ep) eqn:Cp]);
      (destruct m as [[]|em]; [|destruct (import_failure em) eqn:Cm]);
      intros H; inversion H; subst; simpl;
      (split; [reflexivity|]);
      (split;
       [repeat constructor; simpl; intuition discriminate
       |split; [try discriminate; intros _; now repeat split
               |try reflexivity; intros (A & B & C); discriminate]]).
Qed.

Lemma check_dependencies_reports_witness :
  check_dependencies
    {| ffmpeg_version :=
         Raise (OSError "[Errno 13] Permission denied: 'ffmpeg'");
       import_PIL := Ok tt;
       import_mutagen := Raise (ImportError "No module named 'mutagen'") |}
  = Raise (OSError "[Errno 13] Permission denied: 'ffmpeg'")
  /\ ["FFmpeg"; "mutagen (pip install mutagen)"]%list
     = ((match Raise (FileNotFoundError
                        "[Errno 2] No such file or directory: 'ffmpeg'")
               : result unit with
         | Ok _ => []
         | Raise _ => ["FFmpeg"]
         end)
        ++ (match Ok tt : result unit with
            | Ok _ => []
            | Raise _ => ["Pillow (pip install Pillow)"]
            end)
        ++ (match Raise (ImportError "No module named 'mutagen'")
                  : result unit with
            | Ok _ => []
            | Raise _ => ["mutagen (pip install mutagen)"]
            end))%list.
Proof.
  split.
  - apply (proj1 (check_dependencies_reports
                    {| ffmpeg_version :=
                         Raise
                           (OSError "[Errno 13] Permission denied: 'ffmpeg'");
                       import_PIL := Ok tt;
                       import_mutagen :=
                         Raise (ImportError "No module named 'mutagen'") |})).
    left. split; reflexivity.
  - apply (proj2 (check_dependencies_reports
                    {| ffmpeg_version :=
                         Raise
                           (FileNotFoundError
                              "[Errno 2] No such file or directory: 'ffmpeg'");
                       import_PIL := Ok tt;
                       import_mutagen :=
                         Raise (ImportError "No module named 'mutagen'") |})).
    reflexivity.
Defined.

(** X19. [main] creates the window exactly when [check_dependencies]
    returned an empty list and the program was started without argument.
    It returns 0 exactly when, moreover, the window ran without raising.
    When [check_dependencies] raises, the exception leaves [main] after the
    banner is printed; in every other case [main] returns 1, and with a
    missing dependency or with any argument nothing is converted. *)
Theorem main_exit_status (sys : installation) (argv : list string)
    (gui_error : option string) :
  let r := main sys argv gui_error in
  (returned r = Ok 0
   <-> check_dependencies sys = Ok []%list /\ List.length argv = 1%nat
       /\ gui_error = None)
  /\ (forall e, returned r = Raise e <-> check_dependencies sys = Raise e)
  /\ (forall e,
        check_dependencies sys = Raise e ->
        printed r
        = ["FLAC to MKV Converter"; "=============================="]%list)
  /\ (returned r = Ok 0 \/ returned r = Ok 1
      \/ exists e, returned r = Raise e)
  /\ (gui_started r = true
      <-> check_dependencies sys = Ok []%list
          /\ List.length argv = 1%nat).
Proof.
  cbv zeta. unfold main.
  destruct (check_dependencies sys) as [[|d ds]|e].
  - destruct (Nat.eqb_spec (List.length argv) 1) as [E | E].
    + destruct gui_error as [e|]; simpl.
      * split; [split; [discriminate | intros (_ & _ & H); discriminate]|].
        split; [split; discriminate|]. split; [discriminate|].
        split; [now (right; left)|]. split; [now intros _ | reflexivity].
      * split; [split; [now intros _ | reflexivity]|].
        split; [split; discriminate|]. split; [discriminate|].
        split; [now left|]. split; [now intros _ | reflexivity].
    + simpl. split; [split; [discriminate | intros (_ & H & _); lia]|].
      split; [split; discriminate|]. split; [discriminate|].
      split; [now (right; left)|].
      split; [discriminate | intros (_ & H); lia].
  - simpl. split; [split; [discriminate | intros (H & _); discriminate]|].
    split; [split; discriminate|]. split; [discriminate|].
    split; [now (right; left)|].
    split; [discriminate | intros (H & _); discriminate].
  - simpl. split; [split; [discriminate | intros (H & _); discriminate]|].
    split; [intros e0; split; intros H; inversion H; reflexivity|].
    split; [reflexivity|].
    split; [right; right; now exists e|].
    split; [discriminate | intros (H & _); discriminate].
Qed.

Lemma main_exit_status_witness :
  returned
    (main {| ffmpeg_version :=
               Raise (OSError "[Errno 13] Permission denied: 'ffmpeg'");
             import_PIL := Ok tt; import_mutagen := Ok tt |}
       ["flac_to_mkv_converter.py"]%list None)
  = Raise (OSError "[Errno 13] Permission denied: 'ffmpeg'")
  /\ returned
       (main {| ffmpeg_version := Ok tt; import_PIL := Ok tt;
                import_mutagen := Ok tt |}
          ["flac_to_mkv_converter.py"]%list None)
     = Ok 0.
Proof.
  split.
  - apply (proj1 (proj2 (main_exit_status
                           {| ffmpeg_version :=
                                Raise
                                  (OSError
                                     "[Errno 13] Permission denied: 'ffmpeg'");
                              import_PIL := Ok tt; import_mutagen := Ok tt |}
                           ["flac_to_mkv_converter.py"]%list None))).
    reflexivity.
  - apply (proj1 (main_exit_status
                    {| ffmpeg_version := Ok tt; import_PIL := Ok tt;
                       import_mutagen := Ok tt |}
                    ["flac_to_mkv_converter.py"]%list None)).
    now repeat split.
Defined.

(** ** The files of the scratch directory *)

Section ScratchPaths.

Local Open Scope list_scope.

Lemma append_inj_l (p a b : string) :
  (p ++ a)%string = (p ++ b)%string -> a = b.
Proof.
  induction p as [|c p IH]; simpl; intros H; [exact H|].
  inversion H. now apply IH.
Qed.

Lemma append_inj_r (s : string) :
  forall a b, (a ++ s)%string = (b ++ s)%string -> a = b.
Proof.
  assert (R : forall a b,
            String.length a = String.length b ->
            (a ++ s)%string = (b ++ s)%string -> a = b).
  { induction a as [|c a IH]; intros [|d b] L H;
      try discriminate; [reflexivity|].
    simpl in L, H. inversion H. f_equal. apply IH; [lia | assumption]. }
  intros a b H. apply R; [|exact H].
  apply (f_equal String.length) in H. rewrite !length_append in H. lia.
Qed.

Lemma uint_of_string_zeros (k : nat) (s : string) :
  NilEmpty.uint_of_string (zeros k ++ s)
  = option_map (Nat.iter k Decimal.D0) (NilEmpty.uint_of_string s).
Proof.
  induction k as [|k IH].
  - simpl. now destruct (NilEmpty.uint_of_string s).
  - cbn [zeros append NilEmpty.uint_of_string]. rewrite IH.
    now destruct (NilEmpty.uint_of_string s).
Qed.

Lemma of_uint_zeros (k : nat) (d : Decimal.uint) :
  Z.of_uint (Nat.iter k Decimal.D0 d) = Z.of_uint d.
Proof. induction k as [|k IH]; simpl; [reflexivity | exact IH]. Qed.

(** The digits of an index, padded with zeros, give the index back. *)
Lemma digits_value_padded (k i : nat) :
  digits_value (zeros k ++ str_of_int (Z.of_nat i)) = Some (Z.of_nat i).
Proof.
  unfold str_of_int.
  pose proof (DecimalZ.of_to (Z.of_nat i)) as O.
  destruct (to_int_not_nil (Z.of_nat i)) as [A _].
  destruct (Z.to_int (Z.of_nat i)) as [u|u] eqn:E.
  - assert (N : u <> Decimal.Nil) by congruence.
    cbn [NilZero.string_of_int].
    replace (NilZero.string_of_uint u) with (NilEmpty.string_of_uint u)
      by (destruct u; try reflexivity; contradiction).
    unfold digits_value.
    rewrite uint_of_string_zeros, NilEmpty.usu. cbn [option_map].
    f_equal. rewrite of_uint_zeros. exact O.
  - exfalso. destruct (Z.of_nat i) eqn:Zi; simpl in E; try discriminate.
    lia.
Qed.

Lemma format_0d_inj (width i j : nat) :
  format_0d width (Z.of_nat i) = format_0d width (Z.of_nat j) -> i = j.
Proof.
  unfold format_0d.
  destruct (Z.ltb_spec (Z.of_nat i) 0) as [L | _]; [lia|].
  destruct (Z.ltb_spec (Z.of_nat j) 0) as [L | _]; [lia|].
  intros H. apply (f_equal digits_value) in H.
  rewrite !digits_value_padded in H. inversion H. lia.
Qed.

(** Joining a directory and one of the two relative names used here gives
    the directory, a slash unless it ends with one, and the name. *)
Lemma path_join_frame (a name : string) :
  path_join a (String "f" name) = (path_join a "" ++ String "f" name)%string.
Proof.
  unfold path_join. destruct a as [|x a]; [reflexivity|].
  destruct (String.get (String.length (String x a) - 1) (String x a))
    as [y|];
    [destruct y as [[] [] [] [] [] [] [] []]|];
    cbv beta iota; rewrite ?append_nil_r, ?append_assoc; reflexivity.
Qed.

Lemma path_join_video (a name : string) :
  path_join a (String "v" name) = (path_join a "" ++ String "v" name)%string.
Proof.
  unfold path_join. destruct a as [|x a]; [reflexivity|].
  destruct (String.get (String.length (String x a) - 1) (String x a))
    as [y|];
    [destruct y as [[] [] [] [] [] [] [] []]|];
    cbv beta iota; rewrite ?append_nil_r, ?append_assoc; reflexivity.
Qed.

End ScratchPaths.

(** X20. Different tracks get different scratch files: the frame image and
    the segment of track [i] have the paths of no other track, whatever the
    number of tracks (the index is printed on three digits at least, never
    cut), and no frame has the path of a segment; so no iteration
    overwrites what an earlier one wrote. *)
Theorem scratch_paths_are_distinct (temp_dir : string) (i j : nat) :
  (frame_path_of temp_dir i = frame_path_of temp_dir j -> i = j)
  /\ (video_path_of temp_dir i = video_path_of temp_dir j -> i = j)
  /\ frame_path_of temp_dir i <> video_path_of temp_dir j.
Proof.
  unfold frame_path_of, video_path_of.
  cbn [append]. rewrite !path_join_frame, !path_join_video.
  split; [|split].
  - intros H. apply append_inj_l in H. inversion H as [F].
    apply append_inj_r in F. now apply format_0d_inj in F.
  - intros H. apply append_inj_l in H. inversion H as [F].
    apply append_inj_r in F. now apply format_0d_inj in F.
  - intros H. apply append_inj_l in H. discriminate.
Qed.

(** ** The convert button follows the inputs *)

Section Enabled.

Context {T : Type} {num : Seconds T} (w : world T).

Lemma check_ready_enables (g : window) :
  ready (gui_converter (ConverterGUI.check_ready g)) = true ->
  convert_btn (ConverterGUI.check_ready g) = "normal".
Proof.
  unfold ConverterGUI.check_ready.
  destruct (ready (gui_converter g)) eqn:R; simpl; [reflexivity|].
  congruence.
Qed.

Lemma handle_enabled (g : window) (e : ConverterGUI.event) :
  (ready (gui_converter g) = true -> convert_btn g = "normal") ->
  ready (gui_converter (ConverterGUI.handle w g e)) = true ->
  convert_btn (ConverterGUI.handle w g e) = "normal".
Proof.
  intros I. destruct e as [files | file | file |]; simpl.
  - unfold ConverterGUI.select_flac_files.
    destruct (select_flac_files (gui_converter g) files) as [c [|]];
      [apply check_ready_enables | exact I].
  - unfold ConverterGUI.select_cover_art.
    destruct (select_cover_art (gui_converter g) file) as [c [|]];
      [apply check_ready_enables | exact I].
  - unfold ConverterGUI.select_output_path.
    destruct (select_output_path (gui_converter g) file) as [c [|]];
      [apply check_ready_enables | exact I].
  - destruct (String.eqb (convert_btn g) "normal"); [|exact I].
    intros _.
    now destruct (start_conversion_effect w g) as (_ & _ & _ & _ & B & _).
Qed.

Lemma session_enabled (events : list ConverterGUI.event) :
  ready (gui_converter (ConverterGUI.session w events)) = true ->
  convert_btn (ConverterGUI.session w events) = "normal".
Proof.
  unfold ConverterGUI.session.
  assert (G : forall g,
            (ready (gui_converter g) = true -> convert_btn g = "normal") ->
            ready (gui_converter (fold_left (ConverterGUI.handle w) events g))
            = true ->
            convert_btn (fold_left (ConverterGUI.handle w) events g)
            = "normal").
  { induction events as [|e events IH]; intros g H; simpl; [exact H|].
    apply IH. now apply handle_enabled. }
  apply G. discriminate.
Qed.

End Enabled.

(** X21. In every session of the window, as soon as the converter holds at
    least one track, an artwork path and an output path, the convert button
    is enabled, and it is enabled again after each conversion; answers may
    come in any order and cancelled dialogs change nothing. *)
Theorem convert_button_enabled_by_inputs {T : Type} {num : Seconds T}
    (w : world T) (events : list ConverterGUI.event) :
  flac_files (gui_converter (ConverterGUI.session w events)) <> []%list ->
  cover_art_path (gui_converter (ConverterGUI.session w events)) <> "" ->
  output_path (gui_converter (ConverterGUI.session w events)) <> "" ->
  convert_btn (ConverterGUI.session w events) = "normal".
Proof.
  intros F C O. apply session_enabled. unfold ready.
  destruct (gui_converter (ConverterGUI.session w events))
    as [files cover out tmp].
  simpl in *.
  destruct files; [contradiction|]. destruct cover; [contradiction|].
  destruct out; [contradiction|]. reflexivity.
Qed.

Lemma convert_button_enabled_by_inputs_witness :
  convert_btn
    (ConverterGUI.session Demo.world0
       [ConverterGUI.PressSelectOutputPath "/out/a.mkv";
        ConverterGUI.PressSelectCoverArt "";
        ConverterGUI.PressSelectFlacFiles ["/music/01.flac"];
        ConverterGUI.PressSelectCoverArt "/music/cover.jpg";
        ConverterGUI.PressConvert]%list)
  = "normal".
Proof.
  apply (convert_button_enabled_by_inputs Demo.world0
           [ConverterGUI.PressSelectOutputPath "/out/a.mkv";
            ConverterGUI.PressSelectCoverArt "";
            ConverterGUI.PressSelectFlacFiles ["/music/01.flac"];
            ConverterGUI.PressSelectCoverArt "/music/cover.jpg";
            ConverterGUI.PressConvert]%list);
    vm_compute; discriminate.
Defined.
